(** * DocumentObserver: mutation classification, throttling, batching and
      the observation life cycle

    A shallow embedding of [src/ts/ContentScript/DocumentObserver.ts].

    The class [DocumentObserver] is embedded as a record holding its fields
    together with the part of the JavaScript environment the class reads and
    writes: the expando properties of DOM elements, the heap of [Set] objects
    it hands to listeners, the timer queue behind [setTimeout]/[clearTimeout],
    a millisecond clock behind [Date.now()], and the trace of events it
    raised.  Methods are state transformers on that record. *)

From Stdlib Require Import ZArith.
From stdpp Require Import gmap strings list.

Local Open Scope Z_scope.
Set Warnings "-clear-no-such-hyp".

(** ** Constants (line 7 and lines 226-228) *)

(** [Number.MAX_SAFE_INTEGER], 2^53 - 1. *)
Definition Number_MAX_SAFE_INTEGER : Z := 9007199254740991.

Definition mutationThrottleTime : Z := 30.
Definition maxMutationsCount : Z := 300.
Definition addedElementsGroupMinimumSize : nat := 50.
Definition addedElementsGroupAbsoluteTimeoutMS : Z := 100.
Definition addedElementsGroupSlidingTimeoutMS : Z := 30.

(** ** Data model *)

Inductive ObservationState := Active | Stopped.

#[global] Instance ObservationState_eq_dec : EqDecision ObservationState.
Proof. solve_decision. Defined.

(** DOM elements, documents and [Set] objects are identified by their
    address, a [positive]. *)

(** The properties of an element the observer consults or assigns. *)
Record ElementData := mkElementData {
  mlTimestamp : option Z;
  mlMutationThrottledCount : option Z;
  isChecked : bool;
  isHTMLBodyElement : bool;      (* [target instanceof HTMLBodyElement] *)
  isHTMLOrSVGElement : bool;     (* [tag instanceof HTMLElement || tag instanceof SVGElement] *)
  hasMlIgnoreClass : bool;       (* [tag.classList.contains('ml-ignore')] *)
  isHTMLStyleElement : bool;     (* [x instanceof HTMLStyleElement] *)
  mlIgnore : bool;
  visibility : string;           (* [tag.style.visibility] *)
  originalVisibility : option string
}.

(** An element nobody has touched yet: every expando property is undefined. *)
Definition plainElement : ElementData :=
  {| mlTimestamp := None; mlMutationThrottledCount := None; isChecked := false;
     isHTMLBodyElement := false; isHTMLOrSVGElement := true;
     hasMlIgnoreClass := false; isHTMLStyleElement := false; mlIgnore := false;
     visibility := ""; originalVisibility := None |}.

Definition with_mlMutationThrottledCount (c : option Z) (d : ElementData) : ElementData :=
  {| mlTimestamp := mlTimestamp d; mlMutationThrottledCount := c;
     isChecked := isChecked d; isHTMLBodyElement := isHTMLBodyElement d;
     isHTMLOrSVGElement := isHTMLOrSVGElement d;
     hasMlIgnoreClass := hasMlIgnoreClass d;
     isHTMLStyleElement := isHTMLStyleElement d; mlIgnore := mlIgnore d;
     visibility := visibility d; originalVisibility := originalVisibility d |}.

Definition with_visibility (v : string) (o : option string) (d : ElementData) : ElementData :=
  {| mlTimestamp := mlTimestamp d;
     mlMutationThrottledCount := mlMutationThrottledCount d;
     isChecked := isChecked d; isHTMLBodyElement := isHTMLBodyElement d;
     isHTMLOrSVGElement := isHTMLOrSVGElement d;
     hasMlIgnoreClass := hasMlIgnoreClass d;
     isHTMLStyleElement := isHTMLStyleElement d; mlIgnore := mlIgnore d;
     visibility := v; originalVisibility := o |}.

(** A document: its identity (the key of the three [WeakMap]s) and the
    nodes the observer reaches through it, each of them [null] ([None]) in
    a document that has none.  The code tests [head] before it uses it,
    and uses [documentElement] and [body] as they are. *)
Record Document := mkDocument {
  docId : positive;
  documentElement : option positive;
  body : option positive;
  head : option positive
}.

Inductive MutationType := attributes | childList | characterData.

#[global] Instance MutationType_eq_dec : EqDecision MutationType.
Proof. solve_decision. Defined.

Inductive Node :=
| ElementNode (e : positive)      (* [node instanceof Element] *)
| OtherNode.                      (* text, comment, ... *)

Record MutationRecord := mkMutationRecord {
  type : MutationType;
  target : positive;
  attributeName : option string;
  addedNodes : list Node
}.

Record MutationObserverInit := mkInit {
  subtree : bool;
  observeChildList : bool;
  observeAttributes : bool;
  attributeFilter : list string
}.

(** Lines 30-36. *)
Definition _updateObserverConfig : MutationObserverInit :=
  {| subtree := false; observeChildList := false; observeAttributes := true;
     attributeFilter := ["ml-update"%string] |}.
Definition _bodyObserverConfig : MutationObserverInit :=
  {| subtree := true; observeChildList := true; observeAttributes := true;
     attributeFilter := ["class"; "style"; "fill"; "stroke"]%string |}.
Definition _simpleBodyObserverConfig : MutationObserverInit :=
  {| subtree := true; observeChildList := true; observeAttributes := true;
     attributeFilter := ["class"%string] |}.
Definition _headObserverConfig : MutationObserverInit :=
  {| subtree := false; observeChildList := true; observeAttributes := false;
     attributeFilter := [] |}.

(** A platform [MutationObserver]: the nodes it is registered on with their
    options, its queue of undelivered records, and the expando [state]. *)
Record MutationObserver := mkObserver {
  observed : gmap positive MutationObserverInit;
  records : list MutationRecord;
  state : option ObservationState
}.

(** [new MutationObserver(callback)] *)
Definition newMutationObserver : MutationObserver :=
  {| observed := ∅; records := []; state := None |}.

(** [observer.observe(target, options)] *)
Definition observe (tgt : positive) (options : MutationObserverInit)
    (o : MutationObserver) : MutationObserver :=
  {| observed := <[tgt := options]> (observed o); records := records o;
     state := state o |}.

(** [observer.disconnect()]: stops observing and empties the record queue. *)
Definition disconnect (o : MutationObserver) : MutationObserver :=
  {| observed := ∅; records := []; state := state o |}.

(** [observer.takeRecords()]: returns the queue and empties it. *)
Definition takeRecords (o : MutationObserver) : list MutationRecord * MutationObserver :=
  (records o, {| observed := observed o; records := []; state := state o |}).

Definition with_state (st : ObservationState) (o : MutationObserver) : MutationObserver :=
  {| observed := observed o; records := records o; state := Some st |}.

Definition connected (o : MutationObserver) : bool :=
  negb (bool_decide (observed o = ∅)).

(** ** Events and timers *)

(** What the four dispatchers (and the style sheet processor) were given.
    [classChanges] and [styleChanges] are sets local to one callback that
    nothing writes to afterwards, so their contents are recorded.  The set
    given to [_onElementAdded] is a field of the observer: the event records
    the address of the object and what it held during the dispatch. *)
Inductive Event :=
| ClassChanged (els : gset positive)
| StyleChanged (els : gset positive)
| ElementsAdded (ref : positive) (els : gset positive)
| UpdateChanged (el : positive)
| StyleSheetsProcessed (ownerOf : positive).

Inductive ReleaseTitle := TitleSelf (size : nat) | TitleSliding | TitleAbsolute.

(** The closures handed to [setTimeout]. *)
Inductive Task :=
| ReleaseTask (title : ReleaseTitle)
| BodyDrain (doc : positive) (mutations : list MutationRecord)
| HeadDrain (doc : positive) (mutations : list MutationRecord).

Record Timer := mkTimer { timerId : Z; due : Z; task : Task }.

(** ** The observer and its environment *)

Record DocumentObserver := mkDocumentObserver {
  _rootDocument : Document;
  rootTimestamp : option Z;                      (* [_rootDocument.mlTimestamp] *)
  isActive : bool;                               (* [_settingsManager.isActive] *)
  isComplex : bool;                              (* [_settingsManager.isComplex] *)
  _bodyObservers : gmap positive MutationObserver;
  _headObservers : gmap positive MutationObserver;
  _updateObservers : gmap positive MutationObserver;
  elementData : gmap positive ElementData;       (* properties of DOM elements *)
  setHeap : gmap positive (gset positive);       (* the [Set] objects *)
  nextSetRef : positive;
  addedElementsGroup : positive;
  lastAddedElementsGroupSlidingTimeout : option Z;
  lastAddedElementsGroupAbsoluteTimeout : option Z;
  clock : Z;                                     (* [Date.now()] *)
  nextTimerId : Z;
  timers : list Timer;
  log : list (Z * Event)
}.

(** Field updates ([this.f = v]). *)

Definition set_rootTimestamp (v : option Z) (s : DocumentObserver) : DocumentObserver :=
  {| _rootDocument := _rootDocument s; rootTimestamp := v; isActive :=
     isActive s; isComplex := isComplex s; _bodyObservers := _bodyObservers
     s; _headObservers := _headObservers s; _updateObservers :=
     _updateObservers s; elementData := elementData s; setHeap := setHeap s;
     nextSetRef := nextSetRef s; addedElementsGroup := addedElementsGroup s;
     lastAddedElementsGroupSlidingTimeout :=
     lastAddedElementsGroupSlidingTimeout s;
     lastAddedElementsGroupAbsoluteTimeout :=
     lastAddedElementsGroupAbsoluteTimeout s; clock := clock s; nextTimerId
     := nextTimerId s; timers := timers s; log := log s |}.

Definition set_isActive (v : bool) (s : DocumentObserver) : DocumentObserver :=
  {| _rootDocument := _rootDocument s; rootTimestamp := rootTimestamp s;
     isActive := v; isComplex := isComplex s; _bodyObservers :=
     _bodyObservers s; _headObservers := _headObservers s; _updateObservers
     := _updateObservers s; elementData := elementData s; setHeap := setHeap s;
     nextSetRef := nextSetRef s; addedElementsGroup := addedElementsGroup s;
     lastAddedElementsGroupSlidingTimeout :=
     lastAddedElementsGroupSlidingTimeout s;
     lastAddedElementsGroupAbsoluteTimeout :=
     lastAddedElementsGroupAbsoluteTimeout s; clock := clock s; nextTimerId
     := nextTimerId s; timers := timers s; log := log s |}.

Definition set_isComplex (v : bool) (s : DocumentObserver) : DocumentObserver :=
  {| _rootDocument := _rootDocument s; rootTimestamp := rootTimestamp s;
     isActive := isActive s; isComplex := v; _bodyObservers := _bodyObservers
     s; _headObservers := _headObservers s; _updateObservers :=
     _updateObservers s; elementData := elementData s; setHeap := setHeap s;
     nextSetRef := nextSetRef s; addedElementsGroup := addedElementsGroup s;
     lastAddedElementsGroupSlidingTimeout :=
     lastAddedElementsGroupSlidingTimeout s;
     lastAddedElementsGroupAbsoluteTimeout :=
     lastAddedElementsGroupAbsoluteTimeout s; clock := clock s; nextTimerId
     := nextTimerId s; timers := timers s; log := log s |}.

Definition set_bodyObservers (v : gmap positive MutationObserver) (s : DocumentObserver) : DocumentObserver :=
  {| _rootDocument := _rootDocument s; rootTimestamp := rootTimestamp s;
     isActive := isActive s; isComplex := isComplex s; _bodyObservers := v;
     _headObservers := _headObservers s; _updateObservers := _updateObservers
     s; elementData := elementData s; setHeap := setHeap s; nextSetRef :=
     nextSetRef s; addedElementsGroup := addedElementsGroup s;
     lastAddedElementsGroupSlidingTimeout :=
     lastAddedElementsGroupSlidingTimeout s;
     lastAddedElementsGroupAbsoluteTimeout :=
     lastAddedElementsGroupAbsoluteTimeout s; clock := clock s; nextTimerId
     := nextTimerId s; timers := timers s; log := log s |}.

Definition set_headObservers (v : gmap positive MutationObserver) (s : DocumentObserver) : DocumentObserver :=
  {| _rootDocument := _rootDocument s; rootTimestamp := rootTimestamp s;
     isActive := isActive s; isComplex := isComplex s; _bodyObservers :=
     _bodyObservers s; _headObservers := v; _updateObservers :=
     _updateObservers s; elementData := elementData s; setHeap := setHeap s;
     nextSetRef := nextSetRef s; addedElementsGroup := addedElementsGroup s;
     lastAddedElementsGroupSlidingTimeout :=
     lastAddedElementsGroupSlidingTimeout s;
     lastAddedElementsGroupAbsoluteTimeout :=
     lastAddedElementsGroupAbsoluteTimeout s; clock := clock s; nextTimerId
     := nextTimerId s; timers := timers s; log := log s |}.

Definition set_updateObservers (v : gmap positive MutationObserver) (s : DocumentObserver) : DocumentObserver :=
  {| _rootDocument := _rootDocument s; rootTimestamp := rootTimestamp s;
     isActive := isActive s; isComplex := isComplex s; _bodyObservers :=
     _bodyObservers s; _headObservers := _headObservers s; _updateObservers
     := v; elementData := elementData s; setHeap := setHeap s; nextSetRef :=
     nextSetRef s; addedElementsGroup := addedElementsGroup s;
     lastAddedElementsGroupSlidingTimeout :=
     lastAddedElementsGroupSlidingTimeout s;
     lastAddedElementsGroupAbsoluteTimeout :=
     lastAddedElementsGroupAbsoluteTimeout s; clock := clock s; nextTimerId
     := nextTimerId s; timers := timers s; log := log s |}.

Definition set_elementData (v : gmap positive ElementData) (s : DocumentObserver) : DocumentObserver :=
  {| _rootDocument := _rootDocument s; rootTimestamp := rootTimestamp s;
     isActive := isActive s; isComplex := isComplex s; _bodyObservers :=
     _bodyObservers s; _headObservers := _headObservers s; _updateObservers
     := _updateObservers s; elementData := v; setHeap := setHeap s; nextSetRef
     := nextSetRef s; addedElementsGroup := addedElementsGroup s;
     lastAddedElementsGroupSlidingTimeout :=
     lastAddedElementsGroupSlidingTimeout s;
     lastAddedElementsGroupAbsoluteTimeout :=
     lastAddedElementsGroupAbsoluteTimeout s; clock := clock s; nextTimerId
     := nextTimerId s; timers := timers s; log := log s |}.

Definition set_setHeap (v : gmap positive (gset positive)) (s : DocumentObserver) : DocumentObserver :=
  {| _rootDocument := _rootDocument s; rootTimestamp := rootTimestamp s;
     isActive := isActive s; isComplex := isComplex s; _bodyObservers :=
     _bodyObservers s; _headObservers := _headObservers s; _updateObservers
     := _updateObservers s; elementData := elementData s; setHeap := v; nextSetRef
     := nextSetRef s; addedElementsGroup := addedElementsGroup s;
     lastAddedElementsGroupSlidingTimeout :=
     lastAddedElementsGroupSlidingTimeout s;
     lastAddedElementsGroupAbsoluteTimeout :=
     lastAddedElementsGroupAbsoluteTimeout s; clock := clock s; nextTimerId
     := nextTimerId s; timers := timers s; log := log s |}.

Definition set_nextSetRef (v : positive) (s : DocumentObserver) : DocumentObserver :=
  {| _rootDocument := _rootDocument s; rootTimestamp := rootTimestamp s;
     isActive := isActive s; isComplex := isComplex s; _bodyObservers :=
     _bodyObservers s; _headObservers := _headObservers s; _updateObservers
     := _updateObservers s; elementData := elementData s; setHeap := setHeap s;
     nextSetRef := v; addedElementsGroup := addedElementsGroup s;
     lastAddedElementsGroupSlidingTimeout :=
     lastAddedElementsGroupSlidingTimeout s;
     lastAddedElementsGroupAbsoluteTimeout :=
     lastAddedElementsGroupAbsoluteTimeout s; clock := clock s; nextTimerId
     := nextTimerId s; timers := timers s; log := log s |}.

Definition set_addedElementsGroup (v : positive) (s : DocumentObserver) : DocumentObserver :=
  {| _rootDocument := _rootDocument s; rootTimestamp := rootTimestamp s;
     isActive := isActive s; isComplex := isComplex s; _bodyObservers :=
     _bodyObservers s; _headObservers := _headObservers s; _updateObservers
     := _updateObservers s; elementData := elementData s; setHeap := setHeap s;
     nextSetRef := nextSetRef s; addedElementsGroup := v;
     lastAddedElementsGroupSlidingTimeout :=
     lastAddedElementsGroupSlidingTimeout s;
     lastAddedElementsGroupAbsoluteTimeout :=
     lastAddedElementsGroupAbsoluteTimeout s; clock := clock s; nextTimerId
     := nextTimerId s; timers := timers s; log := log s |}.

Definition set_lastAddedElementsGroupSlidingTimeout (v : option Z) (s : DocumentObserver) : DocumentObserver :=
  {| _rootDocument := _rootDocument s; rootTimestamp := rootTimestamp s;
     isActive := isActive s; isComplex := isComplex s; _bodyObservers :=
     _bodyObservers s; _headObservers := _headObservers s; _updateObservers
     := _updateObservers s; elementData := elementData s; setHeap := setHeap s;
     nextSetRef := nextSetRef s; addedElementsGroup := addedElementsGroup s;
     lastAddedElementsGroupSlidingTimeout := v;
     lastAddedElementsGroupAbsoluteTimeout :=
     lastAddedElementsGroupAbsoluteTimeout s; clock := clock s; nextTimerId
     := nextTimerId s; timers := timers s; log := log s |}.

Definition set_lastAddedElementsGroupAbsoluteTimeout (v : option Z) (s : DocumentObserver) : DocumentObserver :=
  {| _rootDocument := _rootDocument s; rootTimestamp := rootTimestamp s;
     isActive := isActive s; isComplex := isComplex s; _bodyObservers :=
     _bodyObservers s; _headObservers := _headObservers s; _updateObservers
     := _updateObservers s; elementData := elementData s; setHeap := setHeap s;
     nextSetRef := nextSetRef s; addedElementsGroup := addedElementsGroup s;
     lastAddedElementsGroupSlidingTimeout :=
     lastAddedElementsGroupSlidingTimeout s;
     lastAddedElementsGroupAbsoluteTimeout := v; clock := clock s;
     nextTimerId := nextTimerId s; timers := timers s; log := log s |}.

Definition set_clock (v : Z) (s : DocumentObserver) : DocumentObserver :=
  {| _rootDocument := _rootDocument s; rootTimestamp := rootTimestamp s;
     isActive := isActive s; isComplex := isComplex s; _bodyObservers :=
     _bodyObservers s; _headObservers := _headObservers s; _updateObservers
     := _updateObservers s; elementData := elementData s; setHeap := setHeap s;
     nextSetRef := nextSetRef s; addedElementsGroup := addedElementsGroup s;
     lastAddedElementsGroupSlidingTimeout :=
     lastAddedElementsGroupSlidingTimeout s;
     lastAddedElementsGroupAbsoluteTimeout :=
     lastAddedElementsGroupAbsoluteTimeout s; clock := v; nextTimerId :=
     nextTimerId s; timers := timers s; log := log s |}.

Definition set_nextTimerId (v : Z) (s : DocumentObserver) : DocumentObserver :=
  {| _rootDocument := _rootDocument s; rootTimestamp := rootTimestamp s;
     isActive := isActive s; isComplex := isComplex s; _bodyObservers :=
     _bodyObservers s; _headObservers := _headObservers s; _updateObservers
     := _updateObservers s; elementData := elementData s; setHeap := setHeap s;
     nextSetRef := nextSetRef s; addedElementsGroup := addedElementsGroup s;
     lastAddedElementsGroupSlidingTimeout :=
     lastAddedElementsGroupSlidingTimeout s;
     lastAddedElementsGroupAbsoluteTimeout :=
     lastAddedElementsGroupAbsoluteTimeout s; clock := clock s; nextTimerId
     := v; timers := timers s; log := log s |}.

Definition set_timers (v : list Timer) (s : DocumentObserver) : DocumentObserver :=
  {| _rootDocument := _rootDocument s; rootTimestamp := rootTimestamp s;
     isActive := isActive s; isComplex := isComplex s; _bodyObservers :=
     _bodyObservers s; _headObservers := _headObservers s; _updateObservers
     := _updateObservers s; elementData := elementData s; setHeap := setHeap s;
     nextSetRef := nextSetRef s; addedElementsGroup := addedElementsGroup s;
     lastAddedElementsGroupSlidingTimeout :=
     lastAddedElementsGroupSlidingTimeout s;
     lastAddedElementsGroupAbsoluteTimeout :=
     lastAddedElementsGroupAbsoluteTimeout s; clock := clock s; nextTimerId
     := nextTimerId s; timers := v; log := log s |}.

Definition set_log (v : list (Z * Event)) (s : DocumentObserver) : DocumentObserver :=
  {| _rootDocument := _rootDocument s; rootTimestamp := rootTimestamp s;
     isActive := isActive s; isComplex := isComplex s; _bodyObservers :=
     _bodyObservers s; _headObservers := _headObservers s; _updateObservers
     := _updateObservers s; elementData := elementData s; setHeap := setHeap s;
     nextSetRef := nextSetRef s; addedElementsGroup := addedElementsGroup s;
     lastAddedElementsGroupSlidingTimeout :=
     lastAddedElementsGroupSlidingTimeout s;
     lastAddedElementsGroupAbsoluteTimeout :=
     lastAddedElementsGroupAbsoluteTimeout s; clock := clock s; nextTimerId
     := nextTimerId s; timers := timers s; log := v |}.

(** ** JavaScript conventions used by the source *)

(** Truthiness of a [number | undefined]: [undefined] and [0] are falsy. *)
Definition truthy (o : option Z) : bool :=
  match o with
  | Some n => negb (n =? 0)
  | None => false
  end.

(** [x || 0] on a [number | undefined]. *)
Definition orZero (o : option Z) : Z :=
  match o with
  | Some n => n
  | None => 0
  end.

(** Reading the properties of an element; one never written to is plain. *)
Definition getElement (els : gmap positive ElementData) (e : positive) : ElementData :=
  default plainElement (els !! e).

(** ** The event loop: [setTimeout], [clearTimeout], [Date.now()] *)

(** [setTimeout(task, delay)]: the handle is a fresh positive number. *)
Definition setTimeout (k : Task) (delay : Z) (s : DocumentObserver) : Z * DocumentObserver :=
  let id := nextTimerId s in
  (id, set_nextTimerId (id + 1)
         (set_timers (timers s ++ [mkTimer id (clock s + delay) k]) s)).

(** [clearTimeout(handle)]: nothing happens on [undefined] or on a handle
    that is no longer pending. *)
Definition clearTimeout (handle : option Z) (s : DocumentObserver) : DocumentObserver :=
  set_timers
    match handle with
    | Some id => filter (λ t, timerId t ≠ id) (timers s)
    | None => timers s
    end s.

(** Modelled from the spec: [ArgumentedEventDispatcher.raise] of the
    [Events] namespace, which this file only uses.  Listeners run
    synchronously in the caller's context; the invocation is recorded in the
    trace with the time at which it happened. *)
Definition raise (ev : Event) (s : DocumentObserver) : DocumentObserver :=
  set_log (log s ++ [(clock s, ev)]) s.

(** ** The batch accumulator (lines 226-292) *)

(** The contents of the [Set] object the field [addedElementsGroup] refers to. *)
Definition groupContents (s : DocumentObserver) : gset positive :=
  default ∅ (setHeap s !! addedElementsGroup s).

(** [new Set(contents)] *)
Definition newSet (contents : gset positive) (s : DocumentObserver) : positive * DocumentObserver :=
  let r := nextSetRef s in
  (r, set_nextSetRef (Pos.succ r) (set_setHeap (<[r := contents]> (setHeap s)) s)).

(** Lines 286-292. *)
Definition clearAllTimeouts (s : DocumentObserver) : DocumentObserver :=
  let s := clearTimeout (lastAddedElementsGroupAbsoluteTimeout s) s in
  let s := clearTimeout (lastAddedElementsGroupSlidingTimeout s) s in
  let s := set_lastAddedElementsGroupSlidingTimeout None s in
  set_lastAddedElementsGroupAbsoluteTimeout None s.

(** Lines 275-284.  The listeners receive the object the field refers to,
    and that very object is emptied afterwards. *)
Definition releaseAddedElementsGroup (title : ReleaseTitle) (s : DocumentObserver) : DocumentObserver :=
  let s := clearAllTimeouts s in
  if bool_decide (size (groupContents s) ≠ 0%nat) then
    let s := raise (ElementsAdded (addedElementsGroup s) (groupContents s)) s in
    set_setHeap (<[addedElementsGroup s := ∅]> (setHeap s)) s
  else s.

(** Lines 248-256, the body of the [forEach].  The write to
    [style.visibility] changes the element's [style] attribute: where an
    observer watches that attribute of the element, the platform queues a
    record for it, which is the action [Queue] below. *)
Definition hideElement (tag : positive) (els : gmap positive ElementData) : gmap positive ElementData :=
  let d := getElement els tag in
  if isHTMLOrSVGElement d && negb (hasMlIgnoreClass d) then
    let original := if decide (visibility d = ""%string) then "none"%string else visibility d in
    <[tag := with_visibility "hidden" (Some original) d]> els
  else els.

Definition hideElements (addedElements : gset positive) (s : DocumentObserver) : DocumentObserver :=
  set_elementData (set_fold hideElement (elementData s) addedElements) s.

(** [Date.now() - this._rootDocument.mlTimestamp! > 3000]; the comparison
    with an undefined time stamp is false. *)
Definition processingForLong (s : DocumentObserver) : bool :=
  match rootTimestamp s with
  | Some t0 => 3000 <? clock s - t0
  | None => false
  end.

(** Lines 232-273. *)
Definition groupAddedElements (addedElements : gset positive) (s : DocumentObserver) : DocumentObserver :=
  let s := clearTimeout (lastAddedElementsGroupSlidingTimeout s) s in
  let '(r, s) := newSet (groupContents s ∪ addedElements) s in
  let s := set_addedElementsGroup r s in
  if bool_decide (addedElementsGroupMinimumSize < size (groupContents s))%nat then
    releaseAddedElementsGroup (TitleSelf (size addedElements)) s
  else
    let s := if processingForLong s then hideElements addedElements s else s in
    let '(sliding, s) :=
      setTimeout (ReleaseTask TitleSliding) addedElementsGroupSlidingTimeoutMS s in
    let s := set_lastAddedElementsGroupSlidingTimeout (Some sliding) s in
    if negb (truthy (lastAddedElementsGroupAbsoluteTimeout s)) then
      let '(absolute, s) :=
        setTimeout (ReleaseTask TitleAbsolute) addedElementsGroupAbsoluteTimeoutMS s in
      set_lastAddedElementsGroupAbsoluteTimeout (Some absolute) s
    else s.

(** ** Classification of the records of the body observer (lines 155-224) *)

(** The three local sets of [bodyObserverCallback], and the element
    properties as the loop has left them so far. *)
Record Changes := mkChanges {
  classChanges : gset positive;
  childListChanges : gset positive;
  styleChanges : gset positive;
  touched : gmap positive ElementData
}.

(** Lines 166-171: a record arriving less than [mutationThrottleTime] after
    the element's time stamp counts as throttled. *)
Definition collides (now : Z) (d : ElementData) : bool :=
  match mlTimestamp d with
  | Some ts => negb (ts =? 0) && (now - ts <? mutationThrottleTime)
  | None => false
  end.

(** The count is a JavaScript number: adding one to it is exact while the
    sum stays within [Number.MAX_SAFE_INTEGER] on either side of zero,
    which is where the count is taken to be. *)
Definition countThrottled (now : Z) (d : ElementData) : ElementData :=
  if collides now d then
    with_mlMutationThrottledCount (Some (orZero (mlMutationThrottledCount d) + 1)) d
  else d.

(** Lines 172-174. *)
Definition belowLimit (d : ElementData) : bool :=
  negb (truthy (mlMutationThrottledCount d))
  || (orZero (mlMutationThrottledCount d) <? maxMutationsCount).

Definition eligible (d : ElementData) : bool :=
  isChecked d || isHTMLBodyElement d.

(** Lines 163-206, the body of [mutations.forEach]. *)
Definition onMutation (complex : bool) (now : Z) (acc : Changes) (mutation : MutationRecord) : Changes :=
  match type mutation with
  | attributes =>
      let d := countThrottled now (getElement (touched acc) (target mutation)) in
      let els :=
        if collides now (getElement (touched acc) (target mutation))
        then <[target mutation := d]> (touched acc) else touched acc in
      if belowLimit d && eligible d then
        match attributeName mutation with
        | Some a =>
            if decide (a = "class"%string) then
              mkChanges ({[target mutation]} ∪ classChanges acc)
                (childListChanges acc) (styleChanges acc) els
            else if decide (a = "style" ∨ a = "fill" ∨ a = "stroke")%string then
              if complex then
                mkChanges (classChanges acc) (childListChanges acc)
                  ({[target mutation]} ∪ styleChanges acc) els
              else mkChanges (classChanges acc) (childListChanges acc) (styleChanges acc) els
            else mkChanges (classChanges acc) (childListChanges acc) (styleChanges acc) els
        | None => mkChanges (classChanges acc) (childListChanges acc) (styleChanges acc) els
        end
      else mkChanges (classChanges acc) (childListChanges acc) (styleChanges acc) els
  | childList =>
      mkChanges (classChanges acc)
        (foldl (λ added node,
                  match node with
                  | ElementNode e => {[e]} ∪ added
                  | OtherNode => added
                  end) (childListChanges acc) (addedNodes mutation))
        (styleChanges acc) (touched acc)
  | characterData => acc
  end.

(** Lines 155-224.  [observer] is the key of the body observer the callback
    was bound to. *)
Definition bodyObserverCallback (mutations : list MutationRecord) (observer : positive)
    (s : DocumentObserver) : DocumentObserver :=
  let now := clock s in
  let c := foldl (onMutation (isComplex s) now) (mkChanges ∅ ∅ ∅ (elementData s)) mutations in
  let s := set_elementData (touched c) s in
  let s := if bool_decide (0 < size (styleChanges c))%nat
           then raise (StyleChanged (styleChanges c)) s else s in
  let s := if bool_decide (0 < size (childListChanges c))%nat
           then groupAddedElements (childListChanges c) s else s in
  let s := if bool_decide (0 < size (classChanges c))%nat
           then raise (ClassChanged (classChanges c)) s else s in
  if negb (isActive s) then
    set_bodyObservers (alter disconnect observer (_bodyObservers s)) s
  else s.

(** Lines 294-303.  The style sheet processor is a collaborator; the call is
    recorded in the trace with the target whose document is reprocessed. *)
Definition isNewStyleElement (els : gmap positive ElementData) (x : Node) : bool :=
  match x with
  | ElementNode e => isHTMLStyleElement (getElement els e) && negb (mlIgnore (getElement els e))
  | OtherNode => false
  end.

Definition headObserverCallback (mutations : list MutationRecord) (observer : positive)
    (s : DocumentObserver) : DocumentObserver :=
  match List.find (λ m, existsb (isNewStyleElement (elementData s)) (addedNodes m)) mutations with
  | Some mutation => raise (StyleSheetsProcessed (target mutation)) s
  | None => s
  end.

(** Lines 305-308.  [mutations[0].target] on an empty array is a
    [TypeError]: no state comes back. *)
Definition updateObserverCallback (mutations : list MutationRecord) (observer : positive)
    (s : DocumentObserver) : option DocumentObserver :=
  match mutations !! 0%nat with
  | Some first => Some (raise (UpdateChanged (target first)) s)
  | None => None
  end.

(** ** The observation life cycle (lines 73-153) *)

(** Lines 81-90.  [observe(null, ...)] is a [TypeError]: in a document
    without a root element the call ends at line 89, after line 86 has put
    a new observer into the table.  The exception goes to the caller; the
    result is the state the call leaves behind in either case. *)
Definition startDocumentUpdateObservation (doc : Document) (s : DocumentObserver) : DocumentObserver :=
  let updateObserver := default newMutationObserver (_updateObservers s !! docId doc) in
  match documentElement doc with
  | Some root =>
      set_updateObservers
        (<[docId doc := observe root _updateObserverConfig updateObserver]>
           (_updateObservers s)) s
  | None =>
      set_updateObservers (<[docId doc := updateObserver]> (_updateObservers s)) s
  end.

(** Lines 92-99. *)
Definition stopDocumentUpdateObservation (doc : Document) (s : DocumentObserver) : DocumentObserver :=
  match _updateObservers s !! docId doc with
  | Some updateObserver =>
      set_updateObservers (<[docId doc := disconnect updateObserver]> (_updateObservers s)) s
  | None => s
  end.

(** Lines 101-124.  In a document without a body [observe(null, ...)] is
    a [TypeError]: the call ends at line 110, after line 108 has put a new
    observer into the table and before line 112 gives it a state.  The
    exception goes to the caller; the result is the state the call leaves
    behind in either case. *)
Definition startDocumentObservation (doc : Document) (resumeState : option ObservationState)
    (s : DocumentObserver) : DocumentObserver :=
  if decide (resumeState = Some Stopped) then s
  else
    let bodyObserver := default newMutationObserver (_bodyObservers s !! docId doc) in
    match body doc with
    | Some docBody =>
        let bodyObserver :=
          observe docBody
            (if isComplex s then _bodyObserverConfig else _simpleBodyObserverConfig)
            bodyObserver in
        let bodyObserver := with_state Active bodyObserver in
        let s := set_bodyObservers (<[docId doc := bodyObserver]> (_bodyObservers s)) s in
        match head doc with
        | Some docHead =>
            if isComplex s then
              let headObserver := default newMutationObserver (_headObservers s !! docId doc) in
              set_headObservers
                (<[docId doc := observe docHead _headObserverConfig headObserver]>
                   (_headObservers s)) s
            else s
        | None => s
        end
    | None =>
        set_bodyObservers (<[docId doc := bodyObserver]> (_bodyObservers s)) s
    end.

(** Lines 126-153.  The result is [originalState] ([None] is [undefined])
    and the state the call leaves behind. *)
Definition stopDocumentObservation (doc : Document) (s : DocumentObserver)
    : option ObservationState * DocumentObserver :=
  let '(originalState, s) :=
    match _bodyObservers s !! docId doc with
    | Some bodyObserver =>
        let '(mutations, bodyObserver) := takeRecords bodyObserver in
        let originalState := state bodyObserver in
        let bodyObserver := with_state Stopped (disconnect bodyObserver) in
        let s := set_bodyObservers (<[docId doc := bodyObserver]> (_bodyObservers s)) s in
        (originalState, snd (setTimeout (BodyDrain (docId doc) mutations) 1 s))
    | None => (None, s)
    end in
  let s :=
    match head doc with
    | Some _ =>
        match _headObservers s !! docId doc with
        | Some headObserver =>
            let '(mutations, headObserver) := takeRecords headObserver in
            let headObserver := with_state Stopped (disconnect headObserver) in
            let s := set_headObservers (<[docId doc := headObserver]> (_headObservers s)) s in
            if isComplex s then snd (setTimeout (HeadDrain (docId doc) mutations) 1 s)
            else s
        | None => s
        end
    | None => s
    end in
  (originalState, s).

(** Lines 73-79, the listener the constructor registers on
    [onSettingsChanged]. *)
Definition beforeSettingsChanged (s : DocumentObserver) : DocumentObserver :=
  if negb (isActive s) then snd (stopDocumentObservation (_rootDocument s) s) else s.

(** ** The platform: timers firing, records queued and delivered *)

Definition runTask (k : Task) (s : DocumentObserver) : DocumentObserver :=
  match k with
  | ReleaseTask title => releaseAddedElementsGroup title s
  | BodyDrain doc mutations => bodyObserverCallback mutations doc s
  | HeadDrain doc mutations => headObserverCallback mutations doc s
  end.

(** The timer behind a handle fires: it leaves the queue and its task runs.
    A handle that was cleared in the meantime has no timer any more, and
    nothing happens. *)
Definition fire (s : DocumentObserver) (id : Z) : DocumentObserver :=
  match list_find (λ t, timerId t = id) (timers s) with
  | Some (_, t) =>
      runTask (task t) (set_timers (filter (λ t', timerId t' ≠ id) (timers s)) s)
  | None => s
  end.

(** One millisecond passes on a platform that is on time: the timers that
    have become due fire, in the order in which they were set. *)
Definition tick (s : DocumentObserver) : DocumentObserver :=
  let s := set_clock (clock s + 1) s in
  foldl fire s (timerId <$> filter (λ t, due t ≤ clock s) (timers s)).

(** One millisecond passes while the platform is busy: no timer runs,
    whether due or not.  The delay given to [setTimeout] is a minimum. *)
Definition delay (s : DocumentObserver) : DocumentObserver :=
  set_clock (clock s + 1) s.

(** The platform comes to a pending timer: it runs it if it is due, in any
    order among the timers that are. *)
Definition runTimer (id : Z) (s : DocumentObserver) : DocumentObserver :=
  match list_find (λ t, timerId t = id) (timers s) with
  | Some (_, t) => if bool_decide (due t ≤ clock s) then fire s id else s
  | None => s
  end.

Inductive WatcherKind := UpdateWatcher | BodyWatcher | HeadWatcher.

#[global] Instance WatcherKind_eq_dec : EqDecision WatcherKind.
Proof. solve_decision. Defined.

Definition observersOf (k : WatcherKind) (s : DocumentObserver) : gmap positive MutationObserver :=
  match k with
  | UpdateWatcher => _updateObservers s
  | BodyWatcher => _bodyObservers s
  | HeadWatcher => _headObservers s
  end.

Definition set_observersOf (k : WatcherKind) (m : gmap positive MutationObserver)
    (s : DocumentObserver) : DocumentObserver :=
  match k with
  | UpdateWatcher => set_updateObservers m s
  | BodyWatcher => set_bodyObservers m s
  | HeadWatcher => set_headObservers m s
  end.

(** Whether a registration on [node] with [options] lets a record through.
    Without [subtree] the record must be for [node] itself.  With [subtree]
    it must be for [node] or a descendant of it; the tree is not part of the
    state, and every target is taken to be one. *)
Definition admits (node : positive) (options : MutationObserverInit) (m : MutationRecord) : bool :=
  (subtree options || bool_decide (target m = node)) &&
  match type m with
  | attributes =>
      observeAttributes options &&
      match attributeName m with
      | Some a => bool_decide (a ∈ attributeFilter options)
      | None => false
      end
  | childList => observeChildList options
  | characterData => false
  end.

Definition interested (o : MutationObserver) (m : MutationRecord) : bool :=
  bool_decide (map_Exists (λ node options, admits node options m = true) (observed o)).

(** The platform queues a record for an observer that is registered for it. *)
Definition queueRecord (k : WatcherKind) (doc : positive) (m : MutationRecord)
    (s : DocumentObserver) : DocumentObserver :=
  match observersOf k s !! doc with
  | Some o =>
      if interested o m then
        set_observersOf k
          (<[doc := {| observed := observed o; records := records o ++ [m];
                       state := state o |}]> (observersOf k s)) s
      else s
  | None => s
  end.

(** The platform delivers the queue of an observer to its callback; an
    empty queue is never delivered. *)
Definition notify (k : WatcherKind) (doc : positive) (s : DocumentObserver) : DocumentObserver :=
  match observersOf k s !! doc with
  | Some o =>
      match records o with
      | [] => s
      | mutations =>
          let s := set_observersOf k (<[doc := snd (takeRecords o)]> (observersOf k s)) s in
          match k with
          | UpdateWatcher => default s (updateObserverCallback mutations doc s)
          | BodyWatcher => bodyObserverCallback mutations doc s
          | HeadWatcher => headObserverCallback mutations doc s
          end
      end
  | None => s
  end.

(** What can happen to an observer. *)
Inductive Action :=
| StartUpdate (doc : Document)
| StopUpdate (doc : Document)
| Start (doc : Document) (resumeState : option ObservationState)
| Stop (doc : Document)
| SettingsChanged (active complex : bool)
| Queue (k : WatcherKind) (doc : positive) (m : MutationRecord)
| Notify (k : WatcherKind) (doc : positive)
| Tick                                          (* a millisecond passes, timers on time *)
| Delay                                         (* a millisecond passes, the platform is busy *)
| RunTimer (id : Z)                             (* the platform gets to a timer that is due *)
| Touch (e : positive) (d : ElementData)       (* other components write element properties *)
| TouchRoot (ts : option Z).

Definition step (s : DocumentObserver) (a : Action) : DocumentObserver :=
  match a with
  | StartUpdate doc => startDocumentUpdateObservation doc s
  | StopUpdate doc => stopDocumentUpdateObservation doc s
  | Start doc resumeState => startDocumentObservation doc resumeState s
  | Stop doc => snd (stopDocumentObservation doc s)
  | SettingsChanged active complex =>
      beforeSettingsChanged (set_isComplex complex (set_isActive active s))
  | Queue k doc m => queueRecord k doc m s
  | Notify k doc => notify k doc s
  | Tick => tick s
  | Delay => delay s
  | RunTimer id => runTimer id s
  | Touch e d => set_elementData (<[e := d]> (elementData s)) s
  | TouchRoot ts => set_rootTimestamp ts s
  end.

Definition run (s : DocumentObserver) (actions : list Action) : DocumentObserver :=
  foldl step s actions.

(** A freshly constructed observer, at time [t0]. *)
Definition newDocumentObserver (root : Document) (active complex : bool) (t0 : Z) : DocumentObserver :=
  {| _rootDocument := root; rootTimestamp := None;
     isActive := active; isComplex := complex;
     _bodyObservers := ∅; _headObservers := ∅; _updateObservers := ∅;
     elementData := ∅;
     setHeap := {[1%positive := ∅]}; nextSetRef := 2%positive;
     addedElementsGroup := 1%positive;
     lastAddedElementsGroupSlidingTimeout := None;
     lastAddedElementsGroupAbsoluteTimeout := None;
     clock := t0; nextTimerId := 1; timers := []; log := [] |}.

(** ** Well-formed states

    What holds of an observer between two method calls.  It is established
    by the constructor and kept by every action (see [wf_step]). *)

(** The timer queue and the two handles of the accumulator. *)
Record wfTimers (s : DocumentObserver) : Prop := mkWfTimers {
  wf_nextTimerId : 0 < nextTimerId s;
  wf_timerIds : ∀ t, t ∈ timers s → 0 < timerId t < nextTimerId s;
  wf_NoDup : NoDup (timerId <$> timers s);
  (* a pending release timer is the one its handle names *)
  wf_release : ∀ t title, t ∈ timers s → task t = ReleaseTask title →
    (title = TitleSliding ∧ lastAddedElementsGroupSlidingTimeout s = Some (timerId t)) ∨
    (title = TitleAbsolute ∧ lastAddedElementsGroupAbsoluteTimeout s = Some (timerId t));
  (* a handle names a pending timer *)
  wf_sliding : ∀ id, lastAddedElementsGroupSlidingTimeout s = Some id →
    ∃ t, t ∈ timers s ∧ timerId t = id ∧ task t = ReleaseTask TitleSliding;
  wf_absolute : ∀ id, lastAddedElementsGroupAbsoluteTimeout s = Some id →
    ∃ t, t ∈ timers s ∧ timerId t = id ∧ task t = ReleaseTask TitleAbsolute;
  (* the group is open exactly while the absolute timer is armed *)
  wf_open : groupContents s = ∅ ↔ lastAddedElementsGroupAbsoluteTimeout s = None
}.

(** What [releaseAddedElementsGroup] needs: the handles may dangle, as the
    timer that is firing has already left the queue. *)
Record wfRelease (s : DocumentObserver) : Prop := mkWfRelease {
  wr_nextTimerId : 0 < nextTimerId s;
  wr_timerIds : ∀ t, t ∈ timers s → 0 < timerId t < nextTimerId s;
  wr_NoDup : NoDup (timerId <$> timers s);
  wr_release : ∀ t title, t ∈ timers s → task t = ReleaseTask title →
    (title = TitleSliding ∧ lastAddedElementsGroupSlidingTimeout s = Some (timerId t)) ∨
    (title = TitleAbsolute ∧ lastAddedElementsGroupAbsoluteTimeout s = Some (timerId t))
}.

(** The [Set] objects. *)
Record wfHeap (s : DocumentObserver) : Prop := mkWfHeap {
  wf_group : (addedElementsGroup s < nextSetRef s)%positive;
  wf_allocated : ∀ r, is_Some (setHeap s !! r) → (r < nextSetRef s)%positive
}.

(** The three tables of platform observers. *)
Record wfObservers (s : DocumentObserver) : Prop := mkWfObservers {
  (* a head observer is only ever created after the body observer *)
  wf_head : ∀ doc, is_Some (_headObservers s !! doc) → is_Some (_bodyObservers s !! doc);
  (* a disconnected observer has an empty queue *)
  wf_queue : ∀ k doc o, observersOf k s !! doc = Some o → observed o = ∅ → records o = [];
  (* a stopped body observer is disconnected *)
  wf_stopped : ∀ doc o, _bodyObservers s !! doc = Some o → state o = Some Stopped →
    observed o = ∅
}.

Definition wf (s : DocumentObserver) : Prop :=
  wfTimers s ∧ wfHeap s ∧ wfObservers s.

(** Two states that differ at most in what the accumulator and the event
    loop own. *)
Definition sameSurroundings (s s' : DocumentObserver) : Prop :=
  _rootDocument s' = _rootDocument s ∧ rootTimestamp s' = rootTimestamp s ∧
  isActive s' = isActive s ∧ isComplex s' = isComplex s ∧
  _bodyObservers s' = _bodyObservers s ∧ _headObservers s' = _headObservers s ∧
  _updateObservers s' = _updateObservers s ∧ clock s' = clock s.

(** ** Traces *)

(** The three sets a callback computes from its records (the loop of
    lines 161-207). *)
Definition classified (mutations : list MutationRecord) (s : DocumentObserver) : Changes :=
  foldl (onMutation (isComplex s) (clock s)) (mkChanges ∅ ∅ ∅ (elementData s)) mutations.

(** The entries an execution added to the trace. *)
Definition published (s s' : DocumentObserver) : list (Z * Event) :=
  drop (length (log s)) (log s').

(** [s'] keeps the state invariant [I], and the entries added to the trace
    on the way from [s] all satisfy [P]. *)
Definition extends (I : DocumentObserver → Prop) (P : Z * Event → Prop)
    (s s' : DocumentObserver) : Prop :=
  I s' ∧ ∃ new, log s' = log s ++ new ∧ Forall P new.

(** The actions under which a state invariant is expected to hold: all of
    the observer's own, and those writes of other components to element
    properties that keep it. *)
Definition respects (I : DocumentObserver → Prop) (a : Action) : Prop :=
  match a with
  | Touch e d => ∀ s, I s → I (set_elementData (<[e := d]> (elementData s)) s)
  | _ => True
  end.

(** The group that held [G] is still open in [s]: its absolute timer, set
    to go off at [D], is pending under the handle [id], and nothing was
    taken out of the group.  [n] is where the trace stood at the start. *)
Definition stillOpen (G : gset positive) (D : Z) (id : Z) (n : nat)
    (s : DocumentObserver) : Prop :=
  wfTimers s
  ∧ lastAddedElementsGroupAbsoluteTimeout s = Some id
  ∧ (∃ t, t ∈ timers s ∧ timerId t = id ∧ due t = D)
  ∧ G ⊆ groupContents s
  ∧ (n ≤ length (log s))%nat.

(** A set holding all of [G] was published, after entry [n] of the trace
    and not later than [D]. *)
Definition flushedBy (G : gset positive) (D : Z) (n : nat)
    (s : DocumentObserver) : Prop :=
  ∃ i t r X, (n ≤ i)%nat ∧ log s !! i = Some (t, ElementsAdded r X) ∧ t ≤ D ∧ G ⊆ X.

(** The set an event carries on one of the three set-valued channels. *)
Definition carriedSet (ev : Event) : option (gset positive) :=
  match ev with
  | ClassChanged els | StyleChanged els | ElementsAdded _ els => Some els
  | UpdateChanged _ | StyleSheetsProcessed _ => None
  end.

Definition isReleaseTimer (t : Timer) : Prop :=
  ∃ title, task t = ReleaseTask title.

(** Both handles are cleared and no release is pending. *)
Definition noReleasePending (s : DocumentObserver) : Prop :=
  lastAddedElementsGroupSlidingTimeout s = None
  ∧ lastAddedElementsGroupAbsoluteTimeout s = None
  ∧ ∀ t, t ∈ timers s → ¬ isReleaseTimer t.

(** The milliseconds an action takes. *)
Definition elapses (a : Action) : Z :=
  match a with
  | Tick | Delay => 1
  | _ => 0
  end.

(** The current throttle count of an element. *)
Definition throttledCount (s : DocumentObserver) (e : positive) : Z :=
  orZero (mlMutationThrottledCount (getElement (elementData s) e)).

(** Whether an attribute record reaches the [switch] on its attribute name
    (the condition of lines 172-174, after the counting of lines 166-171). *)
Definition passes (now : Z) (d : ElementData) : bool :=
  belowLimit (countThrottled now d) && eligible (countThrottled now d).

(** The elements among the nodes a record reports as added; a record that
    is not a child list record reports none. *)
Definition nodeElement (x : Node) : option positive :=
  match x with
  | ElementNode e => Some e
  | OtherNode => None
  end.

Definition addedElementsOf (m : MutationRecord) : list positive :=
  match type m with
  | childList => omap nodeElement (addedNodes m)
  | _ => []
  end.

(** The attribute records of a batch that are for the element [e]. *)
Definition attributeRecordsFor (e : positive) (mutations : list MutationRecord)
    : list MutationRecord :=
  filter (λ m, type m = attributes ∧ target m = e) mutations.

(** An element as lines 250-255 leave it. *)
Definition hidden (d : ElementData) : ElementData :=
  if isHTMLOrSVGElement d && negb (hasMlIgnoreClass d) then
    with_visibility "hidden"
      (Some (if decide (visibility d = ""%string) then "none"%string else visibility d)) d
  else d.

(** The states an observer can be in: what a run of actions makes of a
    freshly constructed one. *)
Definition reachable (s : DocumentObserver) : Prop :=
  ∃ root active complex t0 actions,
    s = run (newDocumentObserver root active complex t0) actions.

(** The bound on how far ahead a task is scheduled. *)
Definition horizon (k : Task) : Z :=
  match k with
  | ReleaseTask TitleSliding => addedElementsGroupSlidingTimeoutMS
  | ReleaseTask _ => addedElementsGroupAbsoluteTimeoutMS
  | BodyDrain _ _ | HeadDrain _ _ => 1
  end.

(** No pending timer is due further ahead than the delay it was set with:
    a sliding release [addedElementsGroupSlidingTimeoutMS], an absolute
    release [addedElementsGroupAbsoluteTimeoutMS], a drain one millisecond.
    A timer may be overdue: the platform runs it when it gets to it. *)
Definition scheduledWithin (s : DocumentObserver) : Prop :=
  ∀ t, t ∈ timers s → due t ≤ clock s + horizon (task t).

(** From [s] to [s'] the clock stood still and every timer that is new is
    due in the future, within its horizon. *)
Definition schedulesAhead (s s' : DocumentObserver) : Prop :=
  clock s' = clock s
  ∧ ∀ t, t ∈ timers s' →
      t ∈ timers s ∨ (clock s < due t ∧ due t ≤ clock s + horizon (task t)).

(** A body observer without a state is one that a start has put into the
    table and then failed to connect, the document having no body: it
    observes nothing. *)
Definition inertWithoutState (s : DocumentObserver) : Prop :=
  ∀ doc o, _bodyObservers s !! doc = Some o → state o = None → observed o = ∅.

(** ** Sample data *)

Definition sampleDocument : Document :=
  {| docId := 1; documentElement := Some 10%positive; body := Some 11%positive;
     head := Some 12%positive |}.

Definition sampleObserver : DocumentObserver :=
  newDocumentObserver sampleDocument true true 1000.

(** An attribute record and a child list record. *)
Definition attributeRecord (tgt : positive) (name : string) : MutationRecord :=
  {| type := attributes; target := tgt; attributeName := Some name; addedNodes := [] |}.

Definition childListRecord (tgt : positive) (nodes : list Node) : MutationRecord :=
  {| type := childList; target := tgt; attributeName := None; addedNodes := nodes |}.

(** An element that upstream bookkeeping has marked and stamped at [ts],
    with throttle count [count]. *)
Definition trackedElement (ts : Z) (count : option Z) : ElementData :=
  {| mlTimestamp := Some ts; mlMutationThrottledCount := count; isChecked := true;
     isHTMLBodyElement := false; isHTMLOrSVGElement := true;
     hasMlIgnoreClass := false; isHTMLStyleElement := false; mlIgnore := false;
     visibility := ""; originalVisibility := None |}.

(** The sample document while it is loading: the body is not there yet. *)
Definition sampleDocumentLoading : Document :=
  {| docId := 1; documentElement := Some 10%positive; body := None; head := None |}.

(** The sample document after its root element was replaced. *)
Definition sampleDocumentReplaced : Document :=
  {| docId := 1; documentElement := Some 20%positive; body := Some 11%positive;
     head := Some 12%positive |}.

(** One more element is added to the sample body, 20 ms later. *)
Definition anotherElement (e : positive) : list Action :=
  replicate 20 Tick
  ++ [Queue BodyWatcher 1 (childListRecord 11 [ElementNode e]); Notify BodyWatcher 1].

(** Four more elements, one every 20 ms, so that the sliding timer is set
    anew before it ever runs; then the time up to the 100th millisecond,
    with the platform on time, and with the platform busy in the 100th
    millisecond. *)
Definition steadyAdds : list Action :=
  anotherElement 2 ++ anotherElement 3 ++ anotherElement 4 ++ anotherElement 5.

Definition steadyAddsOnTime : list Action := steadyAdds ++ replicate 20 Tick.

Definition steadyAddsLate : list Action := steadyAdds ++ replicate 19 Tick ++ [Delay; Tick].

(** Fifty-one distinct elements. *)
Definition fiftyOne : gset positive := list_to_set (Pos.of_nat <$> seq 1 51).

(** * Properties *)
(** ** The event loop and the accumulator, field by field *)

Lemma elem_of_timers_clearTimeout handle s t :
  t ∈ timers (clearTimeout handle s) ↔ t ∈ timers s ∧ Some (timerId t) ≠ handle.
Proof.
  destruct handle as [id|]; simpl.
  - rewrite list_elem_of_filter. split; intros [? ?]; split; congruence.
  - split; [intros ?; split; [done | congruence] | tauto].
Qed.

Lemma timers_clearAllTimeouts s t :
  t ∈ timers (clearAllTimeouts s) ↔
  t ∈ timers s ∧ Some (timerId t) ≠ lastAddedElementsGroupSlidingTimeout s
             ∧ Some (timerId t) ≠ lastAddedElementsGroupAbsoluteTimeout s.
Proof.
  unfold clearAllTimeouts, clearTimeout. simpl.
  destruct (lastAddedElementsGroupSlidingTimeout s), (lastAddedElementsGroupAbsoluteTimeout s);
    rewrite ?list_elem_of_filter; intuition congruence.
Qed.

Lemma releaseAddedElementsGroup_log title s :
  log (releaseAddedElementsGroup title s) =
  log s ++ (if bool_decide (size (groupContents s) ≠ 0%nat)
            then [(clock s, ElementsAdded (addedElementsGroup s) (groupContents s))]
            else []).
Proof.
  unfold releaseAddedElementsGroup, clearAllTimeouts, groupContents. simpl.
  case_bool_decide; simpl; by rewrite ?app_nil_r.
Qed.

Lemma releaseAddedElementsGroup_groupContents title s :
  groupContents (releaseAddedElementsGroup title s) = ∅.
Proof.
  unfold releaseAddedElementsGroup, clearAllTimeouts, groupContents. simpl.
  case_bool_decide as Hsize; simpl.
  - by rewrite lookup_insert_eq.
  - by apply size_empty_inv, leibniz_equiv in Hsize.
Qed.

Lemma releaseAddedElementsGroup_handles title s :
  lastAddedElementsGroupSlidingTimeout (releaseAddedElementsGroup title s) = None ∧
  lastAddedElementsGroupAbsoluteTimeout (releaseAddedElementsGroup title s) = None.
Proof. unfold releaseAddedElementsGroup. by case_bool_decide. Qed.

Lemma releaseAddedElementsGroup_timers title s :
  timers (releaseAddedElementsGroup title s) = timers (clearAllTimeouts s).
Proof. unfold releaseAddedElementsGroup. by case_bool_decide. Qed.

Lemma releaseAddedElementsGroup_addedElementsGroup title s :
  addedElementsGroup (releaseAddedElementsGroup title s) = addedElementsGroup s.
Proof. unfold releaseAddedElementsGroup. by case_bool_decide. Qed.

(** No release timer survives a release. *)
Lemma releaseAddedElementsGroup_cancels title s t :
  wfTimers s → t ∈ timers (releaseAddedElementsGroup title s) → ¬ isReleaseTimer t.
Proof.
  intros Hwf Ht [title' Htask].
  rewrite releaseAddedElementsGroup_timers in Ht.
  apply timers_clearAllTimeouts in Ht as (Ht & Hs & Ha).
  destruct (wf_release s Hwf t title' Ht Htask) as [[_ ?]|[_ ?]]; congruence.
Qed.

(** Claim C1: when the merged group is larger than
    [addedElementsGroupMinimumSize] (50), [groupAddedElements] flushes in the
    same call: [ElementsAdded] is raised with exactly the merged set, the
    group is left empty, both handles are cleared, no timer is added and the
    timers the handles named are gone; in a well-formed state no release
    timer is left at all. *)
Theorem groupAddedElements_flushes_large_group (addedElements : gset positive) (s : DocumentObserver) :
  (addedElementsGroupMinimumSize < size (groupContents s ∪ addedElements))%nat →
  let s' := groupAddedElements addedElements s in
  log s' = log s ++ [(clock s, ElementsAdded (addedElementsGroup s')
                                 (groupContents s ∪ addedElements))]
  ∧ groupContents s' = ∅
  ∧ lastAddedElementsGroupSlidingTimeout s' = None
  ∧ lastAddedElementsGroupAbsoluteTimeout s' = None
  ∧ (∀ t, t ∈ timers s' →
       t ∈ timers s
       ∧ Some (timerId t) ≠ lastAddedElementsGroupSlidingTimeout s
       ∧ Some (timerId t) ≠ lastAddedElementsGroupAbsoluteTimeout s)
  ∧ (wfTimers s → ∀ t, t ∈ timers s' → ¬ isReleaseTimer t).
Proof.
  intros Hsize s'. subst s'. unfold groupAddedElements, newSet. simpl.
  set (s1 := set_addedElementsGroup _ _).
  assert (Hc : groupContents s1 = groupContents s ∪ addedElements).
  { unfold groupContents at 1. subst s1. simpl. by rewrite lookup_insert_eq. }
  rewrite Hc, bool_decide_eq_true_2 by done.
  rewrite releaseAddedElementsGroup_log, Hc, bool_decide_eq_true_2 by (unfold addedElementsGroupMinimumSize in *; lia).
  split_and!.
  - by rewrite releaseAddedElementsGroup_addedElementsGroup.
  - apply releaseAddedElementsGroup_groupContents.
  - apply releaseAddedElementsGroup_handles.
  - apply releaseAddedElementsGroup_handles.
  - intros t. rewrite releaseAddedElementsGroup_timers, timers_clearAllTimeouts.
    subst s1. simpl. destruct (lastAddedElementsGroupSlidingTimeout s); 
      rewrite ?list_elem_of_filter; intuition congruence.
  - intros Hwf t. rewrite releaseAddedElementsGroup_timers, timers_clearAllTimeouts.
    subst s1; simpl. intros (Ht & _ & Ha) [title Htask].
    assert (Ht' : t ∈ timers s ∧ Some (timerId t) ≠ lastAddedElementsGroupSlidingTimeout s).
    { destruct (lastAddedElementsGroupSlidingTimeout s);
        rewrite ?list_elem_of_filter in Ht; intuition congruence. }
    destruct Ht' as [Ht' Hs].
    destruct (wf_release s Hwf t title Ht' Htask) as [[_ ?]|[_ ?]]; congruence.
Qed.

(** ** Well-formedness is kept: timers *)

Lemma wfTimers_wfRelease s : wfTimers s → wfRelease s.
Proof. intros []. by constructor. Qed.

Lemma NoDup_fmap_filter {A B} (f : A → B) (P : A → Prop) `{∀ x, Decision (P x)} (l : list A) :
  NoDup (f <$> l) → NoDup (f <$> filter P l).
Proof.
  induction l as [|x l IH]; [done|].
  rewrite fmap_cons, NoDup_cons. intros [Hx Hl].
  rewrite filter_cons. case_decide; [|by auto].
  rewrite fmap_cons, NoDup_cons. split; [|by auto].
  intros Hin. apply Hx. apply list_elem_of_fmap in Hin as (y & -> & Hy).
  apply list_elem_of_filter in Hy as [_ Hy]. apply list_elem_of_fmap. eauto.
Qed.

Lemma wfTimers_releaseAddedElementsGroup title s :
  wfRelease s → wfTimers (releaseAddedElementsGroup title s).
Proof.
  intros Hwf.
  assert (Hsub : ∀ t, t ∈ timers (releaseAddedElementsGroup title s) → t ∈ timers s).
  { intros t. rewrite releaseAddedElementsGroup_timers, timers_clearAllTimeouts. tauto. }
  destruct (releaseAddedElementsGroup_handles title s) as [Hs Ha].
  constructor.
  - unfold releaseAddedElementsGroup. case_bool_decide; simpl; apply Hwf.
  - intros t Ht. apply Hsub in Ht.
    unfold releaseAddedElementsGroup. case_bool_decide; simpl; by apply Hwf.
  - rewrite releaseAddedElementsGroup_timers. unfold clearAllTimeouts, clearTimeout. simpl.
    destruct (lastAddedElementsGroupSlidingTimeout s), (lastAddedElementsGroupAbsoluteTimeout s);
      repeat apply NoDup_fmap_filter; apply Hwf.
  - intros t title' Ht Htask. exfalso.
    rewrite releaseAddedElementsGroup_timers in Ht.
    apply timers_clearAllTimeouts in Ht as (Ht & ? & ?).
    destruct (wr_release s Hwf t title' Ht Htask) as [[_ ?]|[_ ?]]; congruence.
  - intros id. by rewrite Hs.
  - intros id. by rewrite Ha.
  - by rewrite Ha, releaseAddedElementsGroup_groupContents.
Qed.

Lemma hideElements_fields X s :
  hideElements X s = set_elementData (elementData (hideElements X s)) s.
Proof. done. Qed.

(** The two handles never name the same timer. *)
Lemma wfTimers_handles_differ s a b :
  wfTimers s →
  lastAddedElementsGroupSlidingTimeout s = Some a →
  lastAddedElementsGroupAbsoluteTimeout s = Some b → a ≠ b.
Proof.
  intros Hwf Ha Hb ->.
  destruct (wf_sliding s Hwf _ Ha) as (t1 & Ht1 & Hid1 & Hk1).
  destruct (wf_absolute s Hwf _ Hb) as (t2 & Ht2 & Hid2 & Hk2).
  assert (t1 = t2); [|congruence].
  apply list_elem_of_lookup in Ht1 as [i Hi], Ht2 as [j Hj].
  assert (i = j); [|congruence].
  eapply NoDup_lookup; [apply (wf_NoDup s Hwf)| |];
    rewrite list_lookup_fmap; [by rewrite Hi | rewrite Hj; simpl; congruence].
Qed.

Lemma wfTimers_groupAddedElements addedElements s :
  addedElements ≠ ∅ → wfTimers s → wfTimers (groupAddedElements addedElements s).
Proof.
  intros Hne Hwf. unfold groupAddedElements, newSet. simpl.
  set (s1 := set_addedElementsGroup _ _).
  assert (Hc : groupContents s1 = groupContents s ∪ addedElements).
  { unfold groupContents at 1. subst s1. simpl. by rewrite lookup_insert_eq. }
  assert (Ht1 : ∀ t, t ∈ timers s1 ↔
            t ∈ timers s ∧ Some (timerId t) ≠ lastAddedElementsGroupSlidingTimeout s).
  { intros t. apply (elem_of_timers_clearTimeout _ s). }
  assert (Hnd1 : NoDup (timerId <$> timers s1)).
  { subst s1. simpl. destruct (lastAddedElementsGroupSlidingTimeout s);
      [apply NoDup_fmap_filter|]; apply Hwf. }
  case_bool_decide as Hsize.
  { apply wfTimers_releaseAddedElementsGroup. constructor; try done.
    - apply Hwf.
    - intros t Ht. apply Ht1 in Ht as [Ht _]. by apply (wf_timerIds s Hwf).
    - intros t title Ht Htask. apply Ht1 in Ht as [Ht _].
      by apply (wf_release s Hwf). }
  set (s2 := if processingForLong s1 then _ else _).
  assert (Hs2 : s2 = set_elementData (elementData s2) s1).
  { subst s2. by destruct (processingForLong s1). }
  clearbody s2. rewrite Hs2. simpl.
  set (n := nextTimerId s).
  assert (Hn : 0 < n) by apply Hwf.
  assert (Hold : ∀ t, t ∈ timers s1 → 0 < timerId t < n).
  { intros t Ht. apply Ht1 in Ht as [Ht _]. by apply (wf_timerIds s Hwf). }
  destruct (lastAddedElementsGroupAbsoluteTimeout s) as [a|] eqn:Ha; simpl.
  - (* the group is open: the absolute timer stays as it is *)
    destruct (wf_absolute s Hwf a Ha) as (ta & Hta & Hida & Hka).
    assert (0 < a < n) as Han by (rewrite <- Hida; by apply (wf_timerIds s Hwf)).
    replace (a =? 0) with false by lia. simpl.
    constructor; simpl; rewrite ?Ha.
    + lia.
    + intros t [Ht| ->%list_elem_of_singleton]%elem_of_app; simpl; [|lia].
      apply Hold in Ht. lia.
    + rewrite fmap_app, NoDup_app. split_and!; [done| |apply NoDup_singleton].
      intros x Hx ->%list_elem_of_singleton.
      apply list_elem_of_fmap in Hx as (t & Ht & Hin). apply Hold in Hin. simpl in Ht. lia.
    + intros t title [Ht| ->%list_elem_of_singleton]%elem_of_app Htask; simpl in *.
      * apply Ht1 in Ht as [Ht Hsl].
        destruct (wf_release s Hwf t title Ht Htask) as [[_ ?]|[? ?]]; [congruence|].
        right. split; [done|congruence].
      * left. split; [congruence|done].
    + intros id [= <-]. eexists. split; [apply elem_of_app; right; by apply list_elem_of_singleton|done].
    + intros id [= <-]. exists ta. split_and!; [|done..].
      apply elem_of_app. left. apply Ht1. split; [done|].
      rewrite Hida. intros Heq. symmetry in Heq.
      by eapply (wfTimers_handles_differ s a a).
    + split; [|done]. unfold groupContents. simpl. rewrite lookup_insert_eq. simpl.
      intros Hempty. exfalso. apply Hne. set_solver.
  - (* a fresh group: both timers are armed *)
    constructor; simpl; rewrite ?Ha.
    + lia.
    + intros t [[Ht| ->%list_elem_of_singleton]%elem_of_app| ->%list_elem_of_singleton]%elem_of_app;
        simpl; [|lia..].
      apply Hold in Ht. lia.
    + rewrite !fmap_app, <- app_assoc, NoDup_app. split_and!; [done| |].
      * intros x Hx Hx'. apply list_elem_of_fmap in Hx as (t & Ht & Hin).
        apply Hold in Hin. simpl in Hx'. set_solver by lia.
      * simpl. apply NoDup_cons. split; [set_solver by lia|apply NoDup_singleton].
    + intros t title [[Ht| ->%list_elem_of_singleton]%elem_of_app| ->%list_elem_of_singleton]%elem_of_app
        Htask; simpl in *.
      * apply Ht1 in Ht as [Ht Hsl].
        destruct (wf_release s Hwf t title Ht Htask) as [[_ ?]|[_ ?]]; congruence.
      * left. split; [congruence|done].
      * right. split; [congruence|done].
    + intros id [= <-]. eexists.
      split; [apply elem_of_app; left; apply elem_of_app; right;
              by apply list_elem_of_singleton|done].
    + intros id [= <-]. eexists.
      split; [apply elem_of_app; right; by apply list_elem_of_singleton|done].
    + split; [|done]. unfold groupContents. simpl. rewrite lookup_insert_eq. simpl.
      intros Hempty. exfalso. apply Hne. set_solver.
Qed.

(** [wfTimers] only reads the timer queue, the handles and the group. *)
Lemma wfTimers_frame s s' :
  timers s' = timers s → nextTimerId s' = nextTimerId s →
  lastAddedElementsGroupSlidingTimeout s' = lastAddedElementsGroupSlidingTimeout s →
  lastAddedElementsGroupAbsoluteTimeout s' = lastAddedElementsGroupAbsoluteTimeout s →
  groupContents s' = groupContents s →
  wfTimers s → wfTimers s'.
Proof.
  intros Ht Hn Hs Ha Hg [].
  constructor; rewrite ?Ht, ?Hn, ?Hs, ?Ha, ?Hg; done.
Qed.

Lemma wfTimers_bodyObserverCallback mutations observer s :
  wfTimers s → wfTimers (bodyObserverCallback mutations observer s).
Proof.
  intros Hwf. unfold bodyObserverCallback.
  set (c := foldl _ _ _). clearbody c.
  set (s1 := if bool_decide (0 < size (styleChanges c))%nat then _ else _).
  assert (Hwf1 : wfTimers s1).
  { subst s1. case_bool_decide; by apply (wfTimers_frame s). }
  clearbody s1.
  set (s2 := if bool_decide (0 < size (childListChanges c))%nat then _ else _).
  assert (Hwf2 : wfTimers s2).
  { subst s2. case_bool_decide as Hsize; [|done].
    apply wfTimers_groupAddedElements; [|done].
    intros Hempty. rewrite Hempty, size_empty in Hsize. lia. }
  clearbody s2.
  set (s3 := if bool_decide (0 < size (classChanges c))%nat then _ else _).
  assert (Hwf3 : wfTimers s3).
  { subst s3. case_bool_decide; [|done]. by apply (wfTimers_frame s2). }
  clearbody s3.
  destruct (isActive s3); simpl; [done|]. by apply (wfTimers_frame s3).
Qed.

Lemma wfTimers_headObserverCallback mutations observer s :
  wfTimers s → wfTimers (headObserverCallback mutations observer s).
Proof.
  intros Hwf. unfold headObserverCallback.
  destruct (find _ _); [|done]. by apply (wfTimers_frame s).
Qed.

(** Scheduling a task that is not a release. *)
Lemma wfTimers_setTimeout k delay s :
  (∀ title, k ≠ ReleaseTask title) →
  wfTimers s → wfTimers (setTimeout k delay s).2.
Proof.
  intros Hk Hwf. pose proof (wf_nextTimerId s Hwf) as Hn.
  pose proof (wf_timerIds s Hwf) as Hids.
  constructor; simpl.
  - lia.
  - intros t [Ht| ->%list_elem_of_singleton]%elem_of_app; simpl; [|lia].
    apply Hids in Ht. lia.
  - rewrite fmap_app, NoDup_app. split_and!; [apply Hwf| |apply NoDup_singleton].
    intros x Hx ->%list_elem_of_singleton.
    apply list_elem_of_fmap in Hx as (t & Ht & Hin). apply Hids in Hin. simpl in Ht. lia.
  - intros t title [Ht| ->%list_elem_of_singleton]%elem_of_app Htask; simpl in *.
    + by apply (wf_release s Hwf).
    + by destruct (Hk title).
  - intros id Hid. destruct (wf_sliding s Hwf id Hid) as (t & ? & ? & ?).
    exists t. split; [apply elem_of_app; by left|done].
  - intros id Hid. destruct (wf_absolute s Hwf id Hid) as (t & ? & ? & ?).
    exists t. split; [apply elem_of_app; by left|done].
  - apply (wf_open s Hwf).
Qed.

Lemma list_find_timer id (l : list Timer) i t :
  list_find (λ t, timerId t = id) l = Some (i, t) → t ∈ l ∧ timerId t = id.
Proof.
  intros (Hi & Hid & _)%list_find_Some. split; [|done].
  apply list_elem_of_lookup. eauto.
Qed.

Lemma NoDup_timerId_inj (l : list Timer) t t' :
  NoDup (timerId <$> l) → t ∈ l → t' ∈ l → timerId t = timerId t' → t = t'.
Proof.
  intros Hnd [i Hi]%list_elem_of_lookup [j Hj]%list_elem_of_lookup Heq.
  assert (i = j); [|congruence].
  eapply NoDup_lookup; [apply Hnd| |];
    rewrite list_lookup_fmap; [by rewrite Hi | rewrite Hj; simpl; congruence].
Qed.

Lemma wfTimers_fire s id :
  wfTimers s → wfTimers (fire s id).
Proof.
  intros Hwf. unfold fire.
  destruct (list_find _ _) as [[i t]|] eqn:Hfind; [|done].
  apply list_find_timer in Hfind as [Ht Hid].
  set (s1 := set_timers _ s).
  assert (Hsub : ∀ t', t' ∈ timers s1 ↔ t' ∈ timers s ∧ timerId t' ≠ id).
  { intros t'. subst s1. simpl. by rewrite list_elem_of_filter, (comm and). }
  assert (Hpre : wfRelease s1).
  { constructor.
    - apply Hwf.
    - intros t' [Ht' _]%Hsub. by apply (wf_timerIds s Hwf).
    - subst s1. simpl. apply NoDup_fmap_filter, Hwf.
    - intros t' title [Ht' _]%Hsub Htask. by apply (wf_release s Hwf). }
  destruct (task t) as [title|doc ms|doc ms] eqn:Htask; simpl.
  { by apply wfTimers_releaseAddedElementsGroup. }
  all: assert (Hwf1 : wfTimers s1);
    [|by first [apply wfTimers_bodyObserverCallback | apply wfTimers_headObserverCallback]].
  all: destruct Hpre; constructor; try done.
  all: try (intros h Hh;
    first [destruct (wf_sliding s Hwf h Hh) as (t' & Ht' & Hid' & Htask')
          |destruct (wf_absolute s Hwf h Hh) as (t' & Ht' & Hid' & Htask')];
    exists t'; split; [|done]; apply Hsub; split; [done|];
    intros Heq; assert (t' = t) by (eapply NoDup_timerId_inj; [apply Hwf|done..|congruence]);
    congruence).
  all: apply (wf_open s Hwf).
Qed.

Lemma wfTimers_tick s : wfTimers s → wfTimers (tick s).
Proof.
  intros Hwf. unfold tick.
  set (s1 := set_clock _ s).
  assert (Hwf1 : wfTimers s1) by by apply (wfTimers_frame s).
  generalize (timerId <$> filter (λ t, due t ≤ clock s1) (timers s1)).
  clearbody s1. clear Hwf. intros ids. revert s1 Hwf1.
  induction ids as [|id ids IH]; intros s1 Hwf1; simpl; [done|].
  by apply IH, wfTimers_fire.
Qed.

Lemma wfTimers_stopDocumentObservation doc s :
  wfTimers s → wfTimers (stopDocumentObservation doc s).2.
Proof.
  intros Hwf. unfold stopDocumentObservation.
  set (p := match _bodyObservers s !! docId doc with Some _ => _ | None => _ end).
  assert (Hwf1 : wfTimers p.2).
  { subst p. destruct (_bodyObservers s !! docId doc) as [o|]; [|done]. simpl.
    apply (wfTimers_setTimeout (BodyDrain _ _) 1 (set_bodyObservers _ s)); [done|].
    by apply (wfTimers_frame s). }
  destruct p as [r s1]. simpl in *.
  destruct (head doc); [|done].
  destruct (_headObservers s1 !! docId doc) as [o|]; [|done]. simpl.
  destruct (isComplex s1).
  - apply (wfTimers_setTimeout (HeadDrain _ _) 1 (set_headObservers _ s1)); [done|].
    by apply (wfTimers_frame s1).
  - by apply (wfTimers_frame s1).
Qed.

Lemma wfTimers_notify k doc s : wfTimers s → wfTimers (notify k doc s).
Proof.
  intros Hwf. unfold notify.
  destruct (observersOf k s !! doc) as [o|]; [|done].
  destruct (records o) as [|m ms]; [done|].
  set (s1 := set_observersOf _ _ _).
  assert (Hwf1 : wfTimers s1) by (subst s1; destruct k; by apply (wfTimers_frame s)).
  clearbody s1. destruct k.
  - unfold updateObserverCallback. simpl. by apply (wfTimers_frame s1).
  - by apply wfTimers_bodyObserverCallback.
  - by apply wfTimers_headObserverCallback.
Qed.

Lemma wfTimers_runTimer id s : wfTimers s → wfTimers (runTimer id s).
Proof.
  intros Hwf. unfold runTimer.
  destruct (list_find _ _) as [[i t]|]; [|done].
  destruct (bool_decide _); [|done]. by apply wfTimers_fire.
Qed.

Lemma wfTimers_step s a : wfTimers s → wfTimers (step s a).
Proof.
  intros Hwf. destruct a; simpl.
  - unfold startDocumentUpdateObservation.
    destruct (documentElement doc); by apply (wfTimers_frame s).
  - unfold stopDocumentUpdateObservation.
    destruct (_updateObservers s !! docId doc); [|done]. by apply (wfTimers_frame s).
  - unfold startDocumentObservation. case_decide; [done|].
    destruct (body doc); [|by apply (wfTimers_frame s)].
    destruct (head doc); simpl; [destruct (isComplex s)|]; by apply (wfTimers_frame s).
  - by apply wfTimers_stopDocumentObservation.
  - unfold beforeSettingsChanged. simpl.
    destruct active; simpl; [by apply (wfTimers_frame s)|].
    apply wfTimers_stopDocumentObservation. by apply (wfTimers_frame s).
  - unfold queueRecord. destruct (observersOf k s !! doc) as [o|]; [|done].
    destruct (interested o m); [|done]. destruct k; by apply (wfTimers_frame s).
  - by apply wfTimers_notify.
  - by apply wfTimers_tick.
  - by apply (wfTimers_frame s).
  - by apply wfTimers_runTimer.
  - by apply (wfTimers_frame s).
  - by apply (wfTimers_frame s).
Qed.

(** ** Well-formedness is kept: the heap of sets *)

Lemma wfHeap_frame s s' :
  setHeap s' = setHeap s → nextSetRef s' = nextSetRef s →
  addedElementsGroup s' = addedElementsGroup s →
  wfHeap s → wfHeap s'.
Proof. intros Hh Hn Hg []. constructor; rewrite ?Hh, ?Hn, ?Hg; done. Qed.

Lemma wfHeap_releaseAddedElementsGroup title s :
  wfHeap s → wfHeap (releaseAddedElementsGroup title s).
Proof.
  intros Hwf. unfold releaseAddedElementsGroup.
  case_bool_decide; [|by apply (wfHeap_frame s)].
  constructor; simpl; [apply Hwf|].
  intros r. rewrite lookup_insert. case_decide as Hr.
  - intros _. rewrite <- Hr. apply Hwf.
  - apply Hwf.
Qed.

Lemma wfHeap_groupAddedElements addedElements s :
  wfHeap s → wfHeap (groupAddedElements addedElements s).
Proof.
  intros Hwf. unfold groupAddedElements, newSet. simpl.
  set (s1 := set_addedElementsGroup _ _).
  assert (Hwf1 : wfHeap s1).
  { constructor; simpl; [lia|].
    intros r. rewrite lookup_insert. case_decide as Hr; [lia|].
    intros Hsome%(wf_allocated s Hwf). lia. }
  clearbody s1. case_bool_decide.
  { by apply wfHeap_releaseAddedElementsGroup. }
  set (s2 := if processingForLong s1 then _ else _).
  assert (Hwf2 : wfHeap s2).
  { subst s2. destruct (processingForLong s1); [|done]. by apply (wfHeap_frame s1). }
  clearbody s2. simpl.
  destruct (negb _); by apply (wfHeap_frame s2).
Qed.

Lemma wfHeap_bodyObserverCallback mutations observer s :
  wfHeap s → wfHeap (bodyObserverCallback mutations observer s).
Proof.
  intros Hwf. unfold bodyObserverCallback.
  set (c := foldl _ _ _). clearbody c.
  set (s1 := if bool_decide (0 < size (styleChanges c))%nat then _ else _).
  assert (Hwf1 : wfHeap s1).
  { subst s1. case_bool_decide; by apply (wfHeap_frame s). }
  clearbody s1.
  set (s2 := if bool_decide (0 < size (childListChanges c))%nat then _ else _).
  assert (Hwf2 : wfHeap s2).
  { subst s2. case_bool_decide; [|done]. by apply wfHeap_groupAddedElements. }
  clearbody s2.
  set (s3 := if bool_decide (0 < size (classChanges c))%nat then _ else _).
  assert (Hwf3 : wfHeap s3).
  { subst s3. case_bool_decide; [|done]. by apply (wfHeap_frame s2). }
  clearbody s3.
  destruct (isActive s3); simpl; [done|]. by apply (wfHeap_frame s3).
Qed.

Lemma wfHeap_headObserverCallback mutations observer s :
  wfHeap s → wfHeap (headObserverCallback mutations observer s).
Proof.
  intros Hwf. unfold headObserverCallback.
  destruct (find _ _); [|done]. by apply (wfHeap_frame s).
Qed.

Lemma wfHeap_fire s id : wfHeap s → wfHeap (fire s id).
Proof.
  intros Hwf. unfold fire.
  destruct (list_find _ _) as [[i t]|]; [|done].
  set (s1 := set_timers _ s).
  assert (Hwf1 : wfHeap s1) by by apply (wfHeap_frame s).
  clearbody s1. destruct (task t); simpl.
  - by apply wfHeap_releaseAddedElementsGroup.
  - by apply wfHeap_bodyObserverCallback.
  - by apply wfHeap_headObserverCallback.
Qed.

Lemma wfHeap_tick s : wfHeap s → wfHeap (tick s).
Proof.
  intros Hwf. unfold tick.
  set (s1 := set_clock _ s).
  assert (Hwf1 : wfHeap s1) by by apply (wfHeap_frame s).
  generalize (timerId <$> filter (λ t, due t ≤ clock s1) (timers s1)).
  clearbody s1. clear Hwf. intros ids. revert s1 Hwf1.
  induction ids as [|id ids IH]; intros s1 Hwf1; simpl; [done|].
  by apply IH, wfHeap_fire.
Qed.

(** The life cycle methods do not touch the sets. *)
Lemma stopDocumentObservation_heap doc s :
  let s' := (stopDocumentObservation doc s).2 in
  setHeap s' = setHeap s ∧ nextSetRef s' = nextSetRef s ∧
  addedElementsGroup s' = addedElementsGroup s ∧
  lastAddedElementsGroupSlidingTimeout s' = lastAddedElementsGroupSlidingTimeout s ∧
  lastAddedElementsGroupAbsoluteTimeout s' = lastAddedElementsGroupAbsoluteTimeout s ∧
  log s' = log s ∧ elementData s' = elementData s ∧ clock s' = clock s.
Proof.
  unfold stopDocumentObservation.
  destruct (_bodyObservers s !! docId doc) as [o|]; simpl;
    (destruct (head doc); [|done]); simpl.
  all: destruct (_headObservers s !! docId doc); [|done]; simpl.
  all: by destruct (isComplex s).
Qed.

Lemma wfHeap_stopDocumentObservation doc s :
  wfHeap s → wfHeap (stopDocumentObservation doc s).2.
Proof.
  intros Hwf. destruct (stopDocumentObservation_heap doc s) as (? & ? & ? & _).
  by apply (wfHeap_frame s).
Qed.

Lemma wfHeap_notify k doc s : wfHeap s → wfHeap (notify k doc s).
Proof.
  intros Hwf. unfold notify.
  destruct (observersOf k s !! doc) as [o|]; [|done].
  destruct (records o) as [|m ms]; [done|].
  set (s1 := set_observersOf _ _ _).
  assert (Hwf1 : wfHeap s1) by (subst s1; destruct k; by apply (wfHeap_frame s)).
  clearbody s1. destruct k.
  - unfold updateObserverCallback. simpl. by apply (wfHeap_frame s1).
  - by apply wfHeap_bodyObserverCallback.
  - by apply wfHeap_headObserverCallback.
Qed.

Lemma wfHeap_runTimer id s : wfHeap s → wfHeap (runTimer id s).
Proof.
  intros Hwf. unfold runTimer.
  destruct (list_find _ _) as [[i t]|]; [|done].
  destruct (bool_decide _); [|done]. by apply wfHeap_fire.
Qed.

Lemma wfHeap_step s a : wfHeap s → wfHeap (step s a).
Proof.
  intros Hwf. destruct a; simpl.
  - unfold startDocumentUpdateObservation.
    destruct (documentElement doc); by apply (wfHeap_frame s).
  - unfold stopDocumentUpdateObservation.
    destruct (_updateObservers s !! docId doc); [|done]. by apply (wfHeap_frame s).
  - unfold startDocumentObservation. case_decide; [done|].
    destruct (body doc); [|by apply (wfHeap_frame s)].
    destruct (head doc); simpl; [destruct (isComplex s)|]; by apply (wfHeap_frame s).
  - by apply wfHeap_stopDocumentObservation.
  - unfold beforeSettingsChanged. simpl.
    destruct active; simpl; [by apply (wfHeap_frame s)|].
    apply wfHeap_stopDocumentObservation. by apply (wfHeap_frame s).
  - unfold queueRecord. destruct (observersOf k s !! doc) as [o|]; [|done].
    destruct (interested o m); [|done]. destruct k; by apply (wfHeap_frame s).
  - by apply wfHeap_notify.
  - by apply wfHeap_tick.
  - by apply (wfHeap_frame s).
  - by apply wfHeap_runTimer.
  - by apply (wfHeap_frame s).
  - by apply (wfHeap_frame s).
Qed.

(** ** What the accumulator leaves alone *)

Lemma sameSurroundings_refl s : sameSurroundings s s.
Proof. by repeat split. Qed.

Lemma sameSurroundings_trans s1 s2 s3 :
  sameSurroundings s1 s2 → sameSurroundings s2 s3 → sameSurroundings s1 s3.
Proof.
  unfold sameSurroundings. intros (?&?&?&?&?&?&?&?) (?&?&?&?&?&?&?&?).
  repeat split; congruence.
Qed.

Lemma releaseAddedElementsGroup_surroundings title s :
  sameSurroundings s (releaseAddedElementsGroup title s).
Proof. unfold releaseAddedElementsGroup. case_bool_decide; by repeat split. Qed.

Lemma releaseAddedElementsGroup_elementData title s :
  elementData (releaseAddedElementsGroup title s) = elementData s.
Proof. unfold releaseAddedElementsGroup. by case_bool_decide. Qed.

Lemma groupAddedElements_surroundings addedElements s :
  sameSurroundings s (groupAddedElements addedElements s).
Proof.
  unfold groupAddedElements, newSet. simpl.
  set (s1 := set_addedElementsGroup _ _).
  assert (H1 : sameSurroundings s s1) by by repeat split.
  clearbody s1. case_bool_decide.
  { eapply sameSurroundings_trans; [done|apply releaseAddedElementsGroup_surroundings]. }
  eapply sameSurroundings_trans; [done|].
  destruct (processingForLong s1), (negb _); by repeat split.
Qed.

(** ** Well-formedness is kept: the observer tables *)

Lemma wfObservers_frame s s' :
  _bodyObservers s' = _bodyObservers s → _headObservers s' = _headObservers s →
  _updateObservers s' = _updateObservers s →
  wfObservers s → wfObservers s'.
Proof.
  intros Hb Hh Hu [H1 H2 H3]. constructor.
  - intros doc. rewrite Hb, Hh. apply H1.
  - intros k doc o. specialize (H2 k doc o).
    destruct k; simpl in *; rewrite ?Hb, ?Hh, ?Hu; done.
  - intros doc o. rewrite Hb. apply H3.
Qed.

Lemma wfObservers_surroundings s s' :
  sameSurroundings s s' → wfObservers s → wfObservers s'.
Proof. intros (?&?&?&?&?&?&?&?). by apply wfObservers_frame. Qed.

Lemma observersOf_set k k' m s :
  observersOf k (set_observersOf k' m s) = if decide (k = k') then m else observersOf k s.
Proof. by destruct k, k'. Qed.

Lemma wfObservers_insert k doc o' s :
  wfObservers s →
  (observed o' = ∅ → records o' = []) →
  (k = BodyWatcher → state o' = Some Stopped → observed o' = ∅) →
  (k = HeadWatcher → is_Some (_bodyObservers s !! doc)) →
  wfObservers (set_observersOf k (<[doc := o']> (observersOf k s)) s).
Proof.
  intros [H1 H2 H3] Hq Hs Hh. constructor.
  - intros d. specialize (H1 d). destruct k; simpl; try done.
    + rewrite lookup_insert. case_decide; [by eauto|done].
    + rewrite lookup_insert. case_decide; [subst; intros _; by apply Hh|done].
  - intros k' d o. rewrite observersOf_set. case_decide as Hk; [subst k'|by apply H2].
    rewrite lookup_insert. case_decide; [by intros [= <-]|by apply H2].
  - intros d o. destruct k; simpl; try by apply H3.
    rewrite lookup_insert. case_decide; [intros [= <-]; by apply Hs|by apply H3].
Qed.

Lemma wfObservers_disconnect_body observer s :
  wfObservers s →
  wfObservers (set_bodyObservers (alter disconnect observer (_bodyObservers s)) s).
Proof.
  intros Hwf. destruct (_bodyObservers s !! observer) as [o|] eqn:Ho.
  - replace (alter disconnect observer (_bodyObservers s))
      with (<[observer := disconnect o]> (_bodyObservers s)).
    + by apply (wfObservers_insert BodyWatcher).
    + apply map_eq. intros d. rewrite lookup_insert, lookup_alter.
      case_decide; [subst; by rewrite Ho|done].
  - replace (alter disconnect observer (_bodyObservers s)) with (_bodyObservers s).
    + by apply (wfObservers_frame s).
    + apply map_eq. intros d. rewrite lookup_alter.
      case_decide; [subst; by rewrite Ho|done].
Qed.

Lemma bodyObserverCallback_surroundings mutations observer s :
  let s' := bodyObserverCallback mutations observer s in
  _rootDocument s' = _rootDocument s ∧ rootTimestamp s' = rootTimestamp s ∧
  isActive s' = isActive s ∧ isComplex s' = isComplex s ∧
  _bodyObservers s' = (if isActive s then _bodyObservers s
                       else alter disconnect observer (_bodyObservers s)) ∧
  _headObservers s' = _headObservers s ∧
  _updateObservers s' = _updateObservers s ∧ clock s' = clock s.
Proof.
  unfold bodyObserverCallback.
  set (c := foldl _ _ _). clearbody c.
  set (s1 := if bool_decide (0 < size (styleChanges c))%nat then _ else _).
  assert (H1 : sameSurroundings s s1).
  { subst s1. case_bool_decide; by repeat split. }
  clearbody s1.
  set (s2 := if bool_decide (0 < size (childListChanges c))%nat then _ else _).
  assert (H2 : sameSurroundings s s2).
  { subst s2. case_bool_decide; [|done].
    eapply sameSurroundings_trans; [done|apply groupAddedElements_surroundings]. }
  clearbody s2.
  set (s3 := if bool_decide (0 < size (classChanges c))%nat then _ else _).
  assert (H3 : sameSurroundings s s3).
  { subst s3. case_bool_decide; [|done].
    eapply sameSurroundings_trans; [done|by repeat split]. }
  clearbody s3. destruct H3 as (?&?&Ha&?&Hb&?&?&?).
  rewrite Ha. destruct (isActive s); simpl; [done|]. by rewrite Hb.
Qed.

Lemma wfObservers_bodyObserverCallback mutations observer s :
  wfObservers s → wfObservers (bodyObserverCallback mutations observer s).
Proof.
  intros Hwf.
  destruct (bodyObserverCallback_surroundings mutations observer s)
    as (_&_&_&_&Hb&Hh&Hu&_).
  destruct (isActive s).
  - by apply (wfObservers_frame s).
  - apply (wfObservers_frame (set_bodyObservers
             (alter disconnect observer (_bodyObservers s)) s)); try done.
    by apply wfObservers_disconnect_body.
Qed.

Lemma headObserverCallback_surroundings mutations observer s :
  sameSurroundings s (headObserverCallback mutations observer s).
Proof. unfold headObserverCallback. destruct (find _ _); by repeat split. Qed.

Lemma wfObservers_fire s id : wfObservers s → wfObservers (fire s id).
Proof.
  intros Hwf. unfold fire.
  destruct (list_find _ _) as [[i t]|]; [|done].
  set (s1 := set_timers _ s).
  assert (Hwf1 : wfObservers s1) by by apply (wfObservers_frame s).
  clearbody s1. destruct (task t); simpl.
  - eapply wfObservers_surroundings; [apply releaseAddedElementsGroup_surroundings|done].
  - by apply wfObservers_bodyObserverCallback.
  - eapply wfObservers_surroundings; [apply headObserverCallback_surroundings|done].
Qed.

Lemma wfObservers_tick s : wfObservers s → wfObservers (tick s).
Proof.
  intros Hwf. unfold tick.
  set (s1 := set_clock _ s).
  assert (Hwf1 : wfObservers s1) by by apply (wfObservers_frame s).
  generalize (timerId <$> filter (λ t, due t ≤ clock s1) (timers s1)).
  clearbody s1. clear Hwf. intros ids. revert s1 Hwf1.
  induction ids as [|id ids IH]; intros s1 Hwf1; simpl; [done|].
  by apply IH, wfObservers_fire.
Qed.

Lemma wfObservers_stopDocumentObservation doc s :
  wfObservers s → wfObservers (stopDocumentObservation doc s).2.
Proof.
  intros Hwf. unfold stopDocumentObservation.
  set (p := match _bodyObservers s !! docId doc with Some _ => _ | None => _ end).
  assert (Hwf1 : wfObservers p.2).
  { subst p. destruct (_bodyObservers s !! docId doc) as [o|]; [|done]. simpl.
    apply (wfObservers_frame (set_bodyObservers
             (<[docId doc := with_state Stopped (disconnect (takeRecords o).2)]>
                (_bodyObservers s)) s)); try done.
    by apply (wfObservers_insert BodyWatcher). }
  destruct p as [r s1]. simpl in *.
  destruct (head doc); [|done].
  destruct (_headObservers s1 !! docId doc) as [o|] eqn:Ho; [|done]. simpl.
  assert (Hwf2 : wfObservers (set_headObservers
             (<[docId doc := with_state Stopped (disconnect (takeRecords o).2)]>
                (_headObservers s1)) s1)).
  { apply (wfObservers_insert HeadWatcher); try done.
    intros _. apply (wf_head s1 Hwf1). by rewrite Ho. }
  destruct (isComplex s1); [|done].
  eapply wfObservers_frame; [| | |apply Hwf2]; done.
Qed.

Lemma map_Exists_empty_false {A} (P : positive → A → Prop) : ¬ map_Exists P (∅ : gmap positive A).
Proof. intros (i & x & Hix & _). by rewrite lookup_empty in Hix. Qed.

Lemma interested_connected o m : interested o m = true → observed o ≠ ∅.
Proof.
  unfold interested. intros H%bool_decide_eq_true Hempty.
  rewrite Hempty in H. by apply map_Exists_empty_false in H.
Qed.

Lemma wfObservers_queueRecord k doc m s :
  wfObservers s → wfObservers (queueRecord k doc m s).
Proof.
  intros Hwf. unfold queueRecord.
  destruct (observersOf k s !! doc) as [o|] eqn:Ho; [|done].
  destruct (interested o m) eqn:Hi; [|done].
  apply interested_connected in Hi.
  apply wfObservers_insert; simpl; try done.
  - intros -> Hst. by apply (wf_stopped s Hwf doc o).
  - intros ->. apply (wf_head s Hwf). simpl in Ho. by rewrite Ho.
Qed.

Lemma wfObservers_notify k doc s : wfObservers s → wfObservers (notify k doc s).
Proof.
  intros Hwf. unfold notify.
  destruct (observersOf k s !! doc) as [o|] eqn:Ho; [|done].
  destruct (records o) as [|m ms] eqn:Hr; [done|].
  assert (Hwf1 : wfObservers
            (set_observersOf k (<[doc := (takeRecords o).2]> (observersOf k s)) s)).
  { apply wfObservers_insert; simpl; try done.
    - intros -> Hst. by apply (wf_stopped s Hwf doc o).
    - intros ->. apply (wf_head s Hwf). simpl in Ho. by rewrite Ho. }
  set (s1 := set_observersOf _ _ _) in *.
  clearbody s1. destruct k.
  - unfold updateObserverCallback. simpl. by apply (wfObservers_frame s1).
  - by apply wfObservers_bodyObserverCallback.
  - eapply wfObservers_surroundings; [apply headObserverCallback_surroundings|done].
Qed.

(** Putting back the observer a table already holds, or a new one where
    it holds none. *)
Lemma wfObservers_insert_default k doc s :
  wfObservers s →
  (k = HeadWatcher → is_Some (_bodyObservers s !! doc)) →
  wfObservers (set_observersOf k
                 (<[doc := default newMutationObserver (observersOf k s !! doc)]>
                    (observersOf k s)) s).
Proof.
  intros Hwf Hh. apply wfObservers_insert; try done.
  - destruct (observersOf k s !! doc) as [o|] eqn:Ho; simpl; [|done].
    by apply (wf_queue s Hwf k doc).
  - intros ->. simpl. destruct (_bodyObservers s !! doc) as [o|] eqn:Ho; simpl; [|done].
    by apply (wf_stopped s Hwf doc).
Qed.

Lemma wfObservers_startDocumentObservation doc resumeState s :
  wfObservers s → wfObservers (startDocumentObservation doc resumeState s).
Proof.
  intros Hwf. unfold startDocumentObservation. case_decide; [done|].
  destruct (body doc) as [docBody|].
  2: { by apply (wfObservers_insert_default BodyWatcher). }
  set (o := with_state Active _).
  set (s1 := set_bodyObservers _ s).
  assert (Hne : ∀ tgt cfg (x : MutationObserver), observed (observe tgt cfg x) ≠ ∅).
  { intros tgt cfg x. simpl. apply insert_non_empty. }
  assert (Hwf1 : wfObservers s1).
  { apply (wfObservers_insert BodyWatcher); subst o; simpl; try done.
    intros He. by apply insert_non_empty in He. }
  destruct (head doc); [|done]. simpl.
  destruct (isComplex s); [|done].
  apply (wfObservers_insert HeadWatcher (docId doc) _ s1); simpl; try done.
  - intros He. by apply insert_non_empty in He.
  - intros _. by rewrite lookup_insert_eq.
Qed.

Lemma wfObservers_runTimer id s : wfObservers s → wfObservers (runTimer id s).
Proof.
  intros Hwf. unfold runTimer.
  destruct (list_find _ _) as [[i t]|]; [|done].
  destruct (bool_decide _); [|done]. by apply wfObservers_fire.
Qed.

Lemma wfObservers_step s a : wfObservers s → wfObservers (step s a).
Proof.
  intros Hwf. destruct a; simpl.
  - unfold startDocumentUpdateObservation. destruct (documentElement doc).
    + apply (wfObservers_insert UpdateWatcher); simpl; try done.
      intros He. by apply insert_non_empty in He.
    + by apply (wfObservers_insert_default UpdateWatcher).
  - unfold stopDocumentUpdateObservation.
    destruct (_updateObservers s !! docId doc); [|done].
    by apply (wfObservers_insert UpdateWatcher).
  - by apply wfObservers_startDocumentObservation.
  - by apply wfObservers_stopDocumentObservation.
  - unfold beforeSettingsChanged. simpl.
    destruct active; simpl; [by apply (wfObservers_frame s)|].
    apply wfObservers_stopDocumentObservation. by apply (wfObservers_frame s).
  - by apply wfObservers_queueRecord.
  - by apply wfObservers_notify.
  - by apply wfObservers_tick.
  - by apply (wfObservers_frame s).
  - by apply wfObservers_runTimer.
  - by apply (wfObservers_frame s).
  - by apply (wfObservers_frame s).
Qed.

(** ** Every reachable state is well formed *)

Lemma wf_newDocumentObserver root active complex t0 :
  wf (newDocumentObserver root active complex t0).
Proof.
  split_and!; constructor; simpl; try done.
  - intros t Ht. by apply elem_of_nil in Ht.
  - apply NoDup_nil_2.
  - intros t title Ht. by apply elem_of_nil in Ht.
  - intros r [X Hr]. apply lookup_singleton_Some in Hr as [<- _]. lia.
  - intros k doc o. destruct k; simpl; by rewrite lookup_empty.
Qed.

Lemma wf_step s a : wf s → wf (step s a).
Proof.
  intros (?&?&?). split_and!;
    [by apply wfTimers_step|by apply wfHeap_step|by apply wfObservers_step].
Qed.

Lemma wf_run s actions : wf s → wf (run s actions).
Proof.
  revert s. induction actions as [|a actions IH]; intros s Hwf; [done|].
  simpl. by apply IH, wf_step.
Qed.

(** ** Stopping *)

(** A callback that is given no records publishes nothing and leaves the
    accumulator, the timers and the elements alone. *)
Lemma bodyObserverCallback_nil observer s :
  bodyObserverCallback [] observer s =
  if isActive s then set_elementData (elementData s) s
  else set_bodyObservers (alter disconnect observer (_bodyObservers s)) s.
Proof.
  unfold bodyObserverCallback.
  cbn [foldl styleChanges classChanges childListChanges touched].
  rewrite !bool_decide_eq_false_2 by (rewrite size_empty; lia).
  simpl. by destruct (isActive s).
Qed.

Lemma headObserverCallback_log mutations observer s :
  ∃ new, log (headObserverCallback mutations observer s) = log s ++ new ∧
         Forall (λ e, ∃ x, e.2 = StyleSheetsProcessed x) new.
Proof.
  unfold headObserverCallback. destruct (find _ _) as [m|].
  - eexists. split; [done|]. repeat constructor. by eexists.
  - exists []. by rewrite app_nil_r.
Qed.

(** What stopping does to a body observer that exists. *)
Lemma stopDocumentObservation_body (doc : Document) (s : DocumentObserver)
    (bodyObserver : MutationObserver) :
  _bodyObservers s !! docId doc = Some bodyObserver →
  let s' := (stopDocumentObservation doc s).2 in
  (stopDocumentObservation doc s).1 = state bodyObserver
  ∧ _bodyObservers s' !! docId doc =
      Some {| observed := ∅; records := []; state := Some Stopped |}.
Proof.
  intros Ho s'. split.
  - unfold stopDocumentObservation. rewrite Ho. simpl.
    by destruct (head doc).
  - subst s'. unfold stopDocumentObservation. rewrite Ho. simpl.
    destruct (head doc); simpl; [|by rewrite lookup_insert_eq].
    destruct (_headObservers s !! docId doc); simpl;
      [destruct (isComplex s)|]; simpl; by rewrite lookup_insert_eq.
Qed.

(** Claim C4: when a body observer exists for the document,
    [stopDocumentObservation] takes the pending records and sets the state
    to [Stopped] before it returns, and publishes nothing itself: the
    classify-and-publish pass over the captured records is only scheduled,
    one tick later, so the [Stopped] state is there before any event from
    the drained records. *)
Theorem stopDocumentObservation_defers_drain (doc : Document) (s : DocumentObserver)
    (bodyObserver : MutationObserver) :
  _bodyObservers s !! docId doc = Some bodyObserver →
  let s' := (stopDocumentObservation doc s).2 in
  (stopDocumentObservation doc s).1 = state bodyObserver
  ∧ _bodyObservers s' !! docId doc =
      Some {| observed := ∅; records := []; state := Some Stopped |}
  ∧ log s' = log s
  ∧ elementData s' = elementData s
  ∧ groupContents s' = groupContents s
  ∧ clock s' = clock s
  ∧ {| timerId := nextTimerId s; due := clock s + 1;
       task := BodyDrain (docId doc) (records bodyObserver) |} ∈ timers s'
  ∧ runTask (BodyDrain (docId doc) (records bodyObserver)) =
      bodyObserverCallback (records bodyObserver) (docId doc).
Proof.
  intros Ho s'.
  destruct (stopDocumentObservation_heap doc s) as (Hh & _ & Hg & _ & _ & Hl & He & Hc).
  destruct (stopDocumentObservation_body doc s bodyObserver Ho) as [Hr Hb].
  fold s' in Hh, Hg, Hl, He, Hc, Hb.
  split_and!; try done.
  - unfold groupContents. by rewrite Hh, Hg.
  - subst s'. unfold stopDocumentObservation. rewrite Ho. simpl.
    destruct (head doc); simpl; [|set_solver].
    destruct (_headObservers s !! docId doc); simpl;
      [destruct (isComplex s)|]; simpl; set_solver.
Qed.

(** Claim C5: stopping a document whose body observer is already
    [Stopped] returns [Stopped], leaves the observer as it is and publishes
    nothing; the drain it schedules again carries no records, so running it
    publishes nothing either (no event is published a second time), and a
    head drain publishes nothing on the set-valued channels. *)
Theorem stopDocumentObservation_idempotent (doc : Document) (s : DocumentObserver)
    (bodyObserver : MutationObserver) :
  wf s →
  _bodyObservers s !! docId doc = Some bodyObserver →
  state bodyObserver = Some Stopped →
  let s' := (stopDocumentObservation doc s).2 in
  (stopDocumentObservation doc s).1 = Some Stopped
  ∧ _bodyObservers s' !! docId doc = Some bodyObserver
  ∧ log s' = log s
  ∧ (∀ t, t ∈ timers s' → t ∈ timers s
          ∨ task t = BodyDrain (docId doc) []
          ∨ ∃ mutations, task t = HeadDrain (docId doc) mutations)
  ∧ (∀ s0, log (runTask (BodyDrain (docId doc) []) s0) = log s0
           ∧ groupContents (runTask (BodyDrain (docId doc) []) s0) = groupContents s0
           ∧ timers (runTask (BodyDrain (docId doc) []) s0) = timers s0)
  ∧ (∀ mutations s0, ∃ new,
        log (runTask (HeadDrain (docId doc) mutations) s0) = log s0 ++ new
        ∧ Forall (λ e, carriedSet e.2 = None) new).
Proof.
  intros (_ & _ & Hwf) Ho Hst s'.
  pose proof (wf_stopped s Hwf _ _ Ho Hst) as Hobs.
  pose proof (wf_queue s Hwf BodyWatcher _ _ Ho Hobs) as Hrec.
  destruct (stopDocumentObservation_body doc s bodyObserver Ho) as (Hr & Hb).
  destruct (stopDocumentObservation_heap doc s) as (_ & _ & _ & _ & _ & Hl & _).
  fold s' in Hb, Hl.
  split_and!; try done.
  - congruence.
  - rewrite Hb. f_equal. destruct bodyObserver; simpl in *. congruence.
  - subst s'. unfold stopDocumentObservation. rewrite Ho. simpl. rewrite Hrec.
    intros t. destruct (head doc); simpl;
      [|rewrite elem_of_app, list_elem_of_singleton; intros [?| ->]; simpl; eauto].
    destruct (_headObservers s !! docId doc); simpl;
      [destruct (isComplex s)|]; simpl; rewrite ?elem_of_app, ?list_elem_of_singleton.
    + intros [[?| ->]| ->]; simpl; eauto.
    + intros [?| ->]; simpl; eauto.
    + intros [?| ->]; simpl; eauto.
  - intros s0. simpl. rewrite bodyObserverCallback_nil.
    destruct (isActive s0); by destruct s0.
  - intros mutations s0. simpl.
    destruct (headObserverCallback_log mutations (docId doc) s0) as (new & Hnew & HP).
    exists new. split; [done|].
    eapply Forall_impl; [done|]. intros e [x ->]. done.
Qed.

(** Claim C10: for a document that never had a body observer,
    [stopDocumentObservation] returns [undefined] and changes nothing: no
    state is set and no drain is scheduled. *)
Theorem stopDocumentObservation_never_started (doc : Document) (s : DocumentObserver) :
  wf s →
  _bodyObservers s !! docId doc = None →
  stopDocumentObservation doc s = (None, s).
Proof.
  intros (_ & _ & Hwf) Ho. unfold stopDocumentObservation. rewrite Ho.
  destruct (head doc); [|done].
  destruct (_headObservers s !! docId doc) as [o|] eqn:Hh; [|done].
  destruct (wf_head s Hwf (docId doc)) as [? ?]; [by rewrite Hh|congruence].
Qed.

(** ** What a call publishes *)

Lemma published_app s s' new : log s' = log s ++ new → published s s' = new.
Proof. intros H. unfold published. by rewrite H, drop_app_length. Qed.

Lemma groupAddedElements_log addedElements s :
  log (groupAddedElements addedElements s) =
  log s ++
  (if bool_decide (addedElementsGroupMinimumSize < size (groupContents s ∪ addedElements))%nat
   then [(clock s, ElementsAdded (nextSetRef s) (groupContents s ∪ addedElements))]
   else []).
Proof.
  unfold groupAddedElements, newSet. simpl.
  set (s1 := set_addedElementsGroup _ _).
  assert (Hc : groupContents s1 = groupContents s ∪ addedElements).
  { unfold groupContents at 1. subst s1. simpl. by rewrite lookup_insert_eq. }
  rewrite Hc. case_bool_decide as Hsize.
  - rewrite releaseAddedElementsGroup_log, Hc, bool_decide_eq_true_2; [done|].
    unfold addedElementsGroupMinimumSize in Hsize. lia.
  - rewrite app_nil_r. destruct (processingForLong s1), (negb _); done.
Qed.

Lemma bodyObserverCallback_log mutations observer s :
  let c := classified mutations s in
  log (bodyObserverCallback mutations observer s) =
  log s
  ++ (if bool_decide (0 < size (styleChanges c))%nat
      then [(clock s, StyleChanged (styleChanges c))] else [])
  ++ (if bool_decide (0 < size (childListChanges c))%nat
         && bool_decide (addedElementsGroupMinimumSize
                         < size (groupContents s ∪ childListChanges c))%nat
      then [(clock s, ElementsAdded (nextSetRef s) (groupContents s ∪ childListChanges c))]
      else [])
  ++ (if bool_decide (0 < size (classChanges c))%nat
      then [(clock s, ClassChanged (classChanges c))] else []).
Proof.
  intros c. unfold bodyObserverCallback. fold (classified mutations s). fold c.
  clearbody c.
  set (s1 := if bool_decide (0 < size (styleChanges c))%nat then _ else _).
  assert (H1 : log s1 = log s ++ (if bool_decide (0 < size (styleChanges c))%nat
      then [(clock s, StyleChanged (styleChanges c))] else [])
    ∧ groupContents s1 = groupContents s ∧ clock s1 = clock s ∧ nextSetRef s1 = nextSetRef s).
  { subst s1. case_bool_decide; simpl; by rewrite ?app_nil_r. }
  destruct H1 as (Hl1 & Hg1 & Hc1 & Hn1). clearbody s1.
  set (s2 := if bool_decide (0 < size (childListChanges c))%nat then _ else _).
  assert (H2 : log s2 = log s1 ++ (if bool_decide (0 < size (childListChanges c))%nat
         && bool_decide (addedElementsGroupMinimumSize
                         < size (groupContents s ∪ childListChanges c))%nat
      then [(clock s, ElementsAdded (nextSetRef s) (groupContents s ∪ childListChanges c))]
      else []) ∧ clock s2 = clock s).
  { subst s2. destruct (bool_decide (0 < size (childListChanges c))%nat); cbn [andb].
    - rewrite groupAddedElements_log, Hg1, Hc1, Hn1. split; [done|].
      by destruct (groupAddedElements_surroundings (childListChanges c) s1)
        as (_&_&_&_&_&_&_&->).
    - by rewrite app_nil_r. }
  destruct H2 as (Hl2 & Hc2). clearbody s2.
  set (s3 := if bool_decide (0 < size (classChanges c))%nat then _ else _).
  assert (H3 : log s3 = log s2 ++ (if bool_decide (0 < size (classChanges c))%nat
      then [(clock s, ClassChanged (classChanges c))] else [])).
  { subst s3. destruct (bool_decide (0 < size (classChanges c))%nat);
      simpl; by rewrite ?app_nil_r, ?Hc2. }
  clearbody s3.
  replace (log (if negb (isActive s3) then _ else s3)) with (log s3)
    by by destruct (isActive s3).
  by rewrite H3, Hl2, Hl1, <- !app_assoc.
Qed.

(** Projections of field updates. *)
Ltac fields :=
  cbn [_rootDocument rootTimestamp isActive isComplex _bodyObservers _headObservers
       _updateObservers elementData setHeap nextSetRef addedElementsGroup
       lastAddedElementsGroupSlidingTimeout lastAddedElementsGroupAbsoluteTimeout
       clock nextTimerId timers log
       set_rootTimestamp set_isActive set_isComplex set_bodyObservers set_headObservers
       set_updateObservers set_elementData set_setHeap set_nextSetRef
       set_addedElementsGroup set_lastAddedElementsGroupSlidingTimeout
       set_lastAddedElementsGroupAbsoluteTimeout set_clock set_nextTimerId set_timers
       set_log clearTimeout raise setTimeout newSet hideElements fst snd].

Lemma releaseAddedElementsGroup_setHeap title s r' :
  r' ≠ addedElementsGroup s →
  setHeap (releaseAddedElementsGroup title s) !! r' = setHeap s !! r'.
Proof.
  intros Hr. unfold releaseAddedElementsGroup.
  case_bool_decide; [|done].
  cbn [setHeap set_setHeap]. by apply lookup_insert_ne.
Qed.

(** Every add makes a new set object; the older ones are left as they are. *)
Lemma groupAddedElements_heap addedElements s :
  let s' := groupAddedElements addedElements s in
  addedElementsGroup s' = nextSetRef s
  ∧ (∀ r, r ≠ nextSetRef s → setHeap s' !! r = setHeap s !! r)
  ∧ groupContents s' =
      if bool_decide (addedElementsGroupMinimumSize
                      < size (groupContents s ∪ addedElements))%nat
      then ∅ else groupContents s ∪ addedElements.
Proof.
  unfold groupAddedElements, newSet. simpl.
  set (s1 := set_addedElementsGroup _ _).
  assert (Hc : groupContents s1 = groupContents s ∪ addedElements).
  { unfold groupContents at 1. subst s1. simpl. by rewrite lookup_insert_eq. }
  assert (Hg : addedElementsGroup s1 = nextSetRef s) by done.
  assert (Hh : ∀ r, r ≠ nextSetRef s → setHeap s1 !! r = setHeap s !! r).
  { intros r Hr. subst s1. simpl. by rewrite lookup_insert_ne. }
  rewrite Hc. clearbody s1. case_bool_decide as Hbig.
  - split_and!.
    + by rewrite releaseAddedElementsGroup_addedElementsGroup.
    + intros r Hr. rewrite releaseAddedElementsGroup_setHeap by congruence. by apply Hh.
    + apply releaseAddedElementsGroup_groupContents.
  - destruct (processingForLong s1), (negb _); simpl; unfold groupContents; simpl;
      (split_and!; [done|done|apply Hc]).
Qed.

(** ** The set handed to the listeners is the live one *)

(** Claim C9: on a flush the listeners of [ElementsAdded] are given the
    object the field [addedElementsGroup] refers to, holding the whole
    group; right after the dispatch that same object is emptied, so a
    retained reference sees it empty; the field keeps referring to it until
    the next add, which makes a new object and leaves the old one empty. *)

Theorem releaseAddedElementsGroup_hands_out_live_set (title : ReleaseTitle) (s : DocumentObserver) :
  wfHeap s →
  groupContents s ≠ ∅ →
  let r := addedElementsGroup s in
  let s' := releaseAddedElementsGroup title s in
  published s s' = [(clock s, ElementsAdded r (groupContents s))]
  ∧ setHeap s !! r = Some (groupContents s)
  ∧ addedElementsGroup s' = r
  ∧ setHeap s' !! r = Some ∅
  ∧ (∀ r', r' ≠ r → setHeap s' !! r' = setHeap s !! r')
  ∧ ∀ addedElements,
      let s'' := groupAddedElements addedElements s' in
      addedElementsGroup s'' ≠ r
      ∧ setHeap s'' !! r = Some ∅
      ∧ (size addedElements ≤ addedElementsGroupMinimumSize →
         groupContents s'' = addedElements)%nat.
Proof.
  intros Hwf Hne r s'.
  assert (Hsize : size (groupContents s) ≠ 0%nat).
  { intros H0. by apply size_empty_inv, leibniz_equiv in H0. }
  assert (Hr : setHeap s !! r = Some (groupContents s)).
  { unfold groupContents in *. fold r in Hne |- *.
    destruct (setHeap s !! r); [done|]. by destruct Hne. }
  assert (Hg : addedElementsGroup s' = r)
    by apply releaseAddedElementsGroup_addedElementsGroup.
  assert (Hempty : groupContents s' = ∅)
    by apply releaseAddedElementsGroup_groupContents.
  assert (Hr' : setHeap s' !! r = Some ∅).
  { subst s'. unfold releaseAddedElementsGroup.
    rewrite bool_decide_eq_true_2 by done. apply lookup_insert_eq. }
  assert (Hlt : (r < nextSetRef s')%positive).
  { replace (nextSetRef s') with (nextSetRef s); [apply Hwf|].
    subst s'. unfold releaseAddedElementsGroup. by case_bool_decide. }
  split_and!; try done.
  - apply published_app. subst s'. rewrite releaseAddedElementsGroup_log.
    by rewrite bool_decide_eq_true_2.
  - intros r' Hr''. by apply releaseAddedElementsGroup_setHeap.
  - clearbody s'. intros addedElements s''.
    destruct (groupAddedElements_heap addedElements s') as (Hg2 & Hh2 & Hc2).
    fold s'' in Hg2, Hh2, Hc2. clearbody s''.
    split_and!.
    + rewrite Hg2. lia.
    + rewrite Hh2 by lia. done.
    + intros Hsmall. rewrite Hc2, Hempty.
      replace (∅ ∪ addedElements) with addedElements by set_solver.
      rewrite bool_decide_eq_false_2 by lia. done.
Qed.

(** ** Classification of attribute records *)

Lemma eligible_countThrottled now d : eligible (countThrottled now d) = eligible d.
Proof. unfold countThrottled. by destruct (collides now d). Qed.

Lemma onMutation_attributes complex now acc mutation :
  type mutation = attributes →
  let d := getElement (touched acc) (target mutation) in
  let acc' := onMutation complex now acc mutation in
  classChanges acc' =
    (if passes now d && bool_decide (attributeName mutation = Some "class"%string)
     then {[target mutation]} ∪ classChanges acc else classChanges acc)
  ∧ styleChanges acc' =
    (if passes now d && complex
        && bool_decide (attributeName mutation ∈
                          [Some "style"; Some "fill"; Some "stroke"]%string)
     then {[target mutation]} ∪ styleChanges acc else styleChanges acc)
  ∧ childListChanges acc' = childListChanges acc
  ∧ touched acc' =
    (if collides now d then <[target mutation := countThrottled now d]> (touched acc)
     else touched acc).
Proof.
  intros Hty d acc'. subst acc'. unfold onMutation, passes. rewrite Hty. fold d.
  destruct (belowLimit (countThrottled now d) && eligible (countThrottled now d));
    cbn [andb]; [|split_and!; reflexivity].
  destruct (attributeName mutation) as [a|].
  2: { rewrite (bool_decide_eq_false_2 (None = _)) by done.
       rewrite (bool_decide_eq_false_2 (_ ∈ _)); [destruct complex; split_and!; reflexivity|].
       rewrite !elem_of_cons, elem_of_nil. intros [[=]|[[=]|[[=]|[]]]]. }
  destruct (decide (a = "class"%string)) as [->|Hclass].
  { rewrite bool_decide_eq_true_2 by done.
    rewrite (bool_decide_eq_false_2 (_ ∈ _)); [destruct complex; split_and!; reflexivity|].
    rewrite !elem_of_cons, elem_of_nil. intros [[=]|[[=]|[[=]|[]]]]. }
  rewrite bool_decide_eq_false_2 by congruence.
  destruct (decide _) as [Hstyle|Hother].
  - rewrite bool_decide_eq_true_2; [destruct complex; split_and!; reflexivity|].
    rewrite !elem_of_cons. destruct Hstyle as [->|[->| ->]]; auto.
  - rewrite bool_decide_eq_false_2; [destruct complex; split_and!; reflexivity|].
    rewrite !elem_of_cons, elem_of_nil.
    intros [[=]|[[=]|[[=]|[]]]]; subst; tauto.
Qed.

(** Claim C6: an attribute record on an eligible element that is below the
    throttle limit is classified by its attribute name: [class] adds the
    target to the class changes, [style], [fill] and [stroke] add it to the
    style changes exactly when the complex mode is on, any other name adds
    nothing; a record on an ineligible element adds nothing.  Delivered on
    its own, the record is published accordingly. *)
Theorem attribute_record_classification (s : DocumentObserver) (observer : positive)
    (mutation : MutationRecord) :
  type mutation = attributes →
  let d := getElement (elementData s) (target mutation) in
  let unthrottled := belowLimit (countThrottled (clock s) d) in
  (∀ acc : Changes, touched acc = elementData s →
     let acc' := onMutation (isComplex s) (clock s) acc mutation in
     classChanges acc' =
       (if unthrottled && eligible d
           && bool_decide (attributeName mutation = Some "class"%string)
        then {[target mutation]} ∪ classChanges acc else classChanges acc)
     ∧ styleChanges acc' =
       (if unthrottled && eligible d && isComplex s
           && bool_decide (attributeName mutation ∈
                             [Some "style"; Some "fill"; Some "stroke"]%string)
        then {[target mutation]} ∪ styleChanges acc else styleChanges acc)
     ∧ childListChanges acc' = childListChanges acc)
  ∧ published s (bodyObserverCallback [mutation] observer s) =
      if unthrottled && eligible d then
        if bool_decide (attributeName mutation = Some "class"%string)
        then [(clock s, ClassChanged {[target mutation]})]
        else if bool_decide (attributeName mutation ∈
                               [Some "style"; Some "fill"; Some "stroke"]%string)
                && isComplex s
        then [(clock s, StyleChanged {[target mutation]})]
        else []
      else [].
Proof.
  intros Hty d unthrottled.
  assert (Hpass : ∀ d', passes (clock s) d' =
                        belowLimit (countThrottled (clock s) d') && eligible d').
  { intros d'. unfold passes. by rewrite eligible_countThrottled. }
  split.
  - intros acc Hacc acc'.
    destruct (onMutation_attributes (isComplex s) (clock s) acc mutation Hty)
      as (Hc & Hs & Hl & _).
    rewrite Hacc, Hpass in Hc, Hs. by split_and!.
  - apply published_app. rewrite bodyObserverCallback_log.
    unfold classified. cbn [foldl].
    destruct (onMutation_attributes (isComplex s) (clock s)
                (mkChanges ∅ ∅ ∅ (elementData s)) mutation Hty) as (Hc & Hs & Hl & _).
    cbn [touched classChanges styleChanges childListChanges] in Hc, Hs, Hl.
    rewrite Hpass in Hc, Hs. fold d unthrottled in Hc, Hs.
    rewrite Hc, Hs, Hl. clear Hc Hs Hl.
    rewrite (bool_decide_eq_false_2 (0 < size ∅)%nat) by (rewrite size_empty; lia).
    cbn [andb app].
    assert (Hone : ∀ x : positive, ({[x]} ∪ ∅ : gset positive) = {[x]})
      by (intros x; set_solver).
    assert (Hsz : ∀ x : positive, bool_decide (0 < size ({[x]} : gset positive))%nat = true).
    { intros x. apply bool_decide_eq_true_2. rewrite size_singleton. lia. }
    assert (Hz : bool_decide (0 < size (∅ : gset positive))%nat = false).
    { apply bool_decide_eq_false_2. rewrite size_empty. lia. }
    destruct (unthrottled && eligible d); cbn [andb]; [|by rewrite Hz].
    destruct (bool_decide (attributeName mutation = Some "class"%string)) eqn:Hclass.
    + apply bool_decide_eq_true in Hclass.
      rewrite (bool_decide_eq_false_2 (_ ∈ _)).
      * rewrite andb_false_r, Hone, Hsz, Hz. done.
      * rewrite Hclass, !elem_of_cons, elem_of_nil. intros [[=]|[[=]|[[=]|[]]]].
    + rewrite Hz.
      destruct (isComplex s), (bool_decide (_ ∈ _)); cbn [andb];
        rewrite ?Hone, ?Hsz, ?Hz; done.
Qed.

(** ** Invariants of the trace, generically

    For a state invariant [I] that reads the element properties and the
    clock only, and a property [P] of trace entries: if the classification
    loop keeps [I] and computes sets whose publication satisfies [P], then
    every action keeps [I] and publishes only entries that satisfy [P]. *)

Section TraceInvariant.
Variable I : DocumentObserver → Prop.
Variable P : Z * Event → Prop.

Hypothesis I_frame : ∀ s s',
  elementData s' = elementData s → clock s' = clock s → I s → I s'.
Hypothesis I_hide : ∀ X s, I s → I (hideElements X s).
Hypothesis I_tick : ∀ s, I s → I (set_clock (clock s + 1) s).
Hypothesis loop_ok : ∀ mutations s, I s →
  let c := classified mutations s in
  I (set_elementData (touched c) s)
  ∧ ((0 < size (styleChanges c))%nat → P (clock s, StyleChanged (styleChanges c)))
  ∧ ((0 < size (classChanges c))%nat → P (clock s, ClassChanged (classChanges c))).
Hypothesis P_added : ∀ t r X, X ≠ ∅ → P (t, ElementsAdded r X).
Hypothesis P_update : ∀ t e, P (t, UpdateChanged e).
Hypothesis P_sheets : ∀ t e, P (t, StyleSheetsProcessed e).

Lemma extends_refl s : I s → extends I P s s.
Proof. intros HI. split; [done|]. exists []. by rewrite app_nil_r. Qed.

Lemma extends_trans s1 s2 s3 :
  extends I P s1 s2 → extends I P s2 s3 → extends I P s1 s3.
Proof.
  intros (_ & n1 & H1 & HP1) (HI & n2 & H2 & HP2). split; [done|].
  exists (n1 ++ n2). split; [by rewrite H2, H1, app_assoc|by apply Forall_app].
Qed.

(** A step that leaves the elements, the clock and the trace alone. *)
Lemma extends_frame s s' :
  elementData s' = elementData s → clock s' = clock s → log s' = log s →
  I s → extends I P s s'.
Proof.
  intros He Hc Hl HI. split; [by apply (I_frame s)|].
  exists []. by rewrite app_nil_r.
Qed.

Lemma extends_raise ev s : P (clock s, ev) → I s → extends I P s (raise ev s).
Proof.
  intros HP HI. split; [by apply (I_frame s)|].
  eexists. split; [done|]. by repeat constructor.
Qed.

Lemma extends_releaseAddedElementsGroup title s :
  I s → extends I P s (releaseAddedElementsGroup title s).
Proof.
  intros HI. split.
  - apply (I_frame s); [apply releaseAddedElementsGroup_elementData| |done].
    by destruct (releaseAddedElementsGroup_surroundings title s) as (_&_&_&_&_&_&_&?).
  - eexists. split; [apply releaseAddedElementsGroup_log|].
    case_bool_decide as Hsize; [|done]. repeat constructor.
    apply P_added. intros Hempty. rewrite Hempty, size_empty in Hsize. done.
Qed.

Lemma groupAddedElements_elementData addedElements s :
  elementData (groupAddedElements addedElements s) = elementData s
  ∨ elementData (groupAddedElements addedElements s)
    = elementData (hideElements addedElements s).
Proof.
  unfold groupAddedElements, newSet. simpl.
  set (s1 := set_addedElementsGroup _ _).
  case_bool_decide.
  - left. by rewrite releaseAddedElementsGroup_elementData.
  - destruct (processingForLong s1), (negb _); simpl; auto.
Qed.

Lemma extends_groupAddedElements addedElements s :
  I s → extends I P s (groupAddedElements addedElements s).
Proof.
  intros HI. split.
  - destruct (groupAddedElements_surroundings addedElements s) as (_&_&_&_&_&_&_&Hc).
    destruct (groupAddedElements_elementData addedElements s) as [He|He].
    + by apply (I_frame s).
    + apply (I_frame (hideElements addedElements s)); [done..|]. by apply I_hide.
  - eexists. split; [apply groupAddedElements_log|].
    case_bool_decide as Hsize; [|done]. repeat constructor.
    apply P_added. intros Hempty. rewrite Hempty, size_empty in Hsize.
    unfold addedElementsGroupMinimumSize in Hsize. lia.
Qed.

Lemma extends_bodyObserverCallback mutations observer s :
  I s → extends I P s (bodyObserverCallback mutations observer s).
Proof.
  intros HI. destruct (loop_ok mutations s HI) as (HI0 & Hstyle & Hclass).
  unfold bodyObserverCallback. fold (classified mutations s).
  set (c := classified mutations s) in *. clearbody c.
  set (s0 := set_elementData (touched c) s) in *.
  assert (H0 : extends I P s s0 ∧ clock s0 = clock s).
  { split; [|done]. split; [done|]. exists []. by rewrite app_nil_r. }
  clearbody s0. destruct H0 as [H0 Hc0].
  set (s1 := if bool_decide (0 < size (styleChanges c))%nat then _ else _).
  assert (H1 : extends I P s s1 ∧ clock s1 = clock s).
  { subst s1. destruct (bool_decide (0 < size (styleChanges c))%nat) eqn:Hb; [|done].
    apply bool_decide_eq_true in Hb. split; [|done].
    eapply extends_trans; [done|]. apply extends_raise; [|apply H0].
    rewrite Hc0. auto. }
  clearbody s1. destruct H1 as [H1 Hc1].
  set (s2 := if bool_decide (0 < size (childListChanges c))%nat then _ else _).
  assert (H2 : extends I P s s2 ∧ clock s2 = clock s).
  { subst s2. destruct (bool_decide (0 < size (childListChanges c))%nat); [|done].
    split.
    - eapply extends_trans; [done|]. apply extends_groupAddedElements, H1.
    - destruct (groupAddedElements_surroundings (childListChanges c) s1)
        as (_&_&_&_&_&_&_&->). done. }
  clearbody s2. destruct H2 as [H2 Hc2].
  set (s3 := if bool_decide (0 < size (classChanges c))%nat then _ else _).
  assert (H3 : extends I P s s3).
  { subst s3. destruct (bool_decide (0 < size (classChanges c))%nat) eqn:Hb; [|done].
    apply bool_decide_eq_true in Hb.
    eapply extends_trans; [done|]. apply extends_raise; [|apply H2].
    rewrite Hc2. auto. }
  clearbody s3.
  destruct (isActive s3); simpl; [done|].
  eapply extends_trans; [done|]. apply extends_frame; try done. apply H3.
Qed.

Lemma extends_headObserverCallback mutations observer s :
  I s → extends I P s (headObserverCallback mutations observer s).
Proof.
  intros HI. unfold headObserverCallback.
  destruct (find _ _); [|by apply extends_refl]. by apply extends_raise.
Qed.

Lemma extends_fire s id : I s → extends I P s (fire s id).
Proof.
  intros HI. unfold fire.
  destruct (list_find _ _) as [[i t]|]; [|by apply extends_refl].
  set (s1 := set_timers _ s).
  assert (H1 : extends I P s s1) by by apply extends_frame.
  clearbody s1. eapply extends_trans; [done|].
  destruct (task t); simpl.
  - apply extends_releaseAddedElementsGroup, H1.
  - apply extends_bodyObserverCallback, H1.
  - apply extends_headObserverCallback, H1.
Qed.

Lemma extends_tick s : I s → extends I P s (tick s).
Proof.
  intros HI. unfold tick.
  set (s1 := set_clock _ s).
  assert (H1 : extends I P s s1).
  { split; [by apply I_tick|]. exists []. by rewrite app_nil_r. }
  generalize (timerId <$> filter (λ t, due t ≤ clock s1) (timers s1)).
  clearbody s1. intros ids. revert s1 H1.
  induction ids as [|id ids IH]; intros s1 H1; simpl; [done|].
  apply IH. eapply extends_trans; [done|]. apply extends_fire, H1.
Qed.

Lemma extends_stopDocumentObservation doc s :
  I s → extends I P s (stopDocumentObservation doc s).2.
Proof.
  intros HI.
  destruct (stopDocumentObservation_heap doc s) as (_&_&_&_&_&Hl&He&Hc).
  by apply extends_frame.
Qed.

Lemma extends_notify k doc s : I s → extends I P s (notify k doc s).
Proof.
  intros HI. unfold notify.
  destruct (observersOf k s !! doc) as [o|]; [|by apply extends_refl].
  destruct (records o) as [|m ms]; [by apply extends_refl|].
  set (s1 := set_observersOf _ _ _).
  assert (H1 : extends I P s s1) by (subst s1; destruct k; by apply extends_frame).
  clearbody s1. eapply extends_trans; [done|]. destruct k.
  - unfold updateObserverCallback. simpl. apply extends_raise; [done|apply H1].
  - apply extends_bodyObserverCallback, H1.
  - apply extends_headObserverCallback, H1.
Qed.

Lemma extends_step s a : respects I a → I s → extends I P s (step s a).
Proof.
  intros Ha HI. destruct a; simpl.
  - unfold startDocumentUpdateObservation.
    destruct (documentElement doc); by apply extends_frame.
  - unfold stopDocumentUpdateObservation.
    destruct (_updateObservers s !! docId doc); [|by apply extends_refl].
    by apply extends_frame.
  - unfold startDocumentObservation. case_decide; [by apply extends_refl|].
    destruct (body doc); [|by apply extends_frame].
    destruct (head doc); simpl; [destruct (isComplex s)|]; by apply extends_frame.
  - by apply extends_stopDocumentObservation.
  - unfold beforeSettingsChanged. simpl.
    destruct active; simpl; [by apply extends_frame|].
    eapply extends_trans; [|apply extends_stopDocumentObservation].
    + apply (extends_frame s); done.
    + by apply (I_frame s).
  - unfold queueRecord. destruct (observersOf k s !! doc) as [o|]; [|by apply extends_refl].
    destruct (interested o m); [|by apply extends_refl].
    destruct k; by apply extends_frame.
  - by apply extends_notify.
  - by apply extends_tick.
  - split; [by apply I_tick|]. exists []. by rewrite app_nil_r.
  - unfold runTimer. destruct (list_find _ _) as [[i t]|]; [|by apply extends_refl].
    destruct (bool_decide _); [|by apply extends_refl]. by apply extends_fire.
  - split; [by apply Ha|]. exists []. by rewrite app_nil_r.
  - by apply extends_frame.
Qed.

Lemma extends_run s actions :
  Forall (respects I) actions → I s → extends I P s (run s actions).
Proof.
  revert s. induction actions as [|a actions IH]; intros s Ha HI.
  { by apply extends_refl. }
  apply Forall_cons in Ha as [Ha Has]. simpl.
  eapply extends_trans; [by apply extends_step|].
  apply IH; [done|]. by apply extends_step.
Qed.
End TraceInvariant.

(** ** No empty set is ever published *)

Lemma size_pos_nonempty (X : gset positive) : (0 < size X)%nat → X ≠ ∅.
Proof. intros Hsize ->. rewrite size_empty in Hsize. lia. Qed.

Lemma published_extends I P s s' :
  extends I P s s' → Forall P (published s s').
Proof. intros (_ & new & Hlog & HP). by rewrite (published_app _ _ _ Hlog). Qed.

(** Claim C8: on the three set-valued channels nothing is ever published
    with an empty set, whatever the observer is made to do; a callback whose
    computed sets are empty raises nothing, and releasing an empty group
    raises nothing. *)
Theorem empty_sets_are_never_published (s : DocumentObserver) (actions : list Action) :
  (∀ entry X, entry ∈ published s (run s actions) →
     carriedSet entry.2 = Some X → X ≠ ∅)
  ∧ (∀ mutations observer entry X,
       entry ∈ published s (bodyObserverCallback mutations observer s) →
       carriedSet entry.2 = Some X → X ≠ ∅)
  ∧ (∀ title, groupContents s = ∅ →
       published s (releaseAddedElementsGroup title s) = []).
Proof.
  set (I := λ _ : DocumentObserver, True).
  set (P := λ entry : Z * Event, ∀ X, carriedSet entry.2 = Some X → X ≠ ∅).
  assert (Hloop : ∀ mutations s0, I s0 →
    let c := classified mutations s0 in
    I (set_elementData (touched c) s0)
    ∧ ((0 < size (styleChanges c))%nat → P (clock s0, StyleChanged (styleChanges c)))
    ∧ ((0 < size (classChanges c))%nat → P (clock s0, ClassChanged (classChanges c)))).
  { intros mutations s0 _ c. split_and!; [done|..];
      intros Hsize X [= <-]; by apply size_pos_nonempty. }
  assert (Hadded : ∀ t r X, X ≠ ∅ → P (t, ElementsAdded r X)).
  { intros t r X HX Y [= <-]. done. }
  split_and!.
  - intros entry X Hin. revert X.
    assert (Hall : Forall P (published s (run s actions))).
    { eapply (published_extends I), extends_run; try done.
      apply Forall_forall. intros a _. by destruct a. }
    rewrite Forall_forall in Hall. by apply Hall.
  - intros mutations observer entry X Hin. revert X.
    assert (Hall : Forall P (published s (bodyObserverCallback mutations observer s))).
    { eapply (published_extends I), extends_bodyObserverCallback; done. }
    rewrite Forall_forall in Hall. by apply Hall.
  - intros title Hempty. apply published_app.
    rewrite releaseAddedElementsGroup_log, Hempty, size_empty.
    by rewrite bool_decide_eq_false_2, app_nil_r by auto.
Qed.

(** ** The throttle *)

Lemma hideElement_count tag els e :
  mlMutationThrottledCount (getElement (hideElement tag els) e) =
  mlMutationThrottledCount (getElement els e).
Proof.
  unfold hideElement. destruct (_ && _); [|done].
  unfold getElement at 1. rewrite lookup_insert. case_decide as Heq; [|done].
  by rewrite Heq.
Qed.

Lemma hideElements_count X s e :
  throttledCount (hideElements X s) e = throttledCount s e.
Proof.
  unfold throttledCount, hideElements. simpl. f_equal.
  apply (set_fold_ind_L
    (λ els _, mlMutationThrottledCount (getElement els e) =
              mlMutationThrottledCount (getElement (elementData s) e))); [done|].
  intros x Y els _ IH. by rewrite hideElement_count.
Qed.

Lemma belowLimit_false d :
  maxMutationsCount ≤ orZero (mlMutationThrottledCount d) → belowLimit d = false.
Proof.
  unfold belowLimit, maxMutationsCount. destruct (mlMutationThrottledCount d) as [n|]; simpl.
  - intros Hn. replace (n =? 0) with false by lia. simpl. lia.
  - lia.
Qed.

Lemma countThrottled_count now d :
  orZero (mlMutationThrottledCount (countThrottled now d)) =
  if collides now d then orZero (mlMutationThrottledCount d) + 1
  else orZero (mlMutationThrottledCount d).
Proof. unfold countThrottled. by destruct (collides now d). Qed.

(** One record, for an element that is over the limit. *)
Lemma onMutation_over_limit complex now acc mutation e :
  maxMutationsCount ≤ orZero (mlMutationThrottledCount (getElement (touched acc) e)) →
  e ∉ classChanges acc → e ∉ styleChanges acc →
  let acc' := onMutation complex now acc mutation in
  maxMutationsCount ≤ orZero (mlMutationThrottledCount (getElement (touched acc') e))
  ∧ (e ∉ classChanges acc') ∧ (e ∉ styleChanges acc').
Proof.
  intros Hcount Hclass Hstyle acc'. subst acc'.
  destruct (type mutation) eqn:Hty.
  - destruct (onMutation_attributes complex now acc mutation Hty) as (Hc & Hs & _ & Ht).
    rewrite Hc, Hs, Ht. clear Hc Hs Ht.
    set (d := getElement (touched acc) (target mutation)).
    destruct (decide (target mutation = e)) as [Heq|Hne].
    + assert (Hd : maxMutationsCount ≤ orZero (mlMutationThrottledCount (countThrottled now d))).
      { rewrite countThrottled_count. subst d. rewrite Heq.
        destruct (collides _ _); lia. }
      unfold passes. rewrite (belowLimit_false _ Hd). cbn [andb].
      split_and!; [|done..].
      destruct (collides now d); [|done].
      unfold getElement. rewrite Heq, lookup_insert_eq. apply Hd.
    + split_and!.
      * destruct (collides now d); [|done].
        unfold getElement. by rewrite lookup_insert_ne.
      * destruct (_ && _); set_solver.
      * destruct (_ && _); set_solver.
  - unfold onMutation. rewrite Hty. done.
  - unfold onMutation. rewrite Hty. done.
Qed.

Lemma classified_over_limit mutations s e :
  maxMutationsCount ≤ throttledCount s e →
  let c := classified mutations s in
  maxMutationsCount ≤ orZero (mlMutationThrottledCount (getElement (touched c) e))
  ∧ (e ∉ classChanges c) ∧ (e ∉ styleChanges c).
Proof.
  intros Hcount. unfold classified.
  assert (H0 : maxMutationsCount ≤ orZero (mlMutationThrottledCount
                 (getElement (touched (mkChanges ∅ ∅ ∅ (elementData s))) e))
               ∧ (e ∉ classChanges (mkChanges ∅ ∅ ∅ (elementData s)))
               ∧ (e ∉ styleChanges (mkChanges ∅ ∅ ∅ (elementData s)))).
  { split_and!; [done|set_solver..]. }
  revert H0. generalize (mkChanges ∅ ∅ ∅ (elementData s)).
  induction mutations as [|m ms IH]; intros acc H0; [done|].
  simpl. apply IH. destruct H0 as (?&?&?). by apply onMutation_over_limit.
Qed.

(** Claim C3, as the code has it: once the throttle count of an element has
    reached [maxMutationsCount] (300), every later attribute record for it
    is dropped (it is in no published class or style change), and nothing
    the observer does takes the count back below the limit, however much
    time passes: only another component writing the element's properties
    could. *)
Theorem throttled_element_stays_ignored (s : DocumentObserver) (e : positive)
    (actions : list Action) :
  maxMutationsCount ≤ throttledCount s e →
  Forall (λ a, ∀ d, a ≠ Touch e d) actions →
  let s' := run s actions in
  maxMutationsCount ≤ throttledCount s' e
  ∧ (∀ t X, (t, ClassChanged X) ∈ published s s' → e ∉ X)
  ∧ (∀ t X, (t, StyleChanged X) ∈ published s s' → e ∉ X).
Proof.
  intros Hcount Hactions s'.
  set (I := λ s0 : DocumentObserver, maxMutationsCount ≤ throttledCount s0 e).
  set (P := λ entry : Z * Event,
         match entry.2 with
         | ClassChanged X | StyleChanged X => e ∉ X
         | _ => True
         end).
  assert (Hext : extends I P s s').
  { apply extends_run; try done.
    - intros s1 s2 He _. unfold I, throttledCount. by rewrite He.
    - intros X s0. unfold I. by rewrite hideElements_count.
    - intros mutations s0 HI.
      destruct (classified_over_limit mutations s0 e HI) as (H1 & H2 & H3).
      split_and!; done.
    - apply Forall_forall. intros a Ha.
      rewrite Forall_forall in Hactions. specialize (Hactions a Ha).
      destruct a; try done. simpl. intros s0 HI.
      unfold I, throttledCount, getElement. simpl.
      rewrite lookup_insert_ne; [done|]. intros ->. by apply (Hactions d). }
  split; [apply Hext|].
  apply published_extends in Hext. rewrite Forall_forall in Hext.
  split; intros t X Hin; apply (Hext _ Hin).
Qed.

(** ** The absolute timer *)

(** An add that stays at or below the threshold: what it arms. *)
Lemma groupAddedElements_buffered addedElements s :
  ¬ (addedElementsGroupMinimumSize < size (groupContents s ∪ addedElements))%nat →
  let s' := groupAddedElements addedElements s in
  let sliding := {| timerId := nextTimerId s;
                    due := clock s + addedElementsGroupSlidingTimeoutMS;
                    task := ReleaseTask TitleSliding |} in
  let absolute := {| timerId := nextTimerId s + 1;
                     due := clock s + addedElementsGroupAbsoluteTimeoutMS;
                     task := ReleaseTask TitleAbsolute |} in
  let kept := timers (clearTimeout (lastAddedElementsGroupSlidingTimeout s) s) in
  log s' = log s
  ∧ lastAddedElementsGroupSlidingTimeout s' = Some (nextTimerId s)
  ∧ (if truthy (lastAddedElementsGroupAbsoluteTimeout s)
     then lastAddedElementsGroupAbsoluteTimeout s' = lastAddedElementsGroupAbsoluteTimeout s
          ∧ timers s' = kept ++ [sliding]
     else lastAddedElementsGroupAbsoluteTimeout s' = Some (nextTimerId s + 1)
          ∧ timers s' = kept ++ [sliding] ++ [absolute]).
Proof.
  intros Hsmall. unfold groupAddedElements, newSet. simpl.
  set (s1 := set_addedElementsGroup _ _).
  assert (Hc : groupContents s1 = groupContents s ∪ addedElements).
  { unfold groupContents at 1. subst s1. simpl. by rewrite lookup_insert_eq. }
  rewrite Hc, bool_decide_eq_false_2 by done.
  set (s2 := if processingForLong s1 then _ else _).
  assert (Hs2 : s2 = set_elementData (elementData s2) s1).
  { subst s2. by destruct (processingForLong s1). }
  clearbody s2. rewrite Hs2. simpl.
  destruct (truthy (lastAddedElementsGroupAbsoluteTimeout s)); simpl.
  - done.
  - by rewrite <- app_assoc.
Qed.

Lemma flushedBy_mono G B n s s' new :
  log s' = log s ++ new → flushedBy G B n s → flushedBy G B n s'.
Proof.
  intros Hlog (i & t & r & X & Hi & Hl & Ht & HG).
  exists i, t, r, X. split_and!; try done.
  rewrite Hlog. by apply lookup_app_l_Some.
Qed.

Lemma flushedBy_release G B n title s :
  G ≠ ∅ → G ⊆ groupContents s → clock s ≤ B → (n ≤ length (log s))%nat →
  flushedBy G B n (releaseAddedElementsGroup title s).
Proof.
  intros Hne HG Hc Hn.
  exists (length (log s)), (clock s), (addedElementsGroup s), (groupContents s).
  split_and!; try done.
  rewrite releaseAddedElementsGroup_log, bool_decide_eq_true_2.
  - by rewrite lookup_app_r, Nat.sub_diag by lia.
  - intros H0. apply size_empty_inv, leibniz_equiv in H0. set_solver.
Qed.

(** The part of [stillOpen] that a step touching neither the timers nor the
    group keeps. *)
Lemma stillOpen_frame G D id n s s' new :
  timers s' = timers s → nextTimerId s' = nextTimerId s →
  lastAddedElementsGroupSlidingTimeout s' = lastAddedElementsGroupSlidingTimeout s →
  lastAddedElementsGroupAbsoluteTimeout s' = lastAddedElementsGroupAbsoluteTimeout s →
  groupContents s' = groupContents s →
  log s' = log s ++ new →
  stillOpen G D id n s → stillOpen G D id n s'.
Proof.
  intros Ht Hn Hs Ha Hg Hl (Hwf & Hid & Htimer & HG & Hlen).
  split_and!.
  - by apply (wfTimers_frame s).
  - congruence.
  - by rewrite Ht.
  - by rewrite Hg.
  - rewrite Hl, length_app. lia.
Qed.

(** An add to an open group: it stays open under the same absolute timer,
    or it is flushed there and then.  [B] bounds the time of the flush. *)
Lemma stillOpen_groupAddedElements G D B id n addedElements s :
  G ≠ ∅ → addedElements ≠ ∅ → clock s ≤ B →
  stillOpen G D id n s →
  stillOpen G D id n (groupAddedElements addedElements s)
  ∨ flushedBy G B n (groupAddedElements addedElements s).
Proof.
  intros Hne HX Hc (Hwf & Hid & (ta & Hta & Hida & Hdue) & HG & Hlen).
  destruct (decide (addedElementsGroupMinimumSize
                    < size (groupContents s ∪ addedElements))%nat) as [Hbig|Hsmall].
  - right.
    exists (length (log s)), (clock s), (nextSetRef s), (groupContents s ∪ addedElements).
    split_and!; [done| |done|set_solver].
    rewrite groupAddedElements_log, bool_decide_eq_true_2 by done.
    by rewrite lookup_app_r, Nat.sub_diag by lia.
  - left.
    destruct (groupAddedElements_buffered addedElements s Hsmall) as (Hl & Hsl & Hab).
    destruct (groupAddedElements_heap addedElements s) as (_ & _ & Hcont).
    rewrite bool_decide_eq_false_2 in Hcont by done.
    assert (Hpos : 0 < id).
    { rewrite <- Hida. by apply (wf_timerIds s Hwf). }
    rewrite Hid in Hab. simpl in Hab. replace (id =? 0) with false in Hab by lia.
    simpl in Hab. destruct Hab as [Hab Htimers].
    split_and!.
    + by apply wfTimers_groupAddedElements.
    + done.
    + exists ta. split_and!; [|done..].
      rewrite Htimers. apply elem_of_app. left.
      apply elem_of_timers_clearTimeout. split; [done|].
      intros Heq. symmetry in Heq. rewrite Hida in Heq.
      by eapply (wfTimers_handles_differ s id id).
    + rewrite Hcont. set_solver.
    + by rewrite Hl.
Qed.

Lemma progress_frame G D B id n s s' new :
  timers s' = timers s → nextTimerId s' = nextTimerId s →
  lastAddedElementsGroupSlidingTimeout s' = lastAddedElementsGroupSlidingTimeout s →
  lastAddedElementsGroupAbsoluteTimeout s' = lastAddedElementsGroupAbsoluteTimeout s →
  groupContents s' = groupContents s →
  log s' = log s ++ new →
  stillOpen G D id n s ∨ flushedBy G B n s →
  stillOpen G D id n s' ∨ flushedBy G B n s'.
Proof.
  intros Ht Hn Hs Ha Hg Hl [Hopen|Hdone].
  - left. by eapply stillOpen_frame.
  - right. by eapply flushedBy_mono.
Qed.

Lemma log_groupAddedElements_app addedElements s :
  ∃ new, log (groupAddedElements addedElements s) = log s ++ new.
Proof. eexists. apply groupAddedElements_log. Qed.

Lemma progress_bodyObserverCallback G D B id n mutations observer s :
  G ≠ ∅ → clock s ≤ B →
  stillOpen G D id n s ∨ flushedBy G B n s →
  stillOpen G D id n (bodyObserverCallback mutations observer s)
  ∨ flushedBy G B n (bodyObserverCallback mutations observer s).
Proof.
  intros Hne Hc H. unfold bodyObserverCallback.
  set (c := foldl _ _ _). clearbody c.
  set (s1 := if bool_decide (0 < size (styleChanges c))%nat then _ else _).
  assert (H1 : (stillOpen G D id n s1 ∨ flushedBy G B n s1) ∧ clock s1 = clock s).
  { subst s1. destruct (bool_decide (0 < size (styleChanges c))%nat); (split; [|done]).
    - by apply (progress_frame G D B id n s _ [(clock s, StyleChanged (styleChanges c))]).
    - apply (progress_frame G D B id n s _ []); try done. by rewrite app_nil_r. }
  clearbody s1. destruct H1 as [H1 Hc1].
  set (s2 := if bool_decide (0 < size (childListChanges c))%nat then _ else _).
  assert (H2 : (stillOpen G D id n s2 ∨ flushedBy G B n s2) ∧ clock s2 = clock s).
  { subst s2. destruct (bool_decide (0 < size (childListChanges c))%nat) eqn:Hb; [|done].
    apply bool_decide_eq_true, size_pos_nonempty in Hb. split.
    - destruct H1 as [H1|H1].
      + apply stillOpen_groupAddedElements; try done. lia.
      + right. destruct (log_groupAddedElements_app (childListChanges c) s1) as [new Hnew].
        by eapply flushedBy_mono.
    - destruct (groupAddedElements_surroundings (childListChanges c) s1)
        as (_&_&_&_&_&_&_&->). done. }
  clearbody s2. destruct H2 as [H2 Hc2].
  set (s3 := if bool_decide (0 < size (classChanges c))%nat then _ else _).
  assert (H3 : stillOpen G D id n s3 ∨ flushedBy G B n s3).
  { subst s3. destruct (bool_decide (0 < size (classChanges c))%nat).
    - by apply (progress_frame G D B id n s2 _ [(clock s2, ClassChanged (classChanges c))]).
    - done. }
  clearbody s3.
  destruct (isActive s3); simpl; [done|].
  apply (progress_frame G D B id n s3 _ []); try done. by rewrite app_nil_r.
Qed.

Lemma progress_headObserverCallback G D B id n mutations observer s :
  stillOpen G D id n s ∨ flushedBy G B n s →
  stillOpen G D id n (headObserverCallback mutations observer s)
  ∨ flushedBy G B n (headObserverCallback mutations observer s).
Proof.
  intros H. unfold headObserverCallback. destruct (find _ _) as [m|]; [|done].
  by apply (progress_frame G D B id n s _ [(clock s, StyleSheetsProcessed (target m))]).
Qed.

(** A timer that is not a release leaves the queue. *)
Lemma wfTimers_remove s t :
  wfTimers s → t ∈ timers s → (∀ title, task t ≠ ReleaseTask title) →
  wfTimers (set_timers (filter (λ t', timerId t' ≠ timerId t) (timers s)) s).
Proof.
  intros Hwf Ht Htask.
  set (s1 := set_timers _ s).
  assert (Hsub : ∀ t', t' ∈ timers s1 ↔ t' ∈ timers s ∧ timerId t' ≠ timerId t).
  { intros t'. subst s1. simpl. by rewrite list_elem_of_filter, (comm and). }
  assert (Hother : ∀ t', t' ∈ timers s → (∃ title, task t' = ReleaseTask title) →
                         timerId t' ≠ timerId t).
  { intros t' Ht' [title Htitle] Heq.
    assert (t' = t) by (eapply NoDup_timerId_inj; [apply Hwf|done..]).
    subst t'. by apply (Htask title). }
  constructor.
  - apply Hwf.
  - intros t' [Ht' _]%Hsub. by apply (wf_timerIds s Hwf).
  - subst s1. simpl. apply NoDup_fmap_filter, Hwf.
  - intros t' title [Ht' _]%Hsub Htitle. by apply (wf_release s Hwf).
  - intros h Hh. destruct (wf_sliding s Hwf h Hh) as (t' & Ht' & Hid' & Htask').
    exists t'. split; [|done]. apply Hsub. split; [done|]. apply Hother; eauto.
  - intros h Hh. destruct (wf_absolute s Hwf h Hh) as (t' & Ht' & Hid' & Htask').
    exists t'. split; [|done]. apply Hsub. split; [done|]. apply Hother; eauto.
  - apply (wf_open s Hwf).
Qed.

(** *** The clock *)

Lemma clock_fire s id : clock (fire s id) = clock s.
Proof.
  unfold fire. destruct (list_find _ _) as [[i t]|]; [|done].
  set (s1 := set_timers _ s). change (clock s) with (clock s1). clearbody s1.
  destruct (task t); simpl.
  - by destruct (releaseAddedElementsGroup_surroundings title s1) as (_&_&_&_&_&_&_&?).
  - by destruct (bodyObserverCallback_surroundings mutations doc s1) as (_&_&_&_&_&_&_&?).
  - by destruct (headObserverCallback_surroundings mutations doc s1) as (_&_&_&_&_&_&_&?).
Qed.

Lemma clock_fires s ids : clock (foldl fire s ids) = clock s.
Proof.
  revert s. induction ids as [|id ids IH]; intros s; simpl; [done|].
  by rewrite IH, clock_fire.
Qed.

Lemma clock_tick s : clock (tick s) = clock s + 1.
Proof. unfold tick. by rewrite clock_fires. Qed.

Lemma clock_runTimer id s : clock (runTimer id s) = clock s.
Proof.
  unfold runTimer. destruct (list_find _ _) as [[i t]|]; [|done].
  destruct (bool_decide _); [|done]. apply clock_fire.
Qed.

Lemma clock_stopDocumentObservation doc s :
  clock (stopDocumentObservation doc s).2 = clock s.
Proof. by destruct (stopDocumentObservation_heap doc s) as (_&_&_&_&_&_&_&?). Qed.

Lemma startDocumentUpdateObservation_frame doc s :
  let s' := startDocumentUpdateObservation doc s in
  timers s' = timers s ∧ nextTimerId s' = nextTimerId s
  ∧ lastAddedElementsGroupSlidingTimeout s' = lastAddedElementsGroupSlidingTimeout s
  ∧ lastAddedElementsGroupAbsoluteTimeout s' = lastAddedElementsGroupAbsoluteTimeout s
  ∧ groupContents s' = groupContents s ∧ log s' = log s ∧ clock s' = clock s
  ∧ elementData s' = elementData s.
Proof. unfold startDocumentUpdateObservation. by destruct (documentElement doc). Qed.

Lemma startDocumentObservation_frame doc resumeState s :
  let s' := startDocumentObservation doc resumeState s in
  timers s' = timers s ∧ nextTimerId s' = nextTimerId s
  ∧ lastAddedElementsGroupSlidingTimeout s' = lastAddedElementsGroupSlidingTimeout s
  ∧ lastAddedElementsGroupAbsoluteTimeout s' = lastAddedElementsGroupAbsoluteTimeout s
  ∧ groupContents s' = groupContents s ∧ log s' = log s ∧ clock s' = clock s
  ∧ elementData s' = elementData s.
Proof.
  unfold startDocumentObservation. case_decide; [done|].
  destruct (body doc); [|done].
  destruct (head doc); simpl; [destruct (isComplex s)|]; done.
Qed.

Lemma clock_notify k doc s : clock (notify k doc s) = clock s.
Proof.
  unfold notify. destruct (observersOf k s !! doc) as [o|]; [|done].
  destruct (records o) as [|m ms]; [done|].
  set (s1 := set_observersOf _ _ _).
  assert (Hc : clock s1 = clock s) by (subst s1; by destruct k).
  clearbody s1. rewrite <- Hc. destruct k.
  - done.
  - by destruct (bodyObserverCallback_surroundings (m :: ms) doc s1) as (_&_&_&_&_&_&_&?).
  - by destruct (headObserverCallback_surroundings (m :: ms) doc s1) as (_&_&_&_&_&_&_&?).
Qed.

(** Time passes with [Tick] and [Delay] only. *)
Lemma clock_step s a : clock (step s a) = clock s + elapses a.
Proof.
  destruct a; cbn [step elapses]; rewrite ?Z.add_0_r.
  - by destruct (startDocumentUpdateObservation_frame doc s) as (_&_&_&_&_&_&?&_).
  - unfold stopDocumentUpdateObservation. by destruct (_updateObservers s !! docId doc).
  - by destruct (startDocumentObservation_frame doc resumeState s) as (_&_&_&_&_&_&?&_).
  - apply clock_stopDocumentObservation.
  - unfold beforeSettingsChanged. cbn [isActive set_isComplex set_isActive].
    destruct active; cbn [negb]; [done|]. by rewrite clock_stopDocumentObservation.
  - unfold queueRecord. destruct (observersOf k s !! doc) as [o|]; [|done].
    destruct (interested o m); [|done]. by destruct k.
  - apply clock_notify.
  - apply clock_tick.
  - done.
  - apply clock_runTimer.
  - done.
  - done.
Qed.

Lemma clock_run_le s actions : clock s ≤ clock (run s actions).
Proof.
  revert s. induction actions as [|a actions IH]; intros s; simpl; [lia|].
  etrans; [|apply IH]. rewrite clock_step. destruct a; simpl; lia.
Qed.

Lemma log_fire_app s id : ∃ new, log (fire s id) = log s ++ new.
Proof.
  destruct (extends_fire (λ _, True) (λ _, True)) with (s := s) (id := id)
    as (_ & new & Hnew & _); try done.
  by exists new.
Qed.

Lemma log_step_app s a : ∃ new, log (step s a) = log s ++ new.
Proof.
  destruct (extends_step (λ _, True) (λ _, True)) with (s := s) (a := a)
    as (_ & new & Hnew & _); try done.
  - by destruct a.
  - by exists new.
Qed.

(** *** An open group waits under its absolute timer until it is flushed *)

Lemma progress_fire G D B id n s id' :
  G ≠ ∅ → clock s ≤ B →
  stillOpen G D id n s ∨ flushedBy G B n s →
  (stillOpen G D id n (fire s id') ∧ id' ≠ id) ∨ flushedBy G B n (fire s id').
Proof.
  intros Hne Hc [Hopen|Hdone].
  2: { right. destruct (log_fire_app s id') as [new Hnew]. by eapply flushedBy_mono. }
  destruct Hopen as (Hwf & Hid & (ta & Hta & Hida & Hdue) & HG & Hlen).
  destruct (wf_absolute s Hwf id Hid) as (ta' & Hta' & Hida' & Htaska).
  assert (ta' = ta) by (eapply NoDup_timerId_inj; [apply Hwf|done..|congruence]).
  subst ta'.
  unfold fire. destruct (list_find _ _) as [[i t]|] eqn:Hfind.
  2: { left. split; [by split_and!; eauto|].
       intros Heq. apply list_find_None in Hfind.
       rewrite Forall_forall in Hfind. apply (Hfind ta); [done|congruence]. }
  apply list_find_timer in Hfind as [Ht Hidt].
  set (s1 := set_timers _ s).
  destruct (task t) as [title|doc ms|doc ms] eqn:Htask; simpl.
  - right. apply flushedBy_release; done.
  - assert (Hne' : id' ≠ id).
    { intros Heq.
      assert (t = ta) by (eapply NoDup_timerId_inj; [apply Hwf|done..|congruence]).
      congruence. }
    assert (H1 : stillOpen G D id n s1).
    { split_and!; try done.
      - subst s1. rewrite <- Hidt. apply wfTimers_remove; [done..|]. intros title. congruence.
      - exists ta. split_and!; [|done..]. subst s1. simpl.
        apply list_elem_of_filter. split; [congruence|done]. }
    destruct (progress_bodyObserverCallback G D B id n ms doc s1 Hne Hc (or_introl H1));
      [left|right]; done.
  - assert (Hne' : id' ≠ id).
    { intros Heq.
      assert (t = ta) by (eapply NoDup_timerId_inj; [apply Hwf|done..|congruence]).
      congruence. }
    assert (H1 : stillOpen G D id n s1).
    { split_and!; try done.
      - subst s1. rewrite <- Hidt. apply wfTimers_remove; [done..|]. intros title. congruence.
      - exists ta. split_and!; [|done..]. subst s1. simpl.
        apply list_elem_of_filter. split; [congruence|done]. }
    destruct (progress_headObserverCallback G D B id n ms doc s1 (or_introl H1));
      [left|right]; done.
Qed.

Lemma waiting_fires G D B id n ids s :
  G ≠ ∅ → clock s ≤ B →
  stillOpen G D id n s ∨ flushedBy G B n s →
  stillOpen G D id n (foldl fire s ids) ∨ flushedBy G B n (foldl fire s ids).
Proof.
  intros Hne. revert s. induction ids as [|id' ids IH]; intros s Hc H; simpl; [done|].
  apply IH; [by rewrite clock_fire|].
  destruct (progress_fire G D B id n s id' Hne Hc H) as [[? _]|?]; [by left|by right].
Qed.

Lemma waiting_runTimer G D B id n id' s :
  G ≠ ∅ → clock s ≤ B →
  stillOpen G D id n s ∨ flushedBy G B n s →
  stillOpen G D id n (runTimer id' s) ∨ flushedBy G B n (runTimer id' s).
Proof.
  intros Hne Hc H. unfold runTimer.
  destruct (list_find _ _) as [[i t]|]; [|done].
  destruct (bool_decide _); [|done].
  destruct (progress_fire G D B id n s id' Hne Hc H) as [[? _]|?]; [by left|by right].
Qed.

Lemma stopDocumentObservation_timers doc s t :
  t ∈ timers s → t ∈ timers (stopDocumentObservation doc s).2.
Proof.
  intros Ht. unfold stopDocumentObservation.
  destruct (_bodyObservers s !! docId doc) as [o|]; simpl;
    (destruct (head doc); [|set_solver]); simpl.
  all: destruct (_headObservers s !! docId doc); simpl;
    [destruct (isComplex s)|]; simpl; set_solver.
Qed.

Lemma stillOpen_stopDocumentObservation G D id n doc s :
  stillOpen G D id n s → stillOpen G D id n (stopDocumentObservation doc s).2.
Proof.
  intros (Hwf & Hid & (ta & Hta & Hida & Hdue) & HG & Hlen).
  destruct (stopDocumentObservation_heap doc s) as (Hh & _ & Hg & _ & Ha & Hl & _).
  split_and!.
  - by apply wfTimers_stopDocumentObservation.
  - congruence.
  - exists ta. split_and!; [|done..]. by apply stopDocumentObservation_timers.
  - unfold groupContents. by rewrite Hh, Hg.
  - by rewrite Hl.
Qed.

(** Whatever happens, on time or late: the group stays open under its
    absolute timer until a set holding its elements is published. *)
Lemma waiting_step G D B id n s a :
  G ≠ ∅ → clock (step s a) ≤ B →
  stillOpen G D id n s ∨ flushedBy G B n s →
  stillOpen G D id n (step s a) ∨ flushedBy G B n (step s a).
Proof.
  intros Hne HB [H|H].
  2: { right. destruct (log_step_app s a) as [new Hnew]. by eapply flushedBy_mono. }
  assert (Hc : clock s ≤ B).
  { rewrite clock_step in HB. destruct a; simpl in HB; lia. }
  assert (Hframe : ∀ s', timers s' = timers s → nextTimerId s' = nextTimerId s →
    lastAddedElementsGroupSlidingTimeout s' = lastAddedElementsGroupSlidingTimeout s →
    lastAddedElementsGroupAbsoluteTimeout s' = lastAddedElementsGroupAbsoluteTimeout s →
    groupContents s' = groupContents s → log s' = log s →
    stillOpen G D id n s' ∨ flushedBy G B n s').
  { intros s' ? ? ? ? ? Hl. left.
    apply (stillOpen_frame G D id n s s' []); try done. by rewrite app_nil_r. }
  destruct a; cbn [step].
  - destruct (startDocumentUpdateObservation_frame doc s) as (?&?&?&?&?&?&?&?).
    by apply Hframe.
  - unfold stopDocumentUpdateObservation.
    destruct (_updateObservers s !! docId doc); (apply Hframe; reflexivity).
  - destruct (startDocumentObservation_frame doc resumeState s) as (?&?&?&?&?&?&?&?).
    by apply Hframe.
  - left. by apply stillOpen_stopDocumentObservation.
  - unfold beforeSettingsChanged. cbn [isActive set_isComplex set_isActive].
    destruct active; cbn [negb]; [(apply Hframe; reflexivity)|].
    left. apply stillOpen_stopDocumentObservation.
    apply (stillOpen_frame G D id n s _ []); try done. by rewrite app_nil_r.
  - unfold queueRecord. destruct (observersOf k s !! doc) as [o|]; [|(apply Hframe; reflexivity)].
    destruct (interested o m); [|(apply Hframe; reflexivity)]. destruct k; (apply Hframe; reflexivity).
  - unfold notify.
    destruct (observersOf k s !! doc) as [o|]; [|(apply Hframe; reflexivity)].
    destruct (records o) as [|m ms]; [(apply Hframe; reflexivity)|].
    set (s1 := set_observersOf _ _ _).
    assert (H1 : stillOpen G D id n s1 ∧ clock s1 = clock s).
    { subst s1. split; [|by destruct k].
      destruct k; apply (stillOpen_frame G D id n s _ []); try done;
        by rewrite app_nil_r. }
    clearbody s1. destruct H1 as [H1 Hc1]. destruct k.
    + unfold updateObserverCallback. cbn [lookup list_lookup default from_option].
      left.
      by apply (stillOpen_frame G D id n s1 _ [(clock s1, UpdateChanged (target m))]).
    + apply progress_bodyObserverCallback; [done|lia|by left].
    + apply progress_headObserverCallback. by left.
  - unfold tick. apply waiting_fires; [done|simpl; simpl in HB; rewrite clock_tick in HB; lia|].
    left. apply (stillOpen_frame G D id n s _ []); try done. by rewrite app_nil_r.
  - apply Hframe; reflexivity.
  - apply waiting_runTimer; [done..|by left].
  - apply Hframe; reflexivity.
  - apply Hframe; reflexivity.
Qed.

Lemma waiting_run G D B id n actions s :
  G ≠ ∅ → clock (run s actions) ≤ B →
  stillOpen G D id n s ∨ flushedBy G B n s →
  stillOpen G D id n (run s actions) ∨ flushedBy G B n (run s actions).
Proof.
  intros Hne. revert s.
  induction actions as [|a actions IH]; intros s HB H; [done|].
  simpl. apply IH; [done|]. apply waiting_step; [done| |done].
  etrans; [apply (clock_run_le (step s a) actions)|done].
Qed.

(** *** With timers on time, the flush comes by the deadline *)

Lemma progress_fires G D id n ids s :
  G ≠ ∅ → clock s ≤ D →
  flushedBy G D n s ∨ (stillOpen G D id n s ∧ (clock s = D → id ∈ ids)) →
  flushedBy G D n (foldl fire s ids)
  ∨ (stillOpen G D id n (foldl fire s ids) ∧ clock (foldl fire s ids) < D).
Proof.
  intros Hne. revert s.
  induction ids as [|id' ids IH]; intros s Hc H; simpl.
  - destruct H as [H|[H Hdue]]; [by left|right]. split; [done|].
    destruct (decide (clock s = D)) as [Heq|]; [|lia].
    by apply Hdue, elem_of_nil in Heq.
  - apply IH; [by rewrite clock_fire|].
    destruct H as [H|[H Hdue]].
    + left. destruct (log_fire_app s id') as [new Hnew]. by eapply flushedBy_mono.
    + destruct (progress_fire G D D id n s id' Hne Hc (or_introl H)) as [[H2 Hne']|H2];
        [right|by left].
      split; [done|]. rewrite clock_fire. intros Heq.
      specialize (Hdue Heq). apply elem_of_cons in Hdue as [?|?]; [congruence|done].
Qed.

Lemma progress_tick G D id n s :
  G ≠ ∅ → clock s < D →
  flushedBy G D n s ∨ stillOpen G D id n s →
  flushedBy G D n (tick s) ∨ (stillOpen G D id n (tick s) ∧ clock (tick s) < D).
Proof.
  intros Hne Hc H. unfold tick.
  set (s1 := set_clock _ s).
  apply progress_fires; [done|subst s1; simpl; lia|].
  destruct H as [H|H]; [left|right].
  - apply (flushedBy_mono G D n s _ []); [by rewrite app_nil_r|done].
  - assert (H1 : stillOpen G D id n s1).
    { apply (stillOpen_frame G D id n s _ []); try done. by rewrite app_nil_r. }
    split; [done|]. intros Heq.
    destruct H1 as (_ & _ & (ta & Hta & Hida & Hdue) & _).
    apply list_elem_of_fmap. exists ta. split; [done|].
    apply list_elem_of_filter. split; [lia|done].
Qed.

Lemma progress_step G D id n s a :
  G ≠ ∅ → a ≠ Delay → clock s < D →
  flushedBy G D n s ∨ stillOpen G D id n s →
  flushedBy G D n (step s a)
  ∨ (stillOpen G D id n (step s a) ∧ clock (step s a) < D).
Proof.
  intros Hne Hpunctual Hc H.
  assert (Hcases : a = Tick ∨ elapses a = 0).
  { destruct a; first [by left | by right | done]. }
  destruct Hcases as [->|Hzero]; [by apply progress_tick|].
  assert (Hsame : clock (step s a) = clock s) by (rewrite clock_step; lia).
  destruct (waiting_step G D D id n s a Hne) as [?|?]; [lia|tauto|right|by left].
  split; [done|lia].
Qed.

Lemma progress_run G D id n actions s :
  G ≠ ∅ → Delay ∉ actions →
  flushedBy G D n s ∨ (stillOpen G D id n s ∧ clock s < D) →
  flushedBy G D n (run s actions)
  ∨ (stillOpen G D id n (run s actions) ∧ clock (run s actions) < D).
Proof.
  intros Hne. revert s.
  induction actions as [|a actions IH]; intros s Hpunctual H; [done|].
  apply not_elem_of_cons in Hpunctual as [Ha Hpunctual].
  simpl. apply IH; [done|]. destruct H as [H|[H Hc]].
  - left. destruct (log_step_app s a) as [new Hnew]. by eapply flushedBy_mono.
  - apply progress_step; auto.
Qed.

Lemma flushedBy_published G B s s' :
  flushedBy G B (length (log s)) s' →
  ∃ t r X, (t, ElementsAdded r X) ∈ published s s' ∧ t ≤ B ∧ G ⊆ X.
Proof.
  intros (i & t & r & X & Hi & Hl & Ht & HG). exists t, r, X. split_and!; [|done..].
  unfold published. apply list_elem_of_lookup. exists (i - length (log s))%nat.
  rewrite lookup_drop. by replace (length (log s) + (i - length (log s)))%nat with i by lia.
Qed.

(** *** Every flush cancels the timers *)

Lemma groupAddedElements_big_timers addedElements s t :
  (addedElementsGroupMinimumSize < size (groupContents s ∪ addedElements))%nat →
  t ∈ timers (groupAddedElements addedElements s) →
  t ∈ timers s
  ∧ Some (timerId t) ≠ lastAddedElementsGroupSlidingTimeout s
  ∧ Some (timerId t) ≠ lastAddedElementsGroupAbsoluteTimeout s.
Proof.
  intros Hbig. unfold groupAddedElements, newSet. simpl.
  set (s1 := set_addedElementsGroup _ _).
  assert (Hc : groupContents s1 = groupContents s ∪ addedElements).
  { unfold groupContents at 1. subst s1. simpl. by rewrite lookup_insert_eq. }
  rewrite Hc, bool_decide_eq_true_2 by done.
  rewrite releaseAddedElementsGroup_timers, timers_clearAllTimeouts.
  subst s1. simpl. destruct (lastAddedElementsGroupSlidingTimeout s);
    rewrite ?list_elem_of_filter; intuition congruence.
Qed.

Lemma groupAddedElements_big_handles addedElements s :
  (addedElementsGroupMinimumSize < size (groupContents s ∪ addedElements))%nat →
  lastAddedElementsGroupSlidingTimeout (groupAddedElements addedElements s) = None
  ∧ lastAddedElementsGroupAbsoluteTimeout (groupAddedElements addedElements s) = None.
Proof.
  intros Hbig. unfold groupAddedElements, newSet. simpl.
  set (s1 := set_addedElementsGroup _ _).
  assert (Hc : groupContents s1 = groupContents s ∪ addedElements).
  { unfold groupContents at 1. subst s1. simpl. by rewrite lookup_insert_eq. }
  rewrite Hc, bool_decide_eq_true_2 by done.
  apply releaseAddedElementsGroup_handles.
Qed.

(** The flush by the size threshold. *)
Lemma noReleasePending_groupAddedElements addedElements s :
  wfTimers s →
  (addedElementsGroupMinimumSize < size (groupContents s ∪ addedElements))%nat →
  noReleasePending (groupAddedElements addedElements s).
Proof.
  intros Hwf Hbig.
  destruct (groupAddedElements_big_handles addedElements s Hbig) as [Hs Ha].
  split_and!; [done..|].
  intros t Ht [title Htask].
  apply groupAddedElements_big_timers in Ht as (Ht & Hsl & Hab); [|done].
  destruct (wf_release s Hwf t title Ht Htask) as [[_ ?]|[_ ?]]; congruence.
Qed.

(** The flush by one of the two timers: the timer that runs has left the
    queue, and the release takes the other one out. *)
Lemma noReleasePending_fire id s :
  wfTimers s →
  lastAddedElementsGroupSlidingTimeout s = Some id
  ∨ lastAddedElementsGroupAbsoluteTimeout s = Some id →
  noReleasePending (fire s id).
Proof.
  intros Hwf Hid.
  assert (Hpending : ∃ t title, t ∈ timers s ∧ timerId t = id ∧ task t = ReleaseTask title).
  { destruct Hid as [Hid|Hid].
    - destruct (wf_sliding s Hwf id Hid) as (t & ? & ? & ?). by exists t, TitleSliding.
    - destruct (wf_absolute s Hwf id Hid) as (t & ? & ? & ?). by exists t, TitleAbsolute. }
  destruct Hpending as (t & title & Ht & Hidt & Htask).
  unfold fire. destruct (list_find _ _) as [[i t']|] eqn:Hfind.
  2: { apply list_find_None in Hfind. rewrite Forall_forall in Hfind.
       by destruct (Hfind t Ht). }
  apply list_find_timer in Hfind as [Ht' Hidt'].
  assert (t' = t) by (eapply NoDup_timerId_inj; [apply Hwf|done..|congruence]).
  subst t'. rewrite Htask. cbn [runTask].
  set (s1 := set_timers _ s).
  destruct (releaseAddedElementsGroup_handles title s1) as [Hs Ha].
  split_and!; [done..|].
  intros t2. rewrite releaseAddedElementsGroup_timers, timers_clearAllTimeouts.
  subst s1. cbn [timers set_timers lastAddedElementsGroupSlidingTimeout
                 lastAddedElementsGroupAbsoluteTimeout].
  intros ([_ Ht2]%list_elem_of_filter & Hsl & Hab) [title2 Htask2].
  destruct (wf_release s Hwf t2 title2 Ht2 Htask2) as [[_ ?]|[_ ?]]; congruence.
Qed.

(** The timer the absolute handle names, as a record. *)
Lemma stillOpen_absolute G D id n s :
  stillOpen G D id n s →
  {| timerId := id; due := D; task := ReleaseTask TitleAbsolute |} ∈ timers s.
Proof.
  intros (Hwf & Hid & (ta & Hta & Hida & Hdue) & _).
  destruct (wf_absolute s Hwf id Hid) as (ta' & Hta' & Hida' & Htask).
  assert (ta' = ta) by (eapply NoDup_timerId_inj; [apply Hwf|done..|congruence]).
  subst ta'. destruct ta as [i d k]. simpl in *. by subst.
Qed.

(** Claim C2, as the code has it: the absolute timer is armed by the first
    add to a fresh group, to fall due [addedElementsGroupAbsoluteTimeoutMS]
    (100 ms) later, and a later add that stays at or below the threshold
    leaves it as it is.  Whatever happens afterwards, further adds that
    reset the sliding timer and a platform that is late included, the
    elements of the first add wait in the group under that very timer
    until a set holding them is published, and they are published at the
    latest when the platform runs it.  When every timer runs in the
    millisecond in which it falls due, that is no later than the deadline.
    Each of the three flushes, by the size threshold, by the sliding timer
    and by the absolute timer, clears both handles and leaves no release
    pending. *)
Theorem absolute_timer_bounds_latency (s : DocumentObserver)
    (addedElements : gset positive) (actions : list Action) :
  wfTimers s →
  groupContents s = ∅ →
  addedElements ≠ ∅ →
  (size addedElements ≤ addedElementsGroupMinimumSize)%nat →
  let s1 := groupAddedElements addedElements s in
  let D := clock s + addedElementsGroupAbsoluteTimeoutMS in
  let absolute := {| timerId := nextTimerId s + 1; due := D;
                     task := ReleaseTask TitleAbsolute |} in
  let s2 := run s1 actions in
  (* armed at the first add *)
  (lastAddedElementsGroupAbsoluteTimeout s = None
   ∧ lastAddedElementsGroupAbsoluteTimeout s1 = Some (timerId absolute)
   ∧ absolute ∈ timers s1)
  (* not armed again by a later add below the threshold *)
  ∧ (∀ s' more, wfTimers s' → groupContents s' ≠ ∅ →
       (size (groupContents s' ∪ more) ≤ addedElementsGroupMinimumSize)%nat →
       let s3 := groupAddedElements more s' in
       lastAddedElementsGroupAbsoluteTimeout s3 = lastAddedElementsGroupAbsoluteTimeout s'
       ∧ ∀ t, task t = ReleaseTask TitleAbsolute → t ∈ timers s3 ↔ t ∈ timers s')
  (* whatever happens next: published, or waiting under that very timer *)
  ∧ ((∃ t r X, (t, ElementsAdded r X) ∈ published s s2 ∧ addedElements ⊆ X)
     ∨ (absolute ∈ timers s2
        ∧ lastAddedElementsGroupAbsoluteTimeout s2 = Some (timerId absolute)
        ∧ addedElements ⊆ groupContents s2))
  (* published at the latest when the platform runs the timer *)
  ∧ (D ≤ clock s2 →
     ∃ t r X, (t, ElementsAdded r X) ∈ published s (runTimer (timerId absolute) s2)
              ∧ t ≤ clock s2 ∧ addedElements ⊆ X)
  (* with timers on time, that is by the deadline *)
  ∧ (Delay ∉ actions → D ≤ clock s2 →
     ∃ t r X, (t, ElementsAdded r X) ∈ published s s2 ∧ t ≤ D ∧ addedElements ⊆ X)
  (* each of the three flushes cancels the timers *)
  ∧ (∀ s' more, wfTimers s' →
       (addedElementsGroupMinimumSize < size (groupContents s' ∪ more))%nat →
       noReleasePending (groupAddedElements more s'))
  ∧ (∀ s' id, wfTimers s' →
       lastAddedElementsGroupSlidingTimeout s' = Some id
       ∨ lastAddedElementsGroupAbsoluteTimeout s' = Some id →
       noReleasePending (fire s' id)).
Proof.
  intros Hwf Hfresh Hne Hsmall s1 D absolute s2.
  assert (Hnone : lastAddedElementsGroupAbsoluteTimeout s = None)
    by by apply (wf_open s Hwf).
  assert (Hsmall' : ¬ (addedElementsGroupMinimumSize
                       < size (groupContents s ∪ addedElements))%nat).
  { rewrite Hfresh. replace (∅ ∪ addedElements) with addedElements by set_solver. lia. }
  destruct (groupAddedElements_buffered addedElements s Hsmall') as (Hl & _ & Hab).
  rewrite Hnone in Hab. simpl in Hab. destruct Hab as [Hab Htimers].
  destruct (groupAddedElements_heap addedElements s) as (_ & _ & Hcont).
  rewrite bool_decide_eq_false_2 in Hcont by done.
  fold s1 in Hl, Hab, Htimers, Hcont.
  assert (Hin : absolute ∈ timers s1).
  { rewrite Htimers. apply elem_of_app. right.
    rewrite !elem_of_cons. right. by left. }
  assert (Hopen1 : stillOpen addedElements D (timerId absolute) (length (log s)) s1).
  { split_and!.
    - by apply wfTimers_groupAddedElements.
    - done.
    - by exists absolute.
    - rewrite Hcont. set_solver.
    - by rewrite Hl. }
  assert (Hck : clock s1 = clock s).
  { by destruct (groupAddedElements_surroundings addedElements s) as (_&_&_&_&_&_&_&?). }
  assert (Hwaiting : stillOpen addedElements D (timerId absolute) (length (log s)) s2
                     ∨ flushedBy addedElements (clock s2) (length (log s)) s2).
  { apply waiting_run; [done|reflexivity|by left]. }
  split_and!; try done.
  - (* not re-armed *)
    intros s' more Hwf' Hopen Hsmall2 s3.
    assert (Hsmall2' : ¬ (addedElementsGroupMinimumSize
                          < size (groupContents s' ∪ more))%nat) by lia.
    destruct (groupAddedElements_buffered more s' Hsmall2') as (_ & _ & Hab2).
    destruct (lastAddedElementsGroupAbsoluteTimeout s') as [a|] eqn:Ha.
    2: { by apply (wf_open s' Hwf') in Ha. }
    destruct (wf_absolute s' Hwf' a Ha) as (ta & Hta & Hida & Hka).
    assert (0 < a) by (rewrite <- Hida; by apply (wf_timerIds s' Hwf')).
    cbn [truthy] in Hab2.
    replace (a =? 0) with false in Hab2 by lia. cbn [negb] in Hab2.
    destruct Hab2 as [Hab2 Htimers2]. split; [done|].
    intros t Htask. fold s3 in Htimers2. rewrite Htimers2.
    rewrite elem_of_app, list_elem_of_singleton, elem_of_timers_clearTimeout.
    split.
    + intros [[? _]| ->]; [done|]. simpl in Htask. congruence.
    + intros Ht. left. split; [done|]. intros Heq.
      destruct (wf_release s' Hwf' t _ Ht Htask) as [[? _]|[_ Ht2]]; [done|].
      rewrite Ha in Ht2. injection Ht2 as ->.
      symmetry in Heq. by eapply (wfTimers_handles_differ s' (timerId t) (timerId t)).
  - (* published or waiting *)
    destruct Hwaiting as [Hopen|Hdone].
    + right. pose proof (stillOpen_absolute _ _ _ _ _ Hopen) as Habs.
      destruct Hopen as (_ & Hid & _ & HG & _). done.
    + left. apply flushedBy_published in Hdone as (t & r & X & ? & _ & ?). eauto.
  - (* the platform runs the timer *)
    intros Hdue. apply flushedBy_published.
    destruct Hwaiting as [Hopen|Hdone].
    2: { destruct (log_step_app s2 (RunTimer (timerId absolute))) as [new Hnew].
         by eapply flushedBy_mono. }
    pose proof (stillOpen_absolute _ _ _ _ _ Hopen) as Habs.
    assert (Hwf2 : wfTimers s2) by by destruct Hopen.
    unfold runTimer.
    destruct (list_find _ _) as [[i t']|] eqn:Hfind.
    2: { apply list_find_None in Hfind. rewrite Forall_forall in Hfind.
         by destruct (Hfind _ Habs). }
    apply list_find_timer in Hfind as [Ht' Hidt'].
    assert (t' = {| timerId := timerId absolute; due := D;
                    task := ReleaseTask TitleAbsolute |})
      by (eapply NoDup_timerId_inj; [apply Hwf2|done..]).
    subst t'. cbn [due]. rewrite bool_decide_eq_true_2 by done.
    destruct (progress_fire addedElements D (clock s2) (timerId absolute)
                (length (log s)) s2 (timerId absolute) Hne) as [[_ ?]|?];
      [lia|by left|done|done].
  - (* on time *)
    intros Hpunctual Hlate. apply flushedBy_published.
    destruct (progress_run addedElements D (timerId absolute) (length (log s))
                actions s1 Hne Hpunctual) as [?|[_ ?]]; [|done|subst s2; lia].
    right. split; [done|].
    rewrite Hck. unfold D, addedElementsGroupAbsoluteTimeoutMS. lia.
  - (* the threshold flush *)
    intros s' more Hwf' Hbig. by apply noReleasePending_groupAddedElements.
  - (* the timer flushes *)
    intros s' id Hwf' Hid. by apply noReleasePending_fire.
Qed.

(** ** The targeted update *)

(** Claim C7, as the code has it: a batch delivered to the update observer
    gives exactly one publication on the targeted update channel, of the
    target of the batch's first record, with no throttling, eligibility test
    or buffering; the later records of the batch publish nothing of their
    own. *)
Theorem updateObserverCallback_publishes_first_target (s : DocumentObserver)
    (doc : positive) (o : MutationObserver) (first : MutationRecord)
    (rest : list MutationRecord) :
  _updateObservers s !! doc = Some o →
  records o = first :: rest →
  updateObserverCallback (first :: rest) doc s
    = Some (raise (UpdateChanged (target first)) s)
  ∧ published s (notify UpdateWatcher doc s) = [(clock s, UpdateChanged (target first))]
  ∧ elementData (notify UpdateWatcher doc s) = elementData s
  ∧ timers (notify UpdateWatcher doc s) = timers s.
Proof.
  intros Ho Hr. split; [done|]. unfold notify. simpl. rewrite Ho, Hr. simpl.
  split_and!; try done. by apply published_app.
Qed.

(** Claim C7 as stated fails: of two records delivered together, only the
    first one's target is published.  The batch is the one the update
    observer of the sample document holds after the document's root element
    was replaced and observation was started again. *)
Lemma updateObserverCallback_drops_later_targets :
  ¬ (∀ (s : DocumentObserver) (doc : positive) (o : MutationObserver) (m : MutationRecord),
       _updateObservers s !! doc = Some o → m ∈ records o →
       (clock s, UpdateChanged (target m)) ∈ published s (notify UpdateWatcher doc s)).
Proof.
  intros Hclaim.
  set (s := run sampleObserver
              [StartUpdate sampleDocument; StartUpdate sampleDocumentReplaced;
               Queue UpdateWatcher 1 (attributeRecord 10 "ml-update");
               Queue UpdateWatcher 1 (attributeRecord 20 "ml-update")]).
  specialize (Hclaim s 1%positive
    {| observed := {[10%positive := _updateObserverConfig;
                     20%positive := _updateObserverConfig]};
       records := [attributeRecord 10 "ml-update"; attributeRecord 20 "ml-update"];
       state := None |}
    (attributeRecord 20 "ml-update")).
  assert (Hpub : published s (notify UpdateWatcher 1 s) = [(1000, UpdateChanged 10)])
    by (vm_compute; reflexivity).
  rewrite Hpub in Hclaim.
  assert (Hin : (clock s, UpdateChanged (target (attributeRecord 20 "ml-update")))
                ∈ [(1000, UpdateChanged 10%positive)]).
  { apply Hclaim; [vm_compute; reflexivity|]. simpl. set_solver. }
  apply list_elem_of_singleton in Hin. simpl in Hin. congruence.
Qed.

(** ** The absolute cap and a platform that is late *)

(** Claim C2 as stated fails: the deadline is met only if the platform runs
    the absolute timer on time.  One element is added to the sample body
    every 20 ms, so that the sliding timer never runs; the platform is busy
    in the millisecond in which the absolute timer falls due and runs it one
    millisecond later.  The five elements are published 101 ms after the
    first add. *)
Lemma absolute_cap_is_missed_by_a_late_timer :
  ¬ (∀ (s : DocumentObserver) (addedElements : gset positive) (actions : list Action),
       wfTimers s →
       groupContents s = ∅ →
       addedElements ≠ ∅ →
       (size addedElements ≤ addedElementsGroupMinimumSize)%nat →
       let s1 := groupAddedElements addedElements s in
       let D := clock s + addedElementsGroupAbsoluteTimeoutMS in
       D ≤ clock (run s1 actions) →
       ∃ t r X, (t, ElementsAdded r X) ∈ published s (run s1 actions)
                ∧ t ≤ D ∧ addedElements ⊆ X).
Proof.
  intros Hclaim.
  set (s := run sampleObserver [Start sampleDocument None]).
  destruct (Hclaim s {[1%positive]} steadyAddsLate) as (t & r & X & Hin & Ht & _).
  - apply wf_run, wf_newDocumentObserver.
  - vm_compute. reflexivity.
  - set_solver.
  - vm_compute. lia.
  - vm_compute. discriminate.
  - assert (Hpub : published s (run (groupAddedElements {[1%positive]} s) steadyAddsLate)
                   = [(1101, ElementsAdded 6 {[1; 2; 3; 4; 5]}%positive)])
      by (vm_compute; reflexivity).
    rewrite Hpub in Hin. apply list_elem_of_singleton in Hin.
    injection Hin as -> _ _. revert Ht. vm_compute. intros Ht. by apply Ht.
Qed.

(** ** The throttle is never lifted *)

(** Claim C3 as stated fails.  An element at the limit whose last stamp is 100 ms old: the record does
    not collide, and still it is dropped and the count stays where it is. *)
Lemma throttle_is_never_lifted :
  ¬ (∀ (s : DocumentObserver) (observer e : positive),
       maxMutationsCount ≤ throttledCount s e →
       eligible (getElement (elementData s) e) = true →
       collides (clock s) (getElement (elementData s) e) = false →
       let s' := bodyObserverCallback [attributeRecord e "class"] observer s in
       throttledCount s' e < maxMutationsCount
       ∧ ∃ X, (clock s, ClassChanged X) ∈ published s s' ∧ e ∈ X).
Proof.
  intros Hclaim.
  set (s := run sampleObserver (Touch 5 (trackedElement 1000 (Some 300)) :: replicate 100 Tick)).
  destruct (Hclaim s 1%positive 5%positive) as [Hcount _].
  - vm_compute. discriminate.
  - vm_compute. reflexivity.
  - vm_compute. reflexivity.
  - revert Hcount. vm_compute. discriminate.
Qed.

(** ** The theorems at work on the sample observer *)

Lemma wfTimers_sample actions : wfTimers (run sampleObserver actions).
Proof. apply wf_run, wf_newDocumentObserver. Qed.

Lemma groupAddedElements_flushes_large_group_witness :
  log (groupAddedElements fiftyOne sampleObserver) = [(1000, ElementsAdded 2 fiftyOne)]
  ∧ timers (groupAddedElements fiftyOne sampleObserver) = [].
Proof.
  destruct (groupAddedElements_flushes_large_group fiftyOne sampleObserver)
    as (Hlog & _ & _ & _ & Htimers & _).
  - vm_compute. lia.
  - split.
    + rewrite Hlog. vm_compute. reflexivity.
    + destruct (timers (groupAddedElements fiftyOne sampleObserver)) as [|t ts]; [done|].
      destruct (Htimers t) as [Hin _]; [set_solver|]. by apply elem_of_nil in Hin.
Defined.

Lemma Delay_not_in_steadyAddsOnTime : Delay ∉ steadyAddsOnTime.
Proof.
  assert (Hticks : ∀ n, Delay ∉ replicate n Tick).
  { intros n [? _]%elem_of_replicate. discriminate. }
  assert (Hadd : ∀ e, Delay ∉ anotherElement e).
  { intros e. unfold anotherElement. rewrite not_elem_of_app. split; [done|].
    rewrite !not_elem_of_cons. split_and!; [discriminate..|apply not_elem_of_nil]. }
  unfold steadyAddsOnTime, steadyAdds. rewrite !not_elem_of_app. split_and!; done.
Qed.

Lemma absolute_timer_bounds_latency_witness :
  let s := run sampleObserver [Start sampleDocument None] in
  let s2 := run (groupAddedElements {[1%positive]} s) steadyAddsOnTime in
  (∃ t r X, (t, ElementsAdded r X) ∈ published s s2 ∧ t ≤ 1100 ∧ {[1%positive]} ⊆ X)
  ∧ published s s2 = [(1100, ElementsAdded 6 {[1; 2; 3; 4; 5]}%positive)]
  ∧ timers (run (groupAddedElements {[1%positive]} s) (steadyAdds ++ replicate 19 Tick))
    = [{| timerId := 2; due := 1100; task := ReleaseTask TitleAbsolute |};
       {| timerId := 6; due := 1110; task := ReleaseTask TitleSliding |}].
Proof.
  intros s s2. split; [|split; vm_compute; reflexivity].
  destruct (absolute_timer_bounds_latency s {[1%positive]} steadyAddsOnTime)
    as (_ & _ & _ & _ & H & _).
  - apply wfTimers_sample.
  - vm_compute. reflexivity.
  - set_solver.
  - vm_compute. lia.
  - apply H.
    + apply Delay_not_in_steadyAddsOnTime.
    + vm_compute. discriminate.
Defined.

Lemma throttled_element_stays_ignored_witness :
  let s := step sampleObserver (Touch 5 (trackedElement 1000 (Some 300))) in
  let s' := run s [Start sampleDocument None;
                   Queue BodyWatcher 1 (attributeRecord 5 "class");
                   Tick; Notify BodyWatcher 1] in
  maxMutationsCount ≤ throttledCount s' 5.
Proof.
  intros s s'.
  apply (throttled_element_stays_ignored s 5
           [Start sampleDocument None; Queue BodyWatcher 1 (attributeRecord 5 "class");
            Tick; Notify BodyWatcher 1]).
  - vm_compute. discriminate.
  - repeat constructor; intros d; discriminate.
Defined.

Lemma updateObserverCallback_publishes_first_target_witness :
  let s := run sampleObserver
             [StartUpdate sampleDocument;
              Queue UpdateWatcher 1 (attributeRecord 10 "ml-update");
              Queue UpdateWatcher 1 (attributeRecord 10 "ml-update")] in
  published s (notify UpdateWatcher 1 s) = [(1000, UpdateChanged 10)].
Proof.
  intros s.
  destruct (updateObserverCallback_publishes_first_target s 1
              {| observed := {[10%positive := _updateObserverConfig]};
                 records := [attributeRecord 10 "ml-update";
                             attributeRecord 10 "ml-update"];
                 state := None |}
              (attributeRecord 10 "ml-update") [attributeRecord 10 "ml-update"])
    as (_ & H & _).
  - vm_compute. reflexivity.
  - reflexivity.
  - exact H.
Defined.

Lemma stopDocumentObservation_defers_drain_witness :
  let s := run sampleObserver [Start sampleDocument None;
                               Queue BodyWatcher 1 (attributeRecord 11 "class")] in
  (stopDocumentObservation sampleDocument s).1 = Some Active
  ∧ log (stopDocumentObservation sampleDocument s).2 = [].
Proof.
  intros s.
  destruct (stopDocumentObservation_defers_drain sampleDocument s
              {| observed := {[11%positive := _bodyObserverConfig]};
                 records := [attributeRecord 11 "class"];
                 state := Some Active |}) as (H1 & _ & H2 & _).
  - vm_compute. reflexivity.
  - split; [exact H1|exact H2].
Defined.

Lemma stopDocumentObservation_idempotent_witness :
  let s := run sampleObserver [Start sampleDocument None; Stop sampleDocument] in
  (stopDocumentObservation sampleDocument s).1 = Some Stopped
  ∧ log (stopDocumentObservation sampleDocument s).2 = log s.
Proof.
  intros s.
  destruct (stopDocumentObservation_idempotent sampleDocument s
              {| observed := ∅; records := []; state := Some Stopped |})
    as (H1 & _ & H2 & _).
  - apply wf_run, wf_newDocumentObserver.
  - vm_compute. reflexivity.
  - reflexivity.
  - split; [exact H1|exact H2].
Defined.

Lemma attribute_record_classification_witness :
  let s := step sampleObserver (Touch 5 (trackedElement 1000 None)) in
  published s (bodyObserverCallback [attributeRecord 5 "style"] 1 s)
  = [(1000, StyleChanged {[5%positive]})].
Proof.
  intros s.
  destruct (attribute_record_classification s 1 (attributeRecord 5 "style")) as [_ H].
  - reflexivity.
  - rewrite H. vm_compute. reflexivity.
Defined.

Lemma releaseAddedElementsGroup_hands_out_live_set_witness :
  let s := groupAddedElements {[1%positive]} sampleObserver in
  published s (releaseAddedElementsGroup TitleSliding s)
    = [(1000, ElementsAdded 2 {[1%positive]})]
  ∧ setHeap (releaseAddedElementsGroup TitleSliding s) !! 2%positive = Some ∅.
Proof.
  intros s.
  destruct (releaseAddedElementsGroup_hands_out_live_set TitleSliding s)
    as (H1 & _ & _ & H2 & _).
  - apply wfHeap_groupAddedElements, wf_newDocumentObserver.
  - vm_compute. discriminate.
  - split; [rewrite H1; vm_compute; reflexivity|exact H2].
Defined.

Lemma stopDocumentObservation_never_started_witness :
  stopDocumentObservation sampleDocument sampleObserver = (None, sampleObserver).
Proof.
  apply stopDocumentObservation_never_started.
  - apply wf_newDocumentObserver.
  - reflexivity.
Defined.

(** * Further properties of the life cycle *)

Lemma stopDocumentObservation_bodyObservers_other doc s d :
  d ≠ docId doc →
  _bodyObservers (stopDocumentObservation doc s).2 !! d = _bodyObservers s !! d.
Proof.
  intros Hd. unfold stopDocumentObservation.
  destruct (_bodyObservers s !! docId doc) as [o|]; simpl;
    (destruct (head doc); simpl; [|by rewrite ?lookup_insert_ne]).
  all: destruct (_headObservers s !! docId doc); simpl;
    [destruct (isComplex s)|]; simpl; by rewrite ?lookup_insert_ne.
Qed.

Lemma stopDocumentObservation_bodyObservers_None doc s :
  _bodyObservers s !! docId doc = None →
  _bodyObservers (stopDocumentObservation doc s).2 !! docId doc = None.
Proof.
  intros Ho. unfold stopDocumentObservation. rewrite Ho.
  destruct (head doc); simpl; [|done].
  destruct (_headObservers s !! docId doc); simpl; [destruct (isComplex s)|]; done.
Qed.

Lemma stopDocumentObservation_settings doc s :
  let s' := (stopDocumentObservation doc s).2 in
  isActive s' = isActive s ∧ isComplex s' = isComplex s
  ∧ _rootDocument s' = _rootDocument s ∧ rootTimestamp s' = rootTimestamp s
  ∧ _updateObservers s' = _updateObservers s.
Proof.
  unfold stopDocumentObservation.
  destruct (_bodyObservers s !! docId doc) as [o|]; simpl;
    (destruct (head doc); [|done]); simpl.
  all: destruct (_headObservers s !! docId doc); [|done]; simpl.
  all: destruct (isComplex s) eqn:E; simpl; rewrite ?E; done.
Qed.

(** Stopping and resuming with the state that stopping returned: an
    observer that was active observes the body again and is active; one
    that was stopped stays stopped and nothing is registered.  If the
    document has lost its body in the meantime, the start of an observer
    that was active fails and leaves it stopped. *)
Theorem stop_then_resume (doc : Document) (s : DocumentObserver)
    (bodyObserver : MutationObserver) (st : ObservationState) :
  _bodyObservers s !! docId doc = Some bodyObserver →
  state bodyObserver = Some st →
  let stopped := stopDocumentObservation doc s in
  let resumed := startDocumentObservation doc stopped.1 stopped.2 in
  _bodyObservers resumed !! docId doc =
    Some {| observed :=
              match st, body doc with
              | Active, Some docBody =>
                  {[docBody := if isComplex s then _bodyObserverConfig
                               else _simpleBodyObserverConfig]}
              | _, _ => ∅
              end;
            records := [];
            state := Some match st, body doc with
                          | Active, Some _ => Active
                          | _, _ => Stopped
                          end |}
  ∧ (st = Stopped → resumed = stopped.2).
Proof.
  intros Ho Hst stopped resumed.
  destruct (stopDocumentObservation_body doc s bodyObserver Ho) as [Hr Hb].
  fold stopped in Hr, Hb.
  assert (Hcomplex : isComplex stopped.2 = isComplex s).
  { by destruct (stopDocumentObservation_settings doc s) as (_&?&_). }
  subst resumed. clearbody stopped. destruct stopped as [r s1]. simpl in *.
  unfold startDocumentObservation. rewrite Hr, Hst.
  destruct st.
  - rewrite decide_False by done. rewrite Hb, Hcomplex. split; [|done].
    destruct (body doc) as [docBody|]; [|simpl; by rewrite lookup_insert_eq].
    destruct (head doc); simpl; rewrite ?Hcomplex; destruct (isComplex s); simpl;
      rewrite lookup_insert_eq; unfold with_state, observe; simpl;
      by rewrite insert_empty.
  - rewrite decide_True by done. split; [|done]. rewrite Hb. by destruct (body doc).
Qed.

(** Starting observation twice is the same as starting it once: a document
    never gets a second observer of a kind, and the registration is the
    same. *)
Theorem startDocumentObservation_idempotent (doc : Document)
    (resumeState : option ObservationState) (s : DocumentObserver) :
  startDocumentObservation doc resumeState (startDocumentObservation doc resumeState s)
  = startDocumentObservation doc resumeState s.
Proof.
  unfold startDocumentObservation. case_decide; [done|].
  destruct (body doc) as [docBody|].
  2: { simpl. rewrite lookup_insert_eq. simpl.
       unfold set_bodyObservers. simpl. by rewrite insert_insert_eq. }
  destruct (head doc) as [h|]; simpl.
  - destruct (isComplex s) eqn:Hc; simpl; rewrite ?Hc; simpl.
    + rewrite !lookup_insert_eq. simpl. rewrite !insert_insert_eq.
      unfold set_headObservers, set_bodyObservers, with_state, observe. simpl.
      by rewrite !insert_insert_eq.
    + rewrite !lookup_insert_eq. simpl. rewrite !insert_insert_eq.
      unfold set_bodyObservers, with_state, observe. simpl.
      by rewrite !insert_insert_eq.
  - rewrite !lookup_insert_eq. simpl. rewrite !insert_insert_eq.
    unfold set_bodyObservers, with_state, observe. simpl.
    by rewrite !insert_insert_eq.
Qed.

Lemma interested_disconnected m st :
  interested {| observed := ∅; records := []; state := st |} m = false.
Proof.
  unfold interested. simpl. apply bool_decide_eq_false_2, map_Exists_empty_false.
Qed.

(** Once a watcher is stopped, the platform queues no record for it and
    delivers none, until it is started again; the same holds for the update
    watcher. *)
Theorem stopped_watchers_receive_nothing (doc : Document) (s : DocumentObserver)
    (m : MutationRecord) :
  (let s' := (stopDocumentObservation doc s).2 in
   queueRecord BodyWatcher (docId doc) m s' = s'
   ∧ notify BodyWatcher (docId doc) s' = s')
  ∧ (let s' := stopDocumentUpdateObservation doc s in
     queueRecord UpdateWatcher (docId doc) m s' = s'
     ∧ notify UpdateWatcher (docId doc) s' = s').
Proof.
  split.
  - intros s'. unfold queueRecord, notify. simpl.
    destruct (_bodyObservers s !! docId doc) as [o|] eqn:Ho.
    + destruct (stopDocumentObservation_body doc s o Ho) as [_ Hb].
      fold s' in Hb. rewrite Hb. by rewrite interested_disconnected.
    + apply stopDocumentObservation_bodyObservers_None in Ho.
      fold s' in Ho. by rewrite Ho.
  - intros s'. subst s'. unfold stopDocumentUpdateObservation, queueRecord, notify.
    destruct (_updateObservers s !! docId doc) as [o|] eqn:Ho; simpl.
    + rewrite lookup_insert_eq. unfold disconnect. by rewrite interested_disconnected.
    + by rewrite Ho.
Qed.

(** When the settings are switched off, the listener stops the root
    document at once; when they stay on, it does nothing. *)
Theorem beforeSettingsChanged_stops_root (s : DocumentObserver) (complex : bool)
    (bodyObserver : MutationObserver) :
  _bodyObservers s !! docId (_rootDocument s) = Some bodyObserver →
  _bodyObservers (step s (SettingsChanged false complex)) !! docId (_rootDocument s)
    = Some {| observed := ∅; records := []; state := Some Stopped |}
  ∧ step s (SettingsChanged true complex) = set_isComplex complex (set_isActive true s).
Proof.
  intros Ho. split; [|done]. simpl. unfold beforeSettingsChanged. simpl.
  by destruct (stopDocumentObservation_body (_rootDocument s)
                 (set_isComplex complex (set_isActive false s)) bodyObserver Ho)
    as [_ ?].
Qed.

(** * Further properties of the classification *)

Lemma foldl_addedNodes (A : gset positive) (nodes : list Node) :
  foldl (λ added node,
           match node with
           | ElementNode e => {[e]} ∪ added
           | OtherNode => added
           end) A nodes
  = A ∪ list_to_set (omap nodeElement nodes).
Proof.
  revert A. induction nodes as [|x nodes IH]; intros A; simpl.
  - set_solver.
  - rewrite IH. destruct x; simpl; set_solver.
Qed.

Lemma onMutation_childListChanges complex now acc m :
  childListChanges (onMutation complex now acc m)
  = childListChanges acc ∪ list_to_set (addedElementsOf m).
Proof.
  unfold addedElementsOf. destruct (type m) eqn:Hty.
  - destruct (onMutation_attributes complex now acc m Hty) as (_ & _ & -> & _).
    set_solver.
  - unfold onMutation. rewrite Hty. simpl. apply foldl_addedNodes.
  - unfold onMutation. rewrite Hty. set_solver.
Qed.

(** The added elements of a batch: exactly the element nodes the child list
    records of the batch report, each once; text and comment nodes, and
    records of other types, add nothing. *)
Theorem classified_childListChanges (mutations : list MutationRecord) (s : DocumentObserver) :
  childListChanges (classified mutations s)
  = list_to_set (mutations ≫= addedElementsOf).
Proof.
  unfold classified.
  assert (H : ∀ acc,
    childListChanges (foldl (onMutation (isComplex s) (clock s)) acc mutations)
    = childListChanges acc ∪ list_to_set (mutations ≫= addedElementsOf)).
  { induction mutations as [|m ms IH]; intros acc; simpl.
    - set_solver.
    - rewrite IH, onMutation_childListChanges, list_to_set_app_L. set_solver. }
  rewrite H. simpl. set_solver.
Qed.

Lemma classified_styleChanges_simple mutations s :
  isComplex s = false → styleChanges (classified mutations s) = ∅.
Proof.
  intros Hsimple. unfold classified. rewrite Hsimple.
  assert (H : ∀ acc, styleChanges acc = ∅ →
    styleChanges (foldl (onMutation false (clock s)) acc mutations) = ∅).
  { induction mutations as [|m ms IH]; intros acc Hacc; simpl; [done|].
    apply IH. destruct (type m) eqn:Hty.
    - destruct (onMutation_attributes false (clock s) acc m Hty) as (_ & -> & _).
      by rewrite andb_false_r.
    - unfold onMutation. by rewrite Hty.
    - unfold onMutation. by rewrite Hty. }
  by apply H.
Qed.

(** In simple mode a callback never publishes a style change, whatever the
    batch holds. *)
Theorem simple_mode_publishes_no_style_change (mutations : list MutationRecord)
    (observer : positive) (s : DocumentObserver) (t : Z) (X : gset positive) :
  isComplex s = false →
  (t, StyleChanged X) ∉ published s (bodyObserverCallback mutations observer s).
Proof.
  intros Hsimple.
  rewrite (published_app _ _ _ (bodyObserverCallback_log mutations observer s)).
  rewrite (classified_styleChanges_simple _ _ Hsimple), size_empty.
  rewrite (bool_decide_eq_false_2 (0 < 0)%nat) by lia. simpl.
  intros [Hin|Hin]%elem_of_app.
  - destruct (_ && _); [|by apply elem_of_nil in Hin].
    apply list_elem_of_singleton in Hin. congruence.
  - destruct (bool_decide _); [|by apply elem_of_nil in Hin].
    apply list_elem_of_singleton in Hin. congruence.
Qed.

Lemma getElement_insert_eq els e d : getElement (<[e := d]> els) e = d.
Proof. unfold getElement. by rewrite lookup_insert_eq. Qed.

Lemma getElement_insert_ne els e e' d :
  e ≠ e' → getElement (<[e := d]> els) e' = getElement els e'.
Proof. intros He. unfold getElement. by rewrite lookup_insert_ne. Qed.

(** The throttle count after a batch. *)
Lemma collides_countThrottled now d :
  collides now (countThrottled now d) = collides now d.
Proof. unfold countThrottled. by destruct (collides now d) eqn:E. Qed.

Lemma foldl_onMutation_count complex now e mutations :
  ∀ acc,
    let d := getElement (touched acc) e in
    let d' := getElement (touched (foldl (onMutation complex now) acc mutations)) e in
    collides now d' = collides now d
    ∧ orZero (mlMutationThrottledCount d')
      = orZero (mlMutationThrottledCount d)
        + (if collides now d
           then Z.of_nat (length (attributeRecordsFor e mutations)) else 0).
Proof.
  induction mutations as [|m ms IH]; intros acc d d'; subst d d'.
  { simpl. split; [done|]. destruct (collides _ _); lia. }
  cbn [foldl]. specialize (IH (onMutation complex now acc m)).
  cbn zeta in IH. destruct IH as [IHc IHn]. rewrite IHc, IHn. clear IHc IHn.
  unfold attributeRecordsFor. rewrite filter_cons.
  set (d := getElement (touched acc) e).
  destruct (type m) eqn:Hty.
  - destruct (onMutation_attributes complex now acc m Hty) as (_ & _ & _ & ->).
    destruct (decide (target m = e)) as [He|He].
    + rewrite decide_True by done. rewrite He. fold d.
      destruct (collides now d) eqn:Hcol.
      * rewrite !getElement_insert_eq.
        rewrite collides_countThrottled, Hcol, countThrottled_count, Hcol.
        split; [done|]. cbn [length]. lia.
      * fold d. rewrite Hcol. done.
    + rewrite decide_False by tauto.
      assert (Hsame : getElement
                (if collides now (getElement (touched acc) (target m))
                 then <[target m := countThrottled now (getElement (touched acc) (target m))]>
                        (touched acc)
                 else touched acc) e = d).
      { destruct (collides now _); [|done]. by rewrite getElement_insert_ne. }
      by rewrite Hsame.
  - rewrite decide_False by (intros [? _]; congruence).
    unfold onMutation. rewrite Hty. done.
  - rewrite decide_False by (intros [? _]; congruence).
    unfold onMutation. rewrite Hty. done.
Qed.

Lemma throttledCount_bodyObserverCallback mutations observer s e :
  throttledCount (bodyObserverCallback mutations observer s) e
  = orZero (mlMutationThrottledCount (getElement (touched (classified mutations s)) e)).
Proof.
  unfold bodyObserverCallback. fold (classified mutations s).
  set (c := classified mutations s). clearbody c.
  set (s0 := set_elementData (touched c) s).
  assert (H0 : throttledCount s0 e
               = orZero (mlMutationThrottledCount (getElement (touched c) e))) by done.
  clearbody s0.
  set (s1 := if bool_decide (0 < size (styleChanges c))%nat then _ else _).
  assert (H1 : throttledCount s1 e = throttledCount s0 e).
  { subst s1. by destruct (bool_decide _). }
  clearbody s1.
  set (s2 := if bool_decide (0 < size (childListChanges c))%nat then _ else _).
  assert (H2 : throttledCount s2 e = throttledCount s1 e).
  { subst s2. destruct (bool_decide _); [|done].
    destruct (groupAddedElements_elementData (childListChanges c) s1) as [He|He].
    - unfold throttledCount. by rewrite He.
    - rewrite <- (hideElements_count (childListChanges c) s1 e).
      unfold throttledCount. by rewrite He. }
  clearbody s2.
  set (s3 := if bool_decide (0 < size (classChanges c))%nat then _ else _).
  assert (H3 : throttledCount s3 e = throttledCount s2 e).
  { subst s3. by destruct (bool_decide _). }
  clearbody s3.
  replace (throttledCount (if negb (isActive s3) then _ else s3) e)
    with (throttledCount s3 e) by by destruct (isActive s3).
  congruence.
Qed.

(** Every attribute record that arrives within the throttle window of its
    target's time stamp is counted, whether or not it is published; a
    record outside the window, or of another type, is not.  The count is a
    JavaScript number, and the sum is exact within the safe integers. *)
Theorem throttle_counts_colliding_records (mutations : list MutationRecord)
    (observer : positive) (s : DocumentObserver) (e : positive) :
  - Number_MAX_SAFE_INTEGER ≤ throttledCount s e →
  throttledCount s e + Z.of_nat (length (attributeRecordsFor e mutations))
    ≤ Number_MAX_SAFE_INTEGER →
  throttledCount (bodyObserverCallback mutations observer s) e
  = throttledCount s e
    + (if collides (clock s) (getElement (elementData s) e)
       then Z.of_nat (length (attributeRecordsFor e mutations)) else 0).
Proof.
  intros _ _.
  rewrite throttledCount_bodyObserverCallback. unfold classified.
  destruct (foldl_onMutation_count (isComplex s) (clock s) e mutations
              (mkChanges ∅ ∅ ∅ (elementData s))) as [_ H].
  apply H.
Qed.

(** ** The head observer *)

(** A batch makes the style sheets be processed at most once, and exactly
    when one of its records adds a style element that is not marked
    [mlIgnore]; nothing else changes. *)
Theorem headObserverCallback_processes_once (mutations : list MutationRecord)
    (observer : positive) (s : DocumentObserver) :
  let s' := headObserverCallback mutations observer s in
  let triggers m := existsb (isNewStyleElement (elementData s)) (addedNodes m) in
  (published s s' = [] ↔ Forall (λ m, triggers m = false) mutations)
  ∧ (length (published s s') ≤ 1)%nat
  ∧ (∀ entry, entry ∈ published s s' →
       ∃ m, m ∈ mutations ∧ triggers m = true
            ∧ entry = (clock s, StyleSheetsProcessed (target m)))
  ∧ s' = set_log (log s') s.
Proof.
  intros s' triggers. subst s'. unfold headObserverCallback.
  fold triggers. destruct (find triggers mutations) as [m|] eqn:Hfind.
  - apply find_some in Hfind as [Hin Htrig].
    rewrite (published_app s _ [(clock s, StyleSheetsProcessed (target m))]) by done.
    split_and!.
    + split; [done|]. intros Hall. rewrite Forall_forall in Hall.
      apply list_elem_of_In in Hin. rewrite (Hall m Hin) in Htrig. done.
    + simpl. lia.
    + intros entry ->%list_elem_of_singleton. exists m.
      split_and!; [by apply list_elem_of_In|done..].
    + by destruct s.
  - rewrite (published_app s s []) by by rewrite app_nil_r.
    split_and!.
    + split; [|done]. intros _. apply Forall_forall. intros m Hin.
      apply list_elem_of_In in Hin.
      destruct (triggers m) eqn:Htrig; [|done].
      by rewrite (find_none _ _ Hfind m Hin) in Htrig.
    + simpl. lia.
    + intros entry Hin. by apply elem_of_nil in Hin.
    + by destruct s.
Qed.

(** * Further properties of the accumulator *)

(** ** Hiding buffered elements *)

Lemma getElement_hideElement tag els e :
  getElement (hideElement tag els) e
  = if decide (e = tag) then hidden (getElement els e) else getElement els e.
Proof.
  unfold hideElement, hidden. destruct (decide (e = tag)) as [->|He].
  - destruct (_ && _); [|done]. by rewrite getElement_insert_eq.
  - destruct (_ && _); [|done]. by rewrite getElement_insert_ne.
Qed.

Lemma getElement_hideElements X s e :
  getElement (elementData (hideElements X s)) e
  = if bool_decide (e ∈ X) then hidden (getElement (elementData s) e)
    else getElement (elementData s) e.
Proof.
  unfold hideElements. simpl.
  set (P := λ (els : gmap positive ElementData) (Y : gset positive),
              getElement els e =
              if bool_decide (e ∈ Y) then hidden (getElement (elementData s) e)
              else getElement (elementData s) e).
  change (P (set_fold hideElement (elementData s) X) X).
  apply set_fold_ind_L; subst P; simpl.
  - by rewrite bool_decide_eq_false_2 by set_solver.
  - intros x Y els Hx IH. rewrite getElement_hideElement.
    destruct (decide (e = x)) as [<-|He].
    + rewrite IH, (bool_decide_eq_false_2 (e ∈ Y)) by done.
      by rewrite bool_decide_eq_true_2 by set_solver.
    + rewrite IH. destruct (bool_decide (e ∈ Y)) eqn:HY.
      * apply bool_decide_eq_true in HY. by rewrite bool_decide_eq_true_2 by set_solver.
      * apply bool_decide_eq_false in HY. by rewrite bool_decide_eq_false_2 by set_solver.
Qed.

Lemma getElement_groupAddedElements (addedElements : gset positive) (s : DocumentObserver)
    (e : positive) :
  getElement (elementData (groupAddedElements addedElements s)) e
  = if negb (bool_decide (addedElementsGroupMinimumSize
                          < size (groupContents s ∪ addedElements))%nat)
       && processingForLong s && bool_decide (e ∈ addedElements)
    then hidden (getElement (elementData s) e)
    else getElement (elementData s) e.
Proof.
  unfold groupAddedElements, newSet. simpl.
  set (s1 := set_addedElementsGroup _ _).
  assert (Hc : groupContents s1 = groupContents s ∪ addedElements).
  { unfold groupContents at 1. subst s1. simpl. by rewrite lookup_insert_eq. }
  assert (He : elementData s1 = elementData s) by done.
  assert (Hp : processingForLong s1 = processingForLong s) by done.
  rewrite Hc. clearbody s1.
  destruct (bool_decide (addedElementsGroupMinimumSize
                         < size (groupContents s ∪ addedElements))%nat); cbn [negb andb].
  - by rewrite releaseAddedElementsGroup_elementData, He.
  - rewrite <- Hp. destruct (processingForLong s1); cbn [andb].
    + replace (getElement (elementData _) e)
        with (getElement (elementData (hideElements addedElements s1)) e)
        by by destruct (negb _).
      by rewrite getElement_hideElements, He.
    + rewrite <- He. by destruct (negb _).
Qed.

Lemma processingForLong_groupAddedElements addedElements s :
  processingForLong (groupAddedElements addedElements s) = processingForLong s.
Proof.
  destruct (groupAddedElements_surroundings addedElements s) as (_&Hr&_&_&_&_&_&Hc).
  unfold processingForLong. by rewrite Hr, Hc.
Qed.

(** An add hides exactly the elements it brings, and only when it buffers
    them and the document has been processed for more than three seconds;
    an element that is neither an HTML nor an SVG element, or carries the
    class [ml-ignore], is left alone, and so is every other element. *)
Theorem groupAddedElements_hides (addedElements : gset positive) (s : DocumentObserver)
    (e : positive) :
  let d := getElement (elementData s) e in
  let buffers := negb (bool_decide (addedElementsGroupMinimumSize
                                    < size (groupContents s ∪ addedElements))%nat) in
  getElement (elementData (groupAddedElements addedElements s)) e
  = if buffers && processingForLong s && bool_decide (e ∈ addedElements)
       && isHTMLOrSVGElement d && negb (hasMlIgnoreClass d)
    then with_visibility "hidden"
           (Some (if decide (visibility d = ""%string) then "none"%string
                  else visibility d)) d
    else d.
Proof.
  intros d buffers. rewrite getElement_groupAddedElements. fold d buffers.
  unfold hidden. fold d.
  destruct (buffers && processingForLong s && bool_decide (e ∈ addedElements));
    cbn [andb]; [|done].
  by destruct (isHTMLOrSVGElement d && negb (hasMlIgnoreClass d)) eqn:E;
    rewrite ?E; destruct (isHTMLOrSVGElement d), (negb (hasMlIgnoreClass d)).
Qed.

(** An element that two adds bring while it is buffered has lost its
    original visibility: the second add records [hidden] as the original. *)
Theorem buffering_twice_forgets_visibility (first second : gset positive)
    (s : DocumentObserver) (e : positive) :
  (size (groupContents s ∪ first ∪ second) ≤ addedElementsGroupMinimumSize)%nat →
  processingForLong s = true →
  e ∈ first → e ∈ second →
  isHTMLOrSVGElement (getElement (elementData s) e) = true →
  hasMlIgnoreClass (getElement (elementData s) e) = false →
  let d' := getElement
              (elementData (groupAddedElements second (groupAddedElements first s))) e in
  visibility d' = "hidden"%string ∧ originalVisibility d' = Some "hidden"%string.
Proof.
  intros Hsize Hlong H1 H2 Hk Hi d'. subst d'.
  assert (Hsmall1 : ¬ (addedElementsGroupMinimumSize
                       < size (groupContents s ∪ first))%nat).
  { assert (size (groupContents s ∪ first) ≤ size (groupContents s ∪ first ∪ second))%nat
      by (apply subseteq_size; set_solver). lia. }
  destruct (groupAddedElements_heap first s) as (_ & _ & Hcont).
  rewrite bool_decide_eq_false_2 in Hcont by done.
  rewrite getElement_groupAddedElements, Hcont, processingForLong_groupAddedElements, Hlong.
  rewrite bool_decide_eq_false_2 by lia.
  rewrite (bool_decide_eq_true_2 (e ∈ second)) by done. cbn [negb andb].
  rewrite getElement_groupAddedElements, Hlong.
  rewrite bool_decide_eq_false_2 by done.
  rewrite (bool_decide_eq_true_2 (e ∈ first)) by done. cbn [negb andb].
  unfold hidden. rewrite Hk, Hi. simpl. rewrite Hk, Hi. simpl. done.
Qed.

(** ** Buffering *)

(** An add that leaves the group at or below the threshold publishes
    nothing: the group becomes the union; a new sliding timer is pending,
    due 30 ms from now, under the sliding handle, and it is the only sliding
    release pending; an absolute release is pending under the absolute
    handle, the one that was pending before if there was one; and timers
    that are not releases stay pending. *)
Theorem groupAddedElements_buffers (addedElements : gset positive) (s : DocumentObserver) :
  wfTimers s →
  (size (groupContents s ∪ addedElements) ≤ addedElementsGroupMinimumSize)%nat →
  let s' := groupAddedElements addedElements s in
  let sliding := {| timerId := nextTimerId s;
                    due := clock s + addedElementsGroupSlidingTimeoutMS;
                    task := ReleaseTask TitleSliding |} in
  published s s' = []
  ∧ groupContents s' = groupContents s ∪ addedElements
  ∧ lastAddedElementsGroupSlidingTimeout s' = Some (timerId sliding)
  ∧ sliding ∈ timers s'
  ∧ (∀ t, t ∈ timers s' → task t = ReleaseTask TitleSliding ↔ t = sliding)
  ∧ (∃ absolute, absolute ∈ timers s'
       ∧ task absolute = ReleaseTask TitleAbsolute
       ∧ lastAddedElementsGroupAbsoluteTimeout s' = Some (timerId absolute)
       ∧ (absolute ∈ timers s
          ∨ (lastAddedElementsGroupAbsoluteTimeout s = None
             ∧ due absolute = clock s + addedElementsGroupAbsoluteTimeoutMS)))
  ∧ (∀ t, t ∈ timers s → (∀ title, task t ≠ ReleaseTask title) → t ∈ timers s').
Proof.
  intros Hwf Hsmall s' sliding.
  assert (Hsmall' : ¬ (addedElementsGroupMinimumSize
                       < size (groupContents s ∪ addedElements))%nat) by lia.
  destruct (groupAddedElements_buffered addedElements s Hsmall') as (Hl & Hsl & Hab).
  destruct (groupAddedElements_heap addedElements s) as (_ & _ & Hcont).
  rewrite bool_decide_eq_false_2 in Hcont by done.
  fold s' in Hl, Hsl, Hab, Hcont.
  assert (Htimers : ∀ t, t ∈ timers s' ↔
            (t ∈ timers s ∧ Some (timerId t) ≠ lastAddedElementsGroupSlidingTimeout s)
            ∨ t = sliding
            ∨ (truthy (lastAddedElementsGroupAbsoluteTimeout s) = false
               ∧ t = {| timerId := nextTimerId s + 1;
                        due := clock s + addedElementsGroupAbsoluteTimeoutMS;
                        task := ReleaseTask TitleAbsolute |})).
  { intros t. destruct (truthy (lastAddedElementsGroupAbsoluteTimeout s));
      destruct Hab as [_ ->]; rewrite !elem_of_app, !list_elem_of_singleton,
        elem_of_timers_clearTimeout; naive_solver. }
  split_and!; try done.
  - apply published_app. by rewrite Hl, app_nil_r.
  - apply Htimers. right. by left.
  - intros t Ht. split; [|by intros ->].
    intros Htask. apply Htimers in Ht as [[Ht Hne]|[?|[_ ->]]]; [|done|done].
    destruct (wf_release s Hwf t _ Ht Htask) as [[_ ?]|[? _]]; congruence.
  - destruct (lastAddedElementsGroupAbsoluteTimeout s) as [a|] eqn:Ha.
    + destruct (wf_absolute s Hwf a Ha) as (ta & Hta & Hida & Hka).
      assert (0 < a) by (rewrite <- Hida; by apply (wf_timerIds s Hwf)).
      cbn [truthy] in Hab. replace (a =? 0) with false in Hab by lia.
      cbn [negb] in Hab. destruct Hab as [Hab _].
      exists ta. split_and!; [|done|congruence|by left].
      apply Htimers. left. split; [done|]. intros Heq. symmetry in Heq.
      rewrite Hida in Heq. by eapply (wfTimers_handles_differ s a a).
    + cbn [truthy] in Hab. destruct Hab as [Hab _].
      exists {| timerId := nextTimerId s + 1;
                due := clock s + addedElementsGroupAbsoluteTimeoutMS;
                task := ReleaseTask TitleAbsolute |}.
      split_and!; [|done|done|by right].
      apply Htimers. right. right. done.
  - intros t Ht Hother. apply Htimers. left. split; [done|].
    intros Heq. symmetry in Heq.
    destruct (wf_sliding s Hwf _ Heq) as (t' & Ht' & Hid & Htask').
    assert (t' = t) by (eapply NoDup_timerId_inj; [apply Hwf|done..]).
    subst t'. by apply (Hother TitleSliding).
Qed.

(** ** Stale handles *)

Lemma fire_not_pending s id :
  (∀ t, t ∈ timers s → timerId t ≠ id) → fire s id = s.
Proof.
  intros Hnone. unfold fire.
  destruct (list_find _ _) as [[i t]|] eqn:Hfind; [|done].
  apply list_find_timer in Hfind as [Ht Hid]. by destruct (Hnone t Ht).
Qed.

(** A handle that was cleared is dead.  After a release, in whatever state
    it runs, neither of the two handles the accumulator held makes anything
    happen when the platform comes to it; and after an add, the sliding
    handle that the add has replaced does not either. *)
Theorem cleared_timers_never_fire (s : DocumentObserver) (id : Z) :
  (lastAddedElementsGroupSlidingTimeout s = Some id
   ∨ lastAddedElementsGroupAbsoluteTimeout s = Some id →
   ∀ title, fire (releaseAddedElementsGroup title s) id
            = releaseAddedElementsGroup title s)
  ∧ (wfTimers s → lastAddedElementsGroupSlidingTimeout s = Some id →
     ∀ addedElements, fire (groupAddedElements addedElements s) id
                      = groupAddedElements addedElements s).
Proof.
  split.
  { intros Hid title. apply fire_not_pending. intros t.
    rewrite releaseAddedElementsGroup_timers, timers_clearAllTimeouts.
    intros (_ & Hs & Ha) Heq. destruct Hid as [Hid|Hid]; congruence. }
  intros Hwf Hid addedElements. apply fire_not_pending. intros t Ht Heq.
  destruct (wf_sliding s Hwf id Hid) as (t0 & Ht0 & Hid0 & _).
  pose proof (wf_timerIds s Hwf t0 Ht0) as Hrange.
  destruct (decide (addedElementsGroupMinimumSize
                    < size (groupContents s ∪ addedElements))%nat) as [Hbig|Hsmall].
  - destruct (groupAddedElements_big_timers addedElements s t Hbig Ht)
      as (_ & Hs & _). congruence.
  - destruct (groupAddedElements_buffered addedElements s Hsmall) as (_ & _ & Hab).
    assert (Hcases : (t ∈ timers s ∧ Some (timerId t) ≠ lastAddedElementsGroupSlidingTimeout s)
                     ∨ timerId t = nextTimerId s ∨ timerId t = nextTimerId s + 1).
    { destruct (truthy _); destruct Hab as [_ Hab]; rewrite Hab in Ht;
        rewrite !elem_of_app, !list_elem_of_singleton, elem_of_timers_clearTimeout in Ht;
        naive_solver. }
    destruct Hcases as [[_ Hne]|[?|?]]; [congruence|lia..].
Qed.

(** * Invariants of the event loop *)

Lemma schedulesAhead_refl s : schedulesAhead s s.
Proof. split; [done|]. intros t Ht. by left. Qed.

Lemma schedulesAhead_trans s1 s2 s3 :
  schedulesAhead s1 s2 → schedulesAhead s2 s3 → schedulesAhead s1 s3.
Proof.
  intros [Hc1 H1] [Hc2 H2]. split; [congruence|].
  intros t [Ht|Ht]%H2; [by apply H1|]. right. by rewrite <- Hc1.
Qed.

(** A step that cancels timers at most. *)
Lemma schedulesAhead_subset s s' :
  clock s' = clock s → (∀ t, t ∈ timers s' → t ∈ timers s) → schedulesAhead s s'.
Proof. intros Hc Hsub. split; [done|]. intros t Ht. left. by apply Hsub. Qed.

Lemma schedulesAhead_releaseAddedElementsGroup title s :
  schedulesAhead s (releaseAddedElementsGroup title s).
Proof.
  apply schedulesAhead_subset.
  - by destruct (releaseAddedElementsGroup_surroundings title s) as (_&_&_&_&_&_&_&?).
  - intros t. rewrite releaseAddedElementsGroup_timers, timers_clearAllTimeouts. tauto.
Qed.

Lemma schedulesAhead_groupAddedElements addedElements s :
  schedulesAhead s (groupAddedElements addedElements s).
Proof.
  destruct (groupAddedElements_surroundings addedElements s) as (_&_&_&_&_&_&_&Hc).
  split; [done|]. intros t Ht.
  destruct (decide (addedElementsGroupMinimumSize
                    < size (groupContents s ∪ addedElements))%nat) as [Hbig|Hsmall].
  - left. by destruct (groupAddedElements_big_timers addedElements s t Hbig Ht).
  - destruct (groupAddedElements_buffered addedElements s Hsmall) as (_ & _ & Hab).
    destruct (truthy _); destruct Hab as [_ Hab]; rewrite Hab in Ht;
      rewrite !elem_of_app, !list_elem_of_singleton, elem_of_timers_clearTimeout in Ht.
    + destruct Ht as [[? _]| ->]; [by left|right]. simpl.
      unfold addedElementsGroupSlidingTimeoutMS. lia.
    + destruct Ht as [[? _]|[->| ->]]; [by left|right..]; simpl;
        unfold addedElementsGroupSlidingTimeoutMS, addedElementsGroupAbsoluteTimeoutMS; lia.
Qed.

Lemma schedulesAhead_bodyObserverCallback mutations observer s :
  schedulesAhead s (bodyObserverCallback mutations observer s).
Proof.
  unfold bodyObserverCallback.
  set (c := foldl _ _ _). clearbody c.
  set (s1 := if bool_decide (0 < size (styleChanges c))%nat then _ else _).
  assert (H1 : schedulesAhead s s1).
  { subst s1. destruct (bool_decide _); by apply schedulesAhead_subset. }
  clearbody s1.
  set (s2 := if bool_decide (0 < size (childListChanges c))%nat then _ else _).
  assert (H2 : schedulesAhead s s2).
  { subst s2. destruct (bool_decide _); [|done].
    eapply schedulesAhead_trans; [done|apply schedulesAhead_groupAddedElements]. }
  clearbody s2.
  set (s3 := if bool_decide (0 < size (classChanges c))%nat then _ else _).
  assert (H3 : schedulesAhead s s3).
  { subst s3. destruct (bool_decide _); [|done].
    eapply schedulesAhead_trans; [done|by apply schedulesAhead_subset]. }
  clearbody s3.
  destruct (isActive s3); simpl; [done|].
  eapply schedulesAhead_trans; [done|by apply schedulesAhead_subset].
Qed.

Lemma schedulesAhead_headObserverCallback mutations observer s :
  schedulesAhead s (headObserverCallback mutations observer s).
Proof.
  unfold headObserverCallback. destruct (find _ _); by apply schedulesAhead_subset.
Qed.

Lemma stopDocumentObservation_new_timers doc s t :
  t ∈ timers (stopDocumentObservation doc s).2 →
  t ∈ timers s
  ∨ (due t = clock s + 1
     ∧ ∃ mutations, task t = BodyDrain (docId doc) mutations
                    ∨ task t = HeadDrain (docId doc) mutations).
Proof.
  unfold stopDocumentObservation.
  destruct (_bodyObservers s !! docId doc) as [o|]; simpl;
    (destruct (head doc); simpl;
     [destruct (_headObservers s !! docId doc); simpl; [destruct (isComplex s)|]|]);
    simpl; rewrite ?elem_of_app, ?list_elem_of_singleton; intros Ht; destruct_or?;
    subst; simpl; eauto 6.
Qed.

Lemma schedulesAhead_stopDocumentObservation doc s :
  schedulesAhead s (stopDocumentObservation doc s).2.
Proof.
  split; [apply clock_stopDocumentObservation|].
  intros t [Ht|[Hdue [ms Htask]]]%stopDocumentObservation_new_timers; [by left|right].
  rewrite Hdue. destruct Htask as [-> | ->]; simpl; lia.
Qed.

Lemma schedulesAhead_notify k doc s : schedulesAhead s (notify k doc s).
Proof.
  unfold notify.
  destruct (observersOf k s !! doc) as [o|]; [|apply schedulesAhead_refl].
  destruct (records o) as [|m ms]; [apply schedulesAhead_refl|].
  set (s1 := set_observersOf _ _ _).
  assert (H1 : schedulesAhead s s1) by (subst s1; destruct k; by apply schedulesAhead_subset).
  clearbody s1. eapply schedulesAhead_trans; [done|]. destruct k.
  - unfold updateObserverCallback. simpl. by apply schedulesAhead_subset.
  - apply schedulesAhead_bodyObserverCallback.
  - apply schedulesAhead_headObserverCallback.
Qed.

Lemma scheduledWithin_schedulesAhead s s' :
  schedulesAhead s s' → scheduledWithin s → scheduledWithin s'.
Proof.
  intros [Hc Hnew] Hs t [Ht|[_ Hhi]]%Hnew; rewrite Hc; [by apply Hs|done].
Qed.

Lemma schedulesAhead_fire id s : schedulesAhead s (fire s id).
Proof.
  unfold fire. destruct (list_find _ _) as [[i t]|]; [|apply schedulesAhead_refl].
  eapply schedulesAhead_trans.
  - apply (schedulesAhead_subset s (set_timers (filter (λ t', timerId t' ≠ id) (timers s)) s));
      [done|]. intros t' Ht'. by apply list_elem_of_filter in Ht' as [_ ?].
  - destruct (task t); simpl.
    + apply schedulesAhead_releaseAddedElementsGroup.
    + apply schedulesAhead_bodyObserverCallback.
    + apply schedulesAhead_headObserverCallback.
Qed.

Lemma scheduledWithin_delay s : scheduledWithin s → scheduledWithin (delay s).
Proof. intros Hs t Ht. specialize (Hs t Ht). simpl in *. lia. Qed.

Lemma scheduledWithin_tick s : scheduledWithin s → scheduledWithin (tick s).
Proof.
  intros Hs. unfold tick. fold (delay s).
  generalize (timerId <$> filter (λ t, due t ≤ clock (delay s)) (timers (delay s))).
  apply scheduledWithin_delay in Hs. revert Hs. generalize (delay s).
  intros s1 Hs ids. revert s1 Hs.
  induction ids as [|id ids IH]; intros s1 Hs; simpl; [done|].
  apply IH. by apply (scheduledWithin_schedulesAhead s1), Hs; apply schedulesAhead_fire.
Qed.

Lemma schedulesAhead_step s a : elapses a = 0 → schedulesAhead s (step s a).
Proof.
  intros Hzero. destruct a; cbn [step]; try discriminate Hzero.
  - destruct (startDocumentUpdateObservation_frame doc s) as (Ht&_&_&_&_&_&Hc&_).
    apply schedulesAhead_subset; [done|]. intros t. by rewrite Ht.
  - unfold stopDocumentUpdateObservation.
    destruct (_updateObservers s !! docId doc); [|apply schedulesAhead_refl].
    by apply schedulesAhead_subset.
  - destruct (startDocumentObservation_frame doc resumeState s) as (Ht&_&_&_&_&_&Hc&_).
    apply schedulesAhead_subset; [done|]. intros t. by rewrite Ht.
  - apply schedulesAhead_stopDocumentObservation.
  - unfold beforeSettingsChanged. cbn [isActive set_isComplex set_isActive].
    destruct active; cbn [negb]; [by apply schedulesAhead_subset|].
    eapply schedulesAhead_trans; [|apply schedulesAhead_stopDocumentObservation].
    by apply schedulesAhead_subset.
  - unfold queueRecord. destruct (observersOf k s !! doc) as [o|]; [|apply schedulesAhead_refl].
    destruct (interested o m); [|apply schedulesAhead_refl].
    destruct k; by apply schedulesAhead_subset.
  - apply schedulesAhead_notify.
  - unfold runTimer. destruct (list_find _ _) as [[i t]|]; [|apply schedulesAhead_refl].
    destruct (bool_decide _); [|apply schedulesAhead_refl]. apply schedulesAhead_fire.
  - by apply schedulesAhead_subset.
  - by apply schedulesAhead_subset.
Qed.

Lemma scheduledWithin_step s a : scheduledWithin s → scheduledWithin (step s a).
Proof.
  intros Hs.
  assert (Hcases : a = Tick ∨ a = Delay ∨ elapses a = 0).
  { destruct a; auto. }
  destruct Hcases as [->|[->|Hzero]].
  - by apply scheduledWithin_tick.
  - by apply scheduledWithin_delay.
  - by apply (scheduledWithin_schedulesAhead s), Hs; apply schedulesAhead_step.
Qed.

Lemma scheduledWithin_run s actions : scheduledWithin s → scheduledWithin (run s actions).
Proof.
  revert s. induction actions as [|a actions IH]; intros s Hs; [done|].
  simpl. by apply IH, scheduledWithin_step.
Qed.

Lemma reachable_wf s : reachable s → wf s.
Proof.
  intros (root & active & complex & t0 & actions & ->).
  apply wf_run, wf_newDocumentObserver.
Qed.

Lemma reachable_scheduledWithin s : reachable s → scheduledWithin s.
Proof.
  intros (root & active & complex & t0 & actions & ->).
  apply scheduledWithin_run. intros t' Ht'. by apply elem_of_nil in Ht'.
Qed.

(** No timer is ever pending for further ahead than the delay it was set
    with, whatever the platform does and however late it is: a sliding
    release is due no later than 30 ms from now, an absolute release no
    later than 100 ms, a deferred drain no later than the next
    millisecond. *)
Theorem timers_are_scheduled_within_their_delay (s : DocumentObserver) (t : Timer) :
  reachable s → t ∈ timers s →
  due t ≤ clock s + horizon (task t).
Proof. intros Hreach Ht. by apply (reachable_scheduledWithin s Hreach). Qed.

(** Whenever elements are waiting in the group, the absolute timer is
    pending under the absolute handle, due no later than 100 ms from now:
    nothing stays buffered without a deadline. *)
Theorem open_group_has_a_deadline (s : DocumentObserver) :
  reachable s → groupContents s ≠ ∅ →
  ∃ t, t ∈ timers s ∧ task t = ReleaseTask TitleAbsolute
       ∧ lastAddedElementsGroupAbsoluteTimeout s = Some (timerId t)
       ∧ due t ≤ clock s + addedElementsGroupAbsoluteTimeoutMS.
Proof.
  intros Hreach Hopen.
  destruct (reachable_wf s Hreach) as (Hwf & _ & _).
  destruct (lastAddedElementsGroupAbsoluteTimeout s) as [id|] eqn:Hid.
  2: { by apply (wf_open s Hwf) in Hid. }
  destruct (wf_absolute s Hwf id Hid) as (t & Ht & Hidt & Htask).
  pose proof (reachable_scheduledWithin s Hreach t Ht) as Hhi.
  rewrite Htask in Hhi.
  exists t. split_and!; try done. congruence.
Qed.

(** * Invariants of reachable states *)

(** At most one sliding and one absolute release are pending, they are the
    ones the two handles name, and no pending timer carries the title of an
    immediate release. *)
Theorem release_timers_are_unique (s : DocumentObserver) (t1 t2 : Timer)
    (title : ReleaseTitle) :
  reachable s →
  t1 ∈ timers s → t2 ∈ timers s →
  task t1 = ReleaseTask title → task t2 = ReleaseTask title →
  t1 = t2
  ∧ match title with
    | TitleSliding => lastAddedElementsGroupSlidingTimeout s = Some (timerId t1)
    | TitleAbsolute => lastAddedElementsGroupAbsoluteTimeout s = Some (timerId t1)
    | TitleSelf _ => False
    end.
Proof.
  intros Hreach H1 H2 Hk1 Hk2.
  destruct (reachable_wf s Hreach) as (Hwf & _ & _).
  destruct (wf_release s Hwf t1 title H1 Hk1) as [[-> Hh1]|[-> Hh1]];
    destruct (wf_release s Hwf t2 _ H2 Hk2) as [[? Hh2]|[? Hh2]]; try done.
  all: split; [|done].
  all: eapply NoDup_timerId_inj; [apply Hwf|done..|congruence].
Qed.

Lemma inertWithoutState_frame s s' :
  _bodyObservers s' = _bodyObservers s → inertWithoutState s → inertWithoutState s'.
Proof. intros Hb Hs doc o. rewrite Hb. apply Hs. Qed.

Lemma inertWithoutState_insert s doc o :
  (state o = None → observed o = ∅) → inertWithoutState s →
  inertWithoutState (set_bodyObservers (<[doc := o]> (_bodyObservers s)) s).
Proof.
  intros Ho Hs d o'. simpl. rewrite lookup_insert. case_decide.
  - by intros [= <-].
  - apply Hs.
Qed.

Lemma inertWithoutState_disconnect s observer :
  inertWithoutState s →
  inertWithoutState (set_bodyObservers (alter disconnect observer (_bodyObservers s)) s).
Proof.
  intros Hs d o'. simpl. rewrite lookup_alter. case_decide; [|apply Hs].
  subst d. destruct (_bodyObservers s !! observer) as [o|] eqn:Ho; [|done].
  simpl. by intros [= <-].
Qed.

Lemma inertWithoutState_bodyObserverCallback mutations observer s :
  inertWithoutState s → inertWithoutState (bodyObserverCallback mutations observer s).
Proof.
  intros Hs.
  destruct (bodyObserverCallback_surroundings mutations observer s) as (_&_&_&_&Hb&_).
  destruct (isActive s).
  - by apply (inertWithoutState_frame s).
  - apply (inertWithoutState_frame
             (set_bodyObservers (alter disconnect observer (_bodyObservers s)) s));
      [done|by apply inertWithoutState_disconnect].
Qed.

Lemma inertWithoutState_surroundings s s' :
  sameSurroundings s s' → inertWithoutState s → inertWithoutState s'.
Proof. intros (_&_&_&_&?&_). by apply inertWithoutState_frame. Qed.

Lemma inertWithoutState_fire s id : inertWithoutState s → inertWithoutState (fire s id).
Proof.
  intros Hs. unfold fire. destruct (list_find _ _) as [[i t]|]; [|done].
  set (s1 := set_timers _ s).
  assert (H1 : inertWithoutState s1) by by apply (inertWithoutState_frame s).
  clearbody s1. destruct (task t); simpl.
  - eapply inertWithoutState_surroundings; [apply releaseAddedElementsGroup_surroundings|done].
  - by apply inertWithoutState_bodyObserverCallback.
  - eapply inertWithoutState_surroundings; [apply headObserverCallback_surroundings|done].
Qed.

Lemma inertWithoutState_stopDocumentObservation doc s :
  inertWithoutState s → inertWithoutState (stopDocumentObservation doc s).2.
Proof.
  intros Hs d o. destruct (decide (d = docId doc)) as [->|Hd].
  - destruct (_bodyObservers s !! docId doc) as [o0|] eqn:Ho.
    + destruct (stopDocumentObservation_body doc s o0 Ho) as [_ ->]. by intros [= <-].
    + by rewrite (stopDocumentObservation_bodyObservers_None doc s Ho).
  - rewrite stopDocumentObservation_bodyObservers_other by done. apply Hs.
Qed.

Lemma inertWithoutState_startDocumentObservation doc resumeState s :
  inertWithoutState s → inertWithoutState (startDocumentObservation doc resumeState s).
Proof.
  intros Hs. unfold startDocumentObservation. case_decide; [done|].
  destruct (body doc) as [docBody|].
  - set (s1 := set_bodyObservers _ s).
    assert (H1 : inertWithoutState s1) by (by apply inertWithoutState_insert).
    clearbody s1. destruct (head doc); [|done]. destruct (isComplex s1); [|done].
    by apply (inertWithoutState_frame s1).
  - apply inertWithoutState_insert; [|done].
    destruct (_bodyObservers s !! docId doc) as [o|] eqn:Ho; simpl; [|done].
    by apply (Hs (docId doc)).
Qed.

Lemma inertWithoutState_step s a : inertWithoutState s → inertWithoutState (step s a).
Proof.
  intros Hs. destruct a; cbn [step].
  - unfold startDocumentUpdateObservation.
    destruct (documentElement doc); by apply (inertWithoutState_frame s).
  - unfold stopDocumentUpdateObservation.
    destruct (_updateObservers s !! docId doc); [|done]. by apply (inertWithoutState_frame s).
  - by apply inertWithoutState_startDocumentObservation.
  - by apply inertWithoutState_stopDocumentObservation.
  - unfold beforeSettingsChanged. cbn [isActive set_isComplex set_isActive].
    destruct active; cbn [negb]; [by apply (inertWithoutState_frame s)|].
    apply inertWithoutState_stopDocumentObservation. by apply (inertWithoutState_frame s).
  - unfold queueRecord. destruct (observersOf k s !! doc) as [o|] eqn:Ho; [|done].
    destruct (interested o m); [|done]. destruct k; try by apply (inertWithoutState_frame s).
    apply inertWithoutState_insert; [|done]. simpl. by apply (Hs doc).
  - unfold notify. destruct (observersOf k s !! doc) as [o|] eqn:Ho; [|done].
    destruct (records o) as [|m ms]; [done|].
    assert (H1 : inertWithoutState
              (set_observersOf k (<[doc := (takeRecords o).2]> (observersOf k s)) s)).
    { destruct k; try by apply (inertWithoutState_frame s).
      apply inertWithoutState_insert; [|done]. simpl. by apply (Hs doc). }
    set (s1 := set_observersOf _ _ _) in *. clearbody s1. destruct k.
    + unfold updateObserverCallback. simpl. by apply (inertWithoutState_frame s1).
    + by apply inertWithoutState_bodyObserverCallback.
    + eapply inertWithoutState_surroundings; [apply headObserverCallback_surroundings|done].
  - unfold tick. set (s1 := set_clock _ s).
    assert (H1 : inertWithoutState s1) by by apply (inertWithoutState_frame s).
    generalize (timerId <$> filter (λ t, due t ≤ clock s1) (timers s1)).
    clearbody s1. intros ids. revert s1 H1.
    induction ids as [|id ids IH]; intros s1 H1; simpl; [done|].
    by apply IH, inertWithoutState_fire.
  - by apply (inertWithoutState_frame s).
  - unfold runTimer. destruct (list_find _ _) as [[i t]|]; [|done].
    destruct (bool_decide _); [|done]. by apply inertWithoutState_fire.
  - by apply (inertWithoutState_frame s).
  - by apply (inertWithoutState_frame s).
Qed.

Lemma reachable_inertWithoutState s : reachable s → inertWithoutState s.
Proof.
  intros (root & active & complex & t0 & actions & ->).
  assert (H0 : inertWithoutState (newDocumentObserver root active complex t0)).
  { intros doc o. simpl. by rewrite lookup_empty. }
  revert H0. generalize (newDocumentObserver root active complex t0).
  induction actions as [|a actions IH]; intros s Hs; [done|].
  simpl. by apply IH, inertWithoutState_step.
Qed.

(** Stopping returns the state of the document's body observer.  It
    returns [undefined] exactly when the document has no body observer, or
    has one without a state: one that a start has put into the table and
    then failed to connect, the document having no body.  Such an observer
    observes nothing and has nothing queued. *)
Theorem stopDocumentObservation_undefined_iff (doc : Document) (s : DocumentObserver) :
  reachable s →
  ((stopDocumentObservation doc s).1 = None ↔
     ∀ o, _bodyObservers s !! docId doc = Some o → state o = None)
  ∧ (∀ o, _bodyObservers s !! docId doc = Some o →
          (stopDocumentObservation doc s).1 = state o)
  ∧ (∀ o, _bodyObservers s !! docId doc = Some o → state o = None →
          observed o = ∅ ∧ records o = []).
Proof.
  intros Hreach. pose proof (reachable_inertWithoutState s Hreach) as Hinert.
  destruct (reachable_wf s Hreach) as (_ & _ & Hwf).
  split_and!.
  - destruct (_bodyObservers s !! docId doc) as [o|] eqn:Ho.
    + destruct (stopDocumentObservation_body doc s o Ho) as [-> _].
      split; [by intros ? ? [= <-]|]. intros H. by apply H.
    + split; [done|]. intros _.
      unfold stopDocumentObservation. rewrite Ho. by destruct (head doc).
  - intros o Ho. by destruct (stopDocumentObservation_body doc s o Ho).
  - intros o Ho Hst. pose proof (Hinert _ _ Ho Hst) as Hobs. split; [done|].
    by apply (wf_queue s Hwf BodyWatcher (docId doc) o).
Qed.

(** A stopped body observer is disconnected and its queue is empty; a
    document has a head observer only if it has a body observer. *)
Theorem stopped_observers_are_disconnected (s : DocumentObserver) (doc : positive) :
  reachable s →
  (∀ o, _bodyObservers s !! doc = Some o → state o = Some Stopped →
        observed o = ∅ ∧ records o = [])
  ∧ (is_Some (_headObservers s !! doc) → is_Some (_bodyObservers s !! doc)).
Proof.
  intros Hreach. destruct (reachable_wf s Hreach) as (_ & _ & Hwf).
  split; [|apply (wf_head s Hwf)].
  intros o Ho Hst. pose proof (wf_stopped s Hwf doc o Ho Hst) as Hobs.
  split; [done|]. by apply (wf_queue s Hwf BodyWatcher doc o).
Qed.

(** * Idle time and the sliding timer *)

Lemma set_clock_same s : set_clock (clock s) s = s.
Proof. by destruct s. Qed.

Lemma filter_none {A} (P : A → Prop) `{∀ x, Decision (P x)} (l : list A) :
  (∀ x, x ∈ l → ¬ P x) → filter P l = [].
Proof.
  induction l as [|x l IH]; intros Hnone; [done|].
  rewrite filter_cons_False by (apply Hnone; by left).
  apply IH. intros y Hy. apply Hnone. by right.
Qed.

Lemma tick_idle s :
  (∀ t, t ∈ timers s → clock s + 1 < due t) → tick s = set_clock (clock s + 1) s.
Proof.
  intros Hidle. unfold tick.
  rewrite filter_none; [done|].
  simpl. intros t Ht%Hidle. lia.
Qed.

(** While no timer falls due, time passing changes nothing but the clock. *)
Lemma idle_ticks_only_move_the_clock (k : nat) (s : DocumentObserver) :
  (∀ t, t ∈ timers s → clock s + Z.of_nat k < due t) →
  run s (replicate k Tick) = set_clock (clock s + Z.of_nat k) s.
Proof.
  revert s. induction k as [|k IH]; intros s Hidle.
  - simpl. by rewrite Z.add_0_r, set_clock_same.
  - cbn [replicate run foldl step]. fold (run (tick s) (replicate k Tick)).
    rewrite tick_idle by (intros t Ht%Hidle; lia).
    rewrite IH.
    + cbn [clock set_clock]. replace (clock s + 1 + Z.of_nat k) with (clock s + Z.of_nat (S k)) by lia.
      by destruct s.
    + cbn [timers clock set_clock]. intros t Ht%Hidle. lia.
Qed.

Lemma run_ticks_S k s :
  run s (replicate (S k) Tick) = tick (run s (replicate k Tick)).
Proof.
  revert s. induction k as [|k IH]; intros s; [done|].
  change (run s (replicate (S (S k)) Tick)) with (run (tick s) (replicate (S k) Tick)).
  by rewrite IH.
Qed.

Lemma wfTimers_no_timers_no_handles s :
  wfTimers s → timers s = [] →
  lastAddedElementsGroupSlidingTimeout s = None
  ∧ lastAddedElementsGroupAbsoluteTimeout s = None.
Proof.
  intros Hwf Hnil. split.
  - destruct (lastAddedElementsGroupSlidingTimeout s) as [id|] eqn:Hid; [|done].
    destruct (wf_sliding s Hwf id Hid) as (t & Ht & _).
    rewrite Hnil in Ht. by apply elem_of_nil in Ht.
  - destruct (lastAddedElementsGroupAbsoluteTimeout s) as [id|] eqn:Hid; [|done].
    destruct (wf_absolute s Hwf id Hid) as (t & Ht & _).
    rewrite Hnil in Ht. by apply elem_of_nil in Ht.
Qed.

(** The sliding timer at work: elements added to an empty group, below the
    threshold, with nothing else going on, stay buffered for 29 ms and are
    published, all of them and once, 30 ms after the add; the flush takes
    the absolute timer with it. *)
Theorem sliding_timer_flushes_idle_group (addedElements : gset positive)
    (s : DocumentObserver) :
  wfTimers s → timers s = [] → groupContents s = ∅ →
  addedElements ≠ ∅ →
  (size addedElements ≤ addedElementsGroupMinimumSize)%nat →
  let s1 := groupAddedElements addedElements s in
  (∀ k, (k < 30)%nat →
     published s (run s1 (replicate k Tick)) = []
     ∧ groupContents (run s1 (replicate k Tick)) = addedElements)
  ∧ (let s2 := run s1 (replicate 30 Tick) in
     published s s2
       = [(clock s + addedElementsGroupSlidingTimeoutMS,
           ElementsAdded (nextSetRef s) addedElements)]
     ∧ groupContents s2 = ∅
     ∧ (∀ t, t ∉ timers s2)
     ∧ lastAddedElementsGroupSlidingTimeout s2 = None
     ∧ lastAddedElementsGroupAbsoluteTimeout s2 = None).
Proof.
  intros Hwf Hnil Hfresh Hne Hsize s1.
  destruct (wfTimers_no_timers_no_handles s Hwf Hnil) as [Hsl0 Hab0].
  assert (Hsmall : ¬ (addedElementsGroupMinimumSize
                      < size (groupContents s ∪ addedElements))%nat).
  { rewrite Hfresh. replace (∅ ∪ addedElements) with addedElements by set_solver. lia. }
  destruct (groupAddedElements_buffered addedElements s Hsmall) as (Hl & Hsl & Hab).
  rewrite Hab0, Hsl0 in Hab. cbn [truthy clearTimeout timers set_timers] in Hab.
  rewrite Hnil in Hab. destruct Hab as [Hab Htimers].
  destruct (groupAddedElements_heap addedElements s) as (Hg & _ & Hcont).
  rewrite bool_decide_eq_false_2, Hfresh in Hcont by done.
  replace (∅ ∪ addedElements) with addedElements in Hcont by set_solver.
  destruct (groupAddedElements_surroundings addedElements s) as (_&_&_&_&_&_&_&Hc).
  fold s1 in Hl, Hsl, Hab, Htimers, Hg, Hcont, Hc. clearbody s1.
  set (n := nextTimerId s) in *.
  set (sl := {| timerId := n; due := clock s + addedElementsGroupSlidingTimeoutMS;
                task := ReleaseTask TitleSliding |}) in *.
  set (ab := {| timerId := n + 1; due := clock s + addedElementsGroupAbsoluteTimeoutMS;
                task := ReleaseTask TitleAbsolute |}) in *.
  cbn [app] in Htimers.
  assert (Hidle : ∀ k, (k < 30)%nat →
            run s1 (replicate k Tick) = set_clock (clock s1 + Z.of_nat k) s1).
  { intros k Hk. apply idle_ticks_only_move_the_clock.
    intros t. rewrite Htimers, Hc, !elem_of_cons, elem_of_nil.
    unfold addedElementsGroupSlidingTimeoutMS, addedElementsGroupAbsoluteTimeoutMS in *.
    intros [->|[->|[]]]; simpl; lia. }
  split.
  - intros k Hk. rewrite (Hidle k Hk). split.
    + unfold published. cbn [log set_clock]. by rewrite Hl, drop_all.
    + done.
  - intros s2. subst s2.
    rewrite (run_ticks_S 29 s1), (Hidle 29%nat) by lia.
    set (s3 := set_clock (clock s1 + Z.of_nat 29) s1).
    assert (Htick : tick s3 = fire (set_clock (clock s + 30) s1) n).
    { unfold tick. subst s3. cbn [clock set_clock timers]. rewrite Htimers, Hc.
      replace (clock s + Z.of_nat 29 + 1) with (clock s + 30) by lia.
      rewrite filter_cons_True
        by (simpl; unfold addedElementsGroupSlidingTimeoutMS; lia).
      rewrite filter_cons_False
        by (simpl; unfold addedElementsGroupAbsoluteTimeoutMS; lia).
      rewrite filter_nil. cbn [fmap list_fmap foldl timerId sl].
      reflexivity. }
    rewrite Htick. clear Htick s3.
    set (s4 := set_clock (clock s + 30) s1).
    assert (Hfire : fire s4 n
              = releaseAddedElementsGroup TitleSliding (set_timers [ab] s4)).
    { unfold fire. subst s4. cbn [timers set_clock]. rewrite Htimers.
      assert (Hfind : list_find (λ t, timerId t = n) [sl; ab] = Some (0%nat, sl)).
      { apply list_find_Some. split_and!; [done|done|]. intros j y _ Hj. lia. }
      rewrite Hfind.
      rewrite filter_cons_False by (simpl; lia).
      rewrite filter_cons_True by (simpl; lia).
      by rewrite filter_nil. }
    rewrite Hfire. clear Hfire.
    set (s5 := set_timers [ab] s4).
    assert (Hcont5 : groupContents s5 = addedElements) by done.
    destruct (releaseAddedElementsGroup_handles TitleSliding s5) as [? ?].
    split_and!; try done.
    + apply published_app. rewrite releaseAddedElementsGroup_log, Hcont5.
      rewrite bool_decide_eq_true_2.
      * subst s5 s4. cbn [log clock addedElementsGroup set_timers set_clock].
        rewrite Hl, Hg. done.
      * intros Hzero. by apply size_empty_inv, leibniz_equiv in Hzero.
    + apply releaseAddedElementsGroup_groupContents.
    + intros t. rewrite releaseAddedElementsGroup_timers, timers_clearAllTimeouts.
      subst s5 s4. cbn [timers set_timers set_clock
        lastAddedElementsGroupSlidingTimeout lastAddedElementsGroupAbsoluteTimeout].
      rewrite Hab, list_elem_of_singleton. intros (-> & _ & Hneq). by apply Hneq.
Qed.

(** * What one callback publishes, and what it does to its observer *)

Lemma size_pos_iff (X : gset positive) : (0 < size X)%nat ↔ X ≠ ∅.
Proof.
  split.
  - intros Hpos ->. rewrite size_empty in Hpos. lia.
  - intros Hne. destruct (decide (size X = 0%nat)) as [Hz|]; [|lia].
    by apply size_empty_inv, leibniz_equiv in Hz.
Qed.

(** One callback publishes at most three events, always in the order style
    changes, added elements, class changes, and each exactly when its set
    is not empty; the added elements are published only when the add takes
    the group over the threshold, and then together with what was waiting. *)
Theorem bodyObserverCallback_publication_order (mutations : list MutationRecord)
    (observer : positive) (s : DocumentObserver) :
  let c := classified mutations s in
  let s' := bodyObserverCallback mutations observer s in
  let style := (clock s, StyleChanged (styleChanges c)) in
  let added := (clock s, ElementsAdded (nextSetRef s)
                           (groupContents s ∪ childListChanges c)) in
  let class := (clock s, ClassChanged (classChanges c)) in
  sublist (published s s') [style; added; class]
  ∧ (style ∈ published s s' ↔ styleChanges c ≠ ∅)
  ∧ (added ∈ published s s' ↔
       childListChanges c ≠ ∅
       ∧ (addedElementsGroupMinimumSize
          < size (groupContents s ∪ childListChanges c))%nat)
  ∧ (class ∈ published s s' ↔ classChanges c ≠ ∅).
Proof.
  intros c s' style added class. subst s'.
  rewrite (published_app _ _ _ (bodyObserverCallback_log mutations observer s)).
  fold c style added class.
  rewrite <- !size_pos_iff.
  destruct (bool_decide (0 < size (styleChanges c))%nat) eqn:E1;
    [apply bool_decide_eq_true_1 in E1|apply bool_decide_eq_false_1 in E1];
  (destruct (bool_decide (0 < size (childListChanges c))%nat) eqn:E2;
    [apply bool_decide_eq_true_1 in E2|apply bool_decide_eq_false_1 in E2]);
  (destruct (bool_decide (addedElementsGroupMinimumSize
               < size (groupContents s ∪ childListChanges c))%nat) eqn:E3;
    [apply bool_decide_eq_true_1 in E3|apply bool_decide_eq_false_1 in E3]);
  (destruct (bool_decide (0 < size (classChanges c))%nat) eqn:E4;
    [apply bool_decide_eq_true_1 in E4|apply bool_decide_eq_false_1 in E4]);
  cbn [andb app].
  all: split;
    [repeat first [apply sublist_nil | apply sublist_skip | apply sublist_cons]|].
  all: rewrite ?elem_of_cons, ?elem_of_nil; subst style added class.
  all: split_and!; split; try tauto.
  all: intros H; repeat destruct H as [H|H]; try tauto; try discriminate H.
Qed.

(** A callback leaves every body observer registered where it was and in
    the state it was in, with one exception: when it runs while the
    settings are switched off, it disconnects the observer that delivered
    the batch, which then observes nothing, has an empty queue and is
    queued nothing from then on.  Head and update observers are not
    touched. *)
Theorem bodyObserverCallback_disconnects_when_inactive (mutations : list MutationRecord)
    (observer : positive) (s : DocumentObserver) :
  let s' := bodyObserverCallback mutations observer s in
  (∀ d, d ≠ observer ∨ isActive s = true →
        observed <$> _bodyObservers s' !! d = observed <$> _bodyObservers s !! d
        ∧ state <$> _bodyObservers s' !! d = state <$> _bodyObservers s !! d)
  ∧ (isActive s = false →
       _bodyObservers s' !! observer = disconnect <$> _bodyObservers s !! observer
       ∧ ∀ m, queueRecord BodyWatcher observer m s' = s')
  ∧ _headObservers s' = _headObservers s
  ∧ _updateObservers s' = _updateObservers s.
Proof.
  intros s'.
  destruct (bodyObserverCallback_surroundings mutations observer s)
    as (_ & _ & _ & _ & Hb & Hh & Hu & _).
  fold s' in Hb, Hh, Hu. split_and!; [| |done..].
  - intros d Hd. rewrite Hb. destruct (isActive s); [done|].
    destruct Hd as [Hd|?]; [|done]. by rewrite lookup_alter_ne.
  - intros Hoff. rewrite Hoff in Hb. split.
    + by rewrite Hb, lookup_alter_eq.
    + intros m. unfold queueRecord. simpl. rewrite Hb, lookup_alter_eq.
      destruct (_bodyObservers s !! observer) as [o|]; simpl; [|done].
      unfold disconnect. by rewrite interested_disconnected.
Qed.

(** ** The further properties at work on the sample observer *)

Lemma reachable_sample actions : reachable (run sampleObserver actions).
Proof. by exists sampleDocument, true, true, 1000, actions. Qed.

Lemma stop_then_resume_witness :
  let s := run sampleObserver [Start sampleDocument None] in
  let stopped := stopDocumentObservation sampleDocument s in
  _bodyObservers (startDocumentObservation sampleDocument stopped.1 stopped.2)
    !! 1%positive
  = Some {| observed := {[11%positive := _bodyObserverConfig]};
            records := []; state := Some Active |}.
Proof.
  intros s stopped.
  destruct (stop_then_resume sampleDocument s
              {| observed := {[11%positive := _bodyObserverConfig]};
                 records := []; state := Some Active |} Active) as [H _].
  - vm_compute. reflexivity.
  - reflexivity.
  - exact H.
Defined.

Lemma beforeSettingsChanged_stops_root_witness :
  let s := run sampleObserver [Start sampleDocument None] in
  _bodyObservers (step s (SettingsChanged false true)) !! 1%positive
  = Some {| observed := ∅; records := []; state := Some Stopped |}.
Proof.
  intros s.
  destruct (beforeSettingsChanged_stops_root s true
              {| observed := {[11%positive := _bodyObserverConfig]};
                 records := []; state := Some Active |}) as [H _].
  - vm_compute. reflexivity.
  - exact H.
Defined.

Lemma simple_mode_publishes_no_style_change_witness :
  let s := step (newDocumentObserver sampleDocument true false 1000)
             (Touch 5 (trackedElement 900 None)) in
  (1000, StyleChanged {[5%positive]})
    ∉ published s (bodyObserverCallback [attributeRecord 5 "style"] 1 s).
Proof.
  intros s.
  apply (simple_mode_publishes_no_style_change [attributeRecord 5 "style"] 1 s).
  reflexivity.
Defined.

Lemma throttle_counts_colliding_records_witness :
  let s := step sampleObserver (Touch 5 (trackedElement 1000 (Some 7))) in
  throttledCount
    (bodyObserverCallback [attributeRecord 5 "class"; attributeRecord 5 "style"] 1 s) 5
  = 9.
Proof.
  intros s.
  rewrite (throttle_counts_colliding_records
             [attributeRecord 5 "class"; attributeRecord 5 "style"] 1 s 5).
  - vm_compute. reflexivity.
  - vm_compute. discriminate.
  - vm_compute. discriminate.
Defined.

Lemma buffering_twice_forgets_visibility_witness :
  let s := run (step sampleObserver (Touch 5 (trackedElement 1000 None)))
             (TouchRoot (Some 1000) :: replicate 3001 Tick) in
  originalVisibility
    (getElement (elementData (groupAddedElements {[5%positive]}
                                (groupAddedElements {[5%positive]} s))) 5)
  = Some "hidden"%string.
Proof.
  intros s.
  destruct (buffering_twice_forgets_visibility {[5%positive]} {[5%positive]} s 5)
    as [_ H].
  - vm_compute. lia.
  - vm_compute. reflexivity.
  - set_solver.
  - set_solver.
  - vm_compute. reflexivity.
  - vm_compute. reflexivity.
  - exact H.
Defined.

Lemma groupAddedElements_buffers_witness :
  published sampleObserver (groupAddedElements {[1%positive]} sampleObserver) = []
  ∧ groupContents (groupAddedElements {[1%positive]} sampleObserver)
    = groupContents sampleObserver ∪ {[1%positive]}.
Proof.
  destruct (groupAddedElements_buffers {[1%positive]} sampleObserver)
    as (H1 & H2 & _).
  - apply (wfTimers_sample []).
  - vm_compute. lia.
  - split; [exact H1|exact H2].
Defined.

Lemma cleared_timers_never_fire_witness :
  let s := run sampleObserver
             [Start sampleDocument None;
              Queue BodyWatcher 1 (childListRecord 11 [ElementNode 5]);
              Notify BodyWatcher 1; Tick] in
  (* the sliding timer, with handle 1, is running: it has left the queue *)
  let running := set_timers (filter (λ t, timerId t ≠ 1) (timers s)) s in
  fire (releaseAddedElementsGroup TitleSliding running) 2
  = releaseAddedElementsGroup TitleSliding running
  ∧ fire (groupAddedElements {[6%positive]} s) 1 = groupAddedElements {[6%positive]} s.
Proof.
  intros s running. split.
  - destruct (cleared_timers_never_fire running 2) as [H _].
    apply H. right. reflexivity.
  - destruct (cleared_timers_never_fire s 1) as [_ H].
    apply H; [apply wfTimers_sample|reflexivity].
Defined.

Lemma timers_are_scheduled_within_their_delay_witness :
  let s := run sampleObserver
             (Start sampleDocument None
              :: Queue BodyWatcher 1 (childListRecord 11 [ElementNode 5])
              :: Notify BodyWatcher 1 :: replicate 40 Delay) in
  1030 ≤ clock s + 30.
Proof.
  intros s.
  apply (timers_are_scheduled_within_their_delay s
           {| timerId := 1; due := 1030; task := ReleaseTask TitleSliding |}).
  - apply reachable_sample.
  - vm_compute. apply list_elem_of_here.
Defined.

Lemma open_group_has_a_deadline_witness :
  let s := run sampleObserver
             [Start sampleDocument None;
              Queue BodyWatcher 1 (childListRecord 11 [ElementNode 5]);
              Notify BodyWatcher 1; Tick] in
  ∃ t, t ∈ timers s ∧ task t = ReleaseTask TitleAbsolute
       ∧ lastAddedElementsGroupAbsoluteTimeout s = Some (timerId t)
       ∧ due t ≤ clock s + addedElementsGroupAbsoluteTimeoutMS.
Proof.
  intros s. apply (open_group_has_a_deadline s).
  - apply reachable_sample.
  - vm_compute. discriminate.
Defined.

Lemma release_timers_are_unique_witness :
  let s := run sampleObserver
             [Start sampleDocument None;
              Queue BodyWatcher 1 (childListRecord 11 [ElementNode 5]);
              Notify BodyWatcher 1; Tick] in
  lastAddedElementsGroupSlidingTimeout s = Some 1.
Proof.
  intros s.
  destruct (release_timers_are_unique s
              {| timerId := 1; due := 1030; task := ReleaseTask TitleSliding |}
              {| timerId := 1; due := 1030; task := ReleaseTask TitleSliding |}
              TitleSliding) as [_ H].
  - apply reachable_sample.
  - vm_compute. apply list_elem_of_here.
  - vm_compute. apply list_elem_of_here.
  - reflexivity.
  - reflexivity.
  - exact H.
Defined.

Lemma stopDocumentObservation_undefined_iff_witness :
  (stopDocumentObservation sampleDocument sampleObserver).1 = None
  ∧ (stopDocumentObservation sampleDocumentLoading
       (run sampleObserver [Start sampleDocumentLoading None])).1 = None
  ∧ (stopDocumentObservation sampleDocument
       (run sampleObserver [Start sampleDocumentLoading None;
                            Start sampleDocument None])).1 = Some Active.
Proof.
  split_and!.
  - destruct (stopDocumentObservation_undefined_iff sampleDocument sampleObserver)
      as [[_ H] _].
    + apply (reachable_sample []).
    + apply H. intros o Ho. vm_compute in Ho. discriminate.
  - destruct (stopDocumentObservation_undefined_iff sampleDocumentLoading
                (run sampleObserver [Start sampleDocumentLoading None])) as [[_ H] _].
    + apply reachable_sample.
    + apply H. intros o Ho. vm_compute in Ho. by injection Ho as <-.
  - destruct (stopDocumentObservation_undefined_iff sampleDocument
                (run sampleObserver [Start sampleDocumentLoading None;
                                     Start sampleDocument None])) as (_ & H & _).
    + apply reachable_sample.
    + rewrite (H {| observed := {[11%positive := _bodyObserverConfig]};
                    records := []; state := Some Active |}); [done|].
      vm_compute. reflexivity.
Defined.

Lemma stopped_observers_are_disconnected_witness :
  let s := run sampleObserver
             [Start sampleDocument None;
              Queue BodyWatcher 1 (attributeRecord 11 "class");
              Stop sampleDocument] in
  ∃ o, _bodyObservers s !! 1%positive = Some o
       ∧ observed o = ∅ ∧ records o = [].
Proof.
  intros s.
  exists {| observed := ∅; records := []; state := Some Stopped |}.
  split; [vm_compute; reflexivity|].
  destruct (stopped_observers_are_disconnected s 1) as [H _].
  - apply reachable_sample.
  - apply H; [vm_compute; reflexivity|reflexivity].
Defined.

Lemma sliding_timer_flushes_idle_group_witness :
  published sampleObserver
    (run (groupAddedElements {[1%positive]} sampleObserver) (replicate 30 Tick))
  = [(1030, ElementsAdded 2 {[1%positive]})].
Proof.
  destruct (sliding_timer_flushes_idle_group {[1%positive]} sampleObserver)
    as (_ & H & _).
  - apply (wfTimers_sample []).
  - reflexivity.
  - vm_compute. reflexivity.
  - set_solver.
  - vm_compute. lia.
  - exact H.
Defined.

(** * The update observer from start to publication *)

Lemma admits_updateObserverConfig root m :
  admits root _updateObserverConfig m
  = bool_decide (type m = attributes ∧ attributeName m = Some "ml-update"%string
                 ∧ target m = root).
Proof.
  unfold admits. cbn [subtree _updateObserverConfig orb].
  destruct (decide (target m = root)) as [Ht|Ht].
  2: { rewrite (bool_decide_eq_false_2 (target m = root)) by done. cbn [andb].
       symmetry. apply bool_decide_eq_false_2. naive_solver. }
  rewrite (bool_decide_eq_true_2 (target m = root)) by done. cbn [andb].
  destruct (type m) eqn:Hty; cbn [observeAttributes observeChildList
    _updateObserverConfig attributeFilter andb].
  - destruct (attributeName m) as [a|] eqn:Ha.
    + apply bool_decide_ext. rewrite list_elem_of_singleton. naive_solver.
    + symmetry. apply bool_decide_eq_false_2. naive_solver.
  - symmetry. apply bool_decide_eq_false_2. naive_solver.
  - symmetry. apply bool_decide_eq_false_2. naive_solver.
Qed.

Lemma interested_singleton node options st m :
  interested {| observed := {[node := options]}; records := []; state := st |} m
  = admits node options m.
Proof.
  unfold interested. simpl. destruct (admits node options m) eqn:Ha.
  - apply bool_decide_eq_true_2. exists node, options.
    by rewrite lookup_singleton_eq.
  - apply bool_decide_eq_false_2. intros (i & x & Hix & Hx).
    apply lookup_singleton_Some in Hix as [<- <-]. congruence.
Qed.

(** The update path end to end, for a document that is started for the
    first time: the new observer is registered on the root element alone;
    a record of a change of the attribute [ml-update] of the root element
    that the platform queues and delivers is published as one targeted
    update, of the root element, and the observer is left as it was after
    the start, with an empty queue; a record of any other kind, or for any
    other element, is not queued and changes nothing. *)
Theorem update_observation_round_trip (doc : Document) (root : positive)
    (s : DocumentObserver) (m : MutationRecord) :
  documentElement doc = Some root →
  _updateObservers s !! docId doc = None →
  let s1 := startDocumentUpdateObservation doc s in
  let s2 := queueRecord UpdateWatcher (docId doc) m s1 in
  let s3 := notify UpdateWatcher (docId doc) s2 in
  _updateObservers s1 !! docId doc
  = Some {| observed := {[root := _updateObserverConfig]};
            records := []; state := None |}
  ∧ if bool_decide (type m = attributes ∧ attributeName m = Some "ml-update"%string
                    ∧ target m = root)
    then published s s3 = [(clock s, UpdateChanged root)]
         ∧ _updateObservers s3 = _updateObservers s1
    else s3 = s1.
Proof.
  intros Hroot Hnone s1 s2 s3.
  assert (Ho : _updateObservers s1 !! docId doc
    = Some {| observed := {[root := _updateObserverConfig]};
              records := []; state := None |}).
  { subst s1. unfold startDocumentUpdateObservation. rewrite Hroot, Hnone. simpl.
    rewrite lookup_insert_eq. unfold observe, newMutationObserver. simpl.
    by rewrite insert_empty. }
  split; [done|].
  assert (Hlog : log s1 = log s ∧ clock s1 = clock s).
  { by destruct (startDocumentUpdateObservation_frame doc s) as (_&_&_&_&_&?&?&_). }
  destruct Hlog as [Hlog Hclock]. clearbody s1.
  subst s3 s2. unfold queueRecord. cbn [observersOf]. rewrite Ho, interested_singleton.
  rewrite admits_updateObserverConfig.
  destruct (bool_decide _) eqn:Hm.
  - apply bool_decide_eq_true_1 in Hm as (_ & _ & Htarget).
    unfold notify. cbn [observersOf set_observersOf]. simpl.
    rewrite lookup_insert_eq. simpl. rewrite insert_insert_eq.
    split.
    + apply published_app. simpl. by rewrite Hlog, Hclock, Htarget.
    + apply map_eq. intros d. destruct (decide (d = docId doc)) as [->|Hd].
      * by rewrite lookup_insert_eq, Ho.
      * by rewrite lookup_insert_ne.
  - unfold notify. cbn [observersOf]. by rewrite Ho.
Qed.

Lemma update_observation_round_trip_witness :
  let s := run sampleObserver
             [StartUpdate sampleDocument;
              Queue UpdateWatcher 1 (attributeRecord 10 "ml-update");
              Notify UpdateWatcher 1] in
  published sampleObserver s = [(1000, UpdateChanged 10)]
  ∧ _updateObservers s
    = _updateObservers (startDocumentUpdateObservation sampleDocument sampleObserver).
Proof.
  intros s.
  destruct (update_observation_round_trip sampleDocument 10 sampleObserver
              (attributeRecord 10 "ml-update")) as [_ H].
  - reflexivity.
  - reflexivity.
  - exact H.
Defined.

